(** * StudyRoom: the WebRTC mesh of src/pages/StudyRoom.tsx

    A shallow embedding of the peer-connection code of the StudyRoom
    component: the refs it keeps ([peerConnectionsRef], [localStreamRef],
    [remoteVideosRef], ...), the signalling handlers ([handleSignal],
    [handleOffer], [handleAnswer], [handleIceCandidate]), [sendSignal],
    [createPeerConnection], [closePeerConnection], [cleanup], the
    participants effect and the two media toggles.

    Modelling choices.
    - The component's refs and the two toggles' React state are the fields
      of one record, [Session]; every function of the component is a
      function on it.
    - JavaScript objects that are shared by reference live in stores:
      [objects] holds every [PeerConnection] wrapper ever constructed (its
      index is the object's identity, [peerConnectionsRef] maps a
      participant to an index) and [tracks] holds the [MediaStreamTrack]s
      that [getUserMedia] returned ([localStreamRef] and the senders of a
      connection name them by index).
    - What the browser and the Supabase client decide is a parameter, the
      record [Browser]: whether the WebRTC engine rejects a call, the text
      of the descriptions it creates, the outcome of a row insert, the
      outcome of [getUserMedia].
    - An [async] function is a computation in the monad [Async], state
      passing with exceptions, so that [try]/[catch] reads as in the
      source.  Each handler runs to completion: an [await] is not modelled
      as a point where another handler may interleave.  In
      [createPeerConnection] and [handleOffer] the object is constructed
      and stored in [peerConnectionsRef] before the first [await], so the
      map that a later handler reads is the one of this model.
    - The toggles read [isAudioOn] and [isVideoOn] when they run: a click
      handler is the one of the latest render.  [initializeLocalStream]
      takes the two values as arguments: it writes what its closure
      holds, the values of the render whose effect called
      [initializeRoom], which a toggle may have changed since when two
      initializations overlap.
    - [console.log], [console.error] and [toast] append to [console]; of
      the values a line prints, one is kept.
    - What happens to a mounted component is an [Event], and [dispatch]
      runs the handler that the event calls; the invariants of the refs
      are shown for every sequence of events, through the atomic
      transitions [Step] that the handlers are made of.
    - The React state beside the refs ([room], [participants], [messages],
      [newMessage], [loading]) is the record [Page], with the calls of
      [navigate]; what the queries of the page answer is the parameter
      [Supabase]. *)

From stdpp Require Import gmap strings list fin_maps.

Open Scope string_scope.
Open Scope list_scope.

Module StudyRoom.

(** ** Data *)

Inductive RTCSdpType := offer | answer.

(** [signal_data]: the JSON blob of a row of [webrtc_signals], either a
    session description or [candidate.toJSON()]. *)
Inductive SignalData :=
  | SessionDescription (type : RTCSdpType) (sdp : string)
  | IceCandidateInit (candidate : string).

Record Signal := mkSignal {
  room_id : string;
  from_user_id : string;
  to_user_id : string;
  signal_type : string;
  signal_data : SignalData
}.

Record Participant := mkParticipant {
  id : string;
  username : string;
  user_id : string;
  is_active : bool
}.

Inductive TrackKind := audio | video.

#[export] Instance TrackKind_eq_dec : EqDecision TrackKind.
Proof. solve_decision. Defined.

(** [track.kind], as a log line prints it. *)
Definition kindName (k : TrackKind) : string :=
  match k with audio => "audio" | video => "video" end.

Record MediaStreamTrack := mkTrack {
  kind : TrackKind;
  enabled : bool;
  stopped : bool
}.

Inductive RTCPeerConnectionState :=
  | new | connecting | connected | disconnected | failed | closed.

(** The two places that construct an [RTCPeerConnection] install different
    [onconnectionstatechange] handlers: the one of [createPeerConnection]
    closes over [participantUsername] and schedules a reconnection, the one
    of [handleOffer] only logs. *)
Inductive Handlers :=
  | ofCreatePeerConnection (participantUsername : string)
  | ofHandleOffer.

(** The wrapper [{ peerConnection, stream }] together with the state of
    its [RTCPeerConnection] that the component reads or writes. *)
Record PeerConnection := mkPC {
  remoteUser : string;
  handlers : Handlers;
  senders : list nat;
  localDescription : option SignalData;
  remoteDescription : option SignalData;
  iceCandidates : list string;
  connectionState : RTCPeerConnectionState;
  stream : option nat
}.

Inductive LogEntry :=
  | console_log (message : string) (arg : string)
  | console_error (message : string) (err : string)
  | toast (title : string) (description : string).

(** A pending [setTimeout] of the reconnection callback. *)
Record Timer := mkTimer {
  delay : nat;
  participantUserId : string;
  participantName : string
}.

Record Session := mkSession {
  roomId : option string;
  user : option string;
  isAudioOn : bool;
  isVideoOn : bool;
  tracks : list MediaStreamTrack;
  localStreamRef : option (list nat);
  objects : list PeerConnection;
  peerConnectionsRef : gmap string nat;
  remoteVideosRef : gset string;
  signalingChannelRef : bool;
  isInitializedRef : bool;
  webrtc_signals : list Signal;
  console : list LogEntry;
  timers : list Timer
}.

(** ** The environment *)

Inductive EngineCall :=
  | createOffer
  | createAnswer
  | setLocalDescription (d : SignalData)
  | setRemoteDescription (d : SignalData)
  | addIceCandidate (c : SignalData).

(** [await supabase.from(..).insert(..)] resolves with the row stored,
    resolves with an [error] field in its result (the shape the component
    destructures in [fetchRoom] and [handleLeaveRoom]), or rejects. *)
Inductive InsertOutcome :=
  | inserted
  | resolvedWithError (err : string)
  | rejected (err : string).

Record Browser := mkBrowser {
  rejects : EngineCall -> PeerConnection -> option string;
  sdpText : RTCSdpType -> PeerConnection -> string;
  insert : Session -> Signal -> InsertOutcome;
  getUserMedia : Session -> string + list TrackKind
}.

(** ** Field updates *)

Definition with_tracks (f : list MediaStreamTrack -> list MediaStreamTrack)
    (s : Session) : Session :=
  mkSession (roomId s) (user s) (isAudioOn s) (isVideoOn s) (f (tracks s))
    (localStreamRef s) (objects s) (peerConnectionsRef s) (remoteVideosRef s)
    (signalingChannelRef s) (isInitializedRef s) (webrtc_signals s)
    (console s) (timers s).

Definition with_localStreamRef (v : option (list nat)) (s : Session) : Session :=
  mkSession (roomId s) (user s) (isAudioOn s) (isVideoOn s) (tracks s)
    v (objects s) (peerConnectionsRef s) (remoteVideosRef s)
    (signalingChannelRef s) (isInitializedRef s) (webrtc_signals s)
    (console s) (timers s).

Definition with_isAudioOn (v : bool) (s : Session) : Session :=
  mkSession (roomId s) (user s) v (isVideoOn s) (tracks s)
    (localStreamRef s) (objects s) (peerConnectionsRef s) (remoteVideosRef s)
    (signalingChannelRef s) (isInitializedRef s) (webrtc_signals s)
    (console s) (timers s).

Definition with_isVideoOn (v : bool) (s : Session) : Session :=
  mkSession (roomId s) (user s) (isAudioOn s) v (tracks s)
    (localStreamRef s) (objects s) (peerConnectionsRef s) (remoteVideosRef s)
    (signalingChannelRef s) (isInitializedRef s) (webrtc_signals s)
    (console s) (timers s).

Definition with_objects (f : list PeerConnection -> list PeerConnection)
    (s : Session) : Session :=
  mkSession (roomId s) (user s) (isAudioOn s) (isVideoOn s) (tracks s)
    (localStreamRef s) (f (objects s)) (peerConnectionsRef s)
    (remoteVideosRef s) (signalingChannelRef s) (isInitializedRef s)
    (webrtc_signals s) (console s) (timers s).

Definition with_peerConnectionsRef (f : gmap string nat -> gmap string nat)
    (s : Session) : Session :=
  mkSession (roomId s) (user s) (isAudioOn s) (isVideoOn s) (tracks s)
    (localStreamRef s) (objects s) (f (peerConnectionsRef s))
    (remoteVideosRef s) (signalingChannelRef s) (isInitializedRef s)
    (webrtc_signals s) (console s) (timers s).

Definition with_remoteVideosRef (f : gset string -> gset string)
    (s : Session) : Session :=
  mkSession (roomId s) (user s) (isAudioOn s) (isVideoOn s) (tracks s)
    (localStreamRef s) (objects s) (peerConnectionsRef s)
    (f (remoteVideosRef s)) (signalingChannelRef s) (isInitializedRef s)
    (webrtc_signals s) (console s) (timers s).

Definition with_signalingChannelRef (v : bool) (s : Session) : Session :=
  mkSession (roomId s) (user s) (isAudioOn s) (isVideoOn s) (tracks s)
    (localStreamRef s) (objects s) (peerConnectionsRef s) (remoteVideosRef s)
    v (isInitializedRef s) (webrtc_signals s) (console s) (timers s).

Definition with_isInitializedRef (v : bool) (s : Session) : Session :=
  mkSession (roomId s) (user s) (isAudioOn s) (isVideoOn s) (tracks s)
    (localStreamRef s) (objects s) (peerConnectionsRef s) (remoteVideosRef s)
    (signalingChannelRef s) v (webrtc_signals s) (console s) (timers s).

Definition with_webrtc_signals (f : list Signal -> list Signal)
    (s : Session) : Session :=
  mkSession (roomId s) (user s) (isAudioOn s) (isVideoOn s) (tracks s)
    (localStreamRef s) (objects s) (peerConnectionsRef s) (remoteVideosRef s)
    (signalingChannelRef s) (isInitializedRef s) (f (webrtc_signals s))
    (console s) (timers s).

Definition with_console (f : list LogEntry -> list LogEntry)
    (s : Session) : Session :=
  mkSession (roomId s) (user s) (isAudioOn s) (isVideoOn s) (tracks s)
    (localStreamRef s) (objects s) (peerConnectionsRef s) (remoteVideosRef s)
    (signalingChannelRef s) (isInitializedRef s) (webrtc_signals s)
    (f (console s)) (timers s).

Definition with_timers (f : list Timer -> list Timer) (s : Session) : Session :=
  mkSession (roomId s) (user s) (isAudioOn s) (isVideoOn s) (tracks s)
    (localStreamRef s) (objects s) (peerConnectionsRef s) (remoteVideosRef s)
    (signalingChannelRef s) (isInitializedRef s) (webrtc_signals s)
    (console s) (f (timers s)).

Definition with_localDescription (d : SignalData) (pc : PeerConnection)
    : PeerConnection :=
  mkPC (remoteUser pc) (handlers pc) (senders pc) (Some d)
    (remoteDescription pc) (iceCandidates pc) (connectionState pc) (stream pc).

Definition with_remoteDescription (d : SignalData) (pc : PeerConnection)
    : PeerConnection :=
  mkPC (remoteUser pc) (handlers pc) (senders pc) (localDescription pc)
    (Some d) (iceCandidates pc) (connectionState pc) (stream pc).

Definition with_iceCandidate (c : string) (pc : PeerConnection)
    : PeerConnection :=
  mkPC (remoteUser pc) (handlers pc) (senders pc) (localDescription pc)
    (remoteDescription pc) (iceCandidates pc ++ [c]) (connectionState pc)
    (stream pc).

Definition with_connectionState (st : RTCPeerConnectionState)
    (pc : PeerConnection) : PeerConnection :=
  mkPC (remoteUser pc) (handlers pc) (senders pc) (localDescription pc)
    (remoteDescription pc) (iceCandidates pc) st (stream pc).

Definition with_senders (f : list nat -> list nat) (pc : PeerConnection)
    : PeerConnection :=
  mkPC (remoteUser pc) (handlers pc) (f (senders pc)) (localDescription pc)
    (remoteDescription pc) (iceCandidates pc) (connectionState pc) (stream pc).

Definition with_enabled (v : bool) (t : MediaStreamTrack) : MediaStreamTrack :=
  mkTrack (kind t) v (stopped t).

Definition with_stream (m : nat) (pc : PeerConnection) : PeerConnection :=
  mkPC (remoteUser pc) (handlers pc) (senders pc) (localDescription pc)
    (remoteDescription pc) (iceCandidates pc) (connectionState pc) (Some m).

(** ** The monad of [async] functions *)

Inductive Completion (A : Type) :=
  | Resolved (a : A)
  | Thrown (err : string).
Arguments Resolved {A} a.
Arguments Thrown {A} err.

Definition Async (A : Type) : Type := Session -> Completion A * Session.

Definition ret {A} (a : A) : Async A := fun s => (Resolved a, s).

Definition throw {A} (err : string) : Async A := fun s => (Thrown err, s).

Definition bind {A B} (m : Async A) (k : A -> Async B) : Async B :=
  fun s =>
    match m s with
    | (Resolved a, s') => k a s'
    | (Thrown err, s') => (Thrown err, s')
    end.

Definition try_catch {A} (body : Async A) (handler : string -> Async A)
    : Async A :=
  fun s =>
    match body s with
    | (Resolved a, s') => (Resolved a, s')
    | (Thrown err, s') => handler err s'
    end.

Definition get : Async Session := fun s => (Resolved s, s).

Definition modify (f : Session -> Session) : Async unit :=
  fun s => (Resolved tt, f s).

Definition emit (e : LogEntry) : Async unit :=
  modify (with_console (fun l => l ++ [e])).

#[export] Instance Async_ret : MRet Async := @ret.
#[export] Instance Async_bind : MBind Async := fun A B k m => bind m k.

(** The session an [async] call leaves behind, whatever it returned. *)
Definition run {A} (m : Async A) (s : Session) : Session := snd (m s).


Fixpoint forEach {A} (l : list A) (f : A -> Async unit) : Async unit :=
  match l with
  | [] => ret tt
  | x :: l' => f x;; forEach l' f
  end.

(** [stream.getAudioTracks()] and [stream.getVideoTracks()]. *)
Definition tracksOfKind (k : TrackKind) (s : Session) (stream : list nat)
    : list nat :=
  filter (fun t => kind <$> tracks s !! t = Some k) stream.

(** ** The WebRTC engine, as the component calls it *)

Section Component.

Variable B : Browser.

(** [new RTCPeerConnection(rtcConfiguration)], wrapped: a fresh object. *)
Definition new_RTCPeerConnection (remote : string) (h : Handlers) : Async nat :=
  s ← get;
  modify (with_objects (fun l => l ++ [mkPC remote h [] None None [] new None]));;
  ret (length (objects s)).

Definition engine (o : nat) (c : EngineCall) : Async PeerConnection :=
  s ← get;
  match objects s !! o with
  | Some pc =>
      match rejects B c pc with
      | Some err => throw err
      | None => ret pc
      end
  | None => throw "InvalidStateError"
  end.

Definition update (o : nat) (f : PeerConnection -> PeerConnection) : Async unit :=
  modify (with_objects (alter f o)).

Definition pc_addTrack (o : nat) (t : nat) : Async unit :=
  update o (with_senders (fun l => l ++ [t])).

Definition pc_createOffer (o : nat) : Async SignalData :=
  pc ← engine o createOffer;
  ret (SessionDescription offer (sdpText B offer pc)).

Definition pc_createAnswer (o : nat) : Async SignalData :=
  pc ← engine o createAnswer;
  ret (SessionDescription answer (sdpText B answer pc)).

Definition pc_setLocalDescription (o : nat) (d : SignalData) : Async unit :=
  engine o (setLocalDescription d);;
  update o (with_localDescription d).

(** [pc.setRemoteDescription(new RTCSessionDescription(d))]: a blob that
    is no session description is a [TypeError]. *)
Definition pc_setRemoteDescription (o : nat) (d : SignalData) : Async unit :=
  match d with
  | SessionDescription _ _ =>
      engine o (setRemoteDescription d);;
      update o (with_remoteDescription d)
  | IceCandidateInit _ => throw "TypeError"
  end.

(** [pc.addIceCandidate(new RTCIceCandidate(c))]. *)
Definition pc_addIceCandidate (o : nat) (c : SignalData) : Async unit :=
  match c with
  | IceCandidateInit cand =>
      engine o (addIceCandidate c);;
      update o (with_iceCandidate cand)
  | SessionDescription _ _ => throw "TypeError"
  end.

Definition pc_close (pc : PeerConnection) : PeerConnection :=
  with_connectionState closed pc.

(** ** The component *)

Definition sendSignal (toUserId : string) (signalType : string)
    (signalData : SignalData) : Async unit :=
  s ← get;
  match roomId s, user s with
  | Some r, Some u =>
      try_catch
        (s' ← get;
         let row := mkSignal r u toUserId signalType signalData in
         match insert B s' row with
         | inserted => modify (with_webrtc_signals (fun l => l ++ [row]))
         | resolvedWithError _ => ret tt
         | rejected err => throw err
         end)
        (fun err => emit (console_error "Error sending signal:" err))
  | _, _ => ret tt
  end.

Definition closePeerConnection (userId : string) (s : Session) : Session :=
  match peerConnectionsRef s !! userId with
  | Some o =>
      with_remoteVideosRef (fun m => m ∖ {[userId]})
        (with_peerConnectionsRef (delete userId)
          (with_objects (alter pc_close o) s))
  | None => s
  end.

Definition createPeerConnection (participantUserId : string)
    (participantUsername : string) : Async (option nat) :=
  s ← get;
  match localStreamRef s, user s with
  | Some localStream, Some _ =>
      emit (console_log "Creating peer connection with:" participantUserId);;
      try_catch
        (pc ← new_RTCPeerConnection participantUserId
                (ofCreatePeerConnection participantUsername);
         forEach localStream (pc_addTrack pc);;
         modify (with_peerConnectionsRef <[participantUserId := pc]>);;
         o ← pc_createOffer pc;
         pc_setLocalDescription pc o;;
         emit (console_log "Sending offer to:" participantUserId);;
         sendSignal participantUserId "offer" o;;
         ret (Some pc))
        (fun err =>
           emit (console_error "Error creating peer connection:" err);;
           emit (toast "Connection Error" participantUsername);;
           ret None)
  | _, _ => ret None
  end.

Definition handleOffer (fromUserId : string) (o : SignalData) : Async unit :=
  s ← get;
  match localStreamRef s, user s with
  | Some localStream, Some _ =>
      emit (console_log "Handling offer from:" fromUserId);;
      try_catch
        (s' ← get;
         peerConnection ←
           match peerConnectionsRef s' !! fromUserId with
           | Some pc => ret pc
           | None =>
               pc ← new_RTCPeerConnection fromUserId ofHandleOffer;
               forEach localStream (pc_addTrack pc);;
               modify (with_peerConnectionsRef <[fromUserId := pc]>);;
               ret pc
           end;
         pc_setRemoteDescription peerConnection o;;
         a ← pc_createAnswer peerConnection;
         pc_setLocalDescription peerConnection a;;
         emit (console_log "Sending answer to:" fromUserId);;
         sendSignal fromUserId "answer" a)
        (fun err => emit (console_error "Error handling offer:" err))
  | _, _ => ret tt
  end.

Definition handleAnswer (fromUserId : string) (a : SignalData) : Async unit :=
  emit (console_log "Handling answer from:" fromUserId);;
  try_catch
    (s ← get;
     match peerConnectionsRef s !! fromUserId with
     | Some pc => pc_setRemoteDescription pc a
     | None => ret tt
     end)
    (fun err => emit (console_error "Error handling answer:" err)).

Definition hasRemoteDescription (s : Session) (o : nat) : bool :=
  match objects s !! o with
  | Some pc => bool_decide (is_Some (remoteDescription pc))
  | None => false
  end.

Definition handleIceCandidate (fromUserId : string) (candidate : SignalData)
    : Async unit :=
  emit (console_log "Handling ICE candidate from:" fromUserId);;
  try_catch
    (s ← get;
     match peerConnectionsRef s !! fromUserId with
     | Some pc =>
         if hasRemoteDescription s pc
         then pc_addIceCandidate pc candidate
         else ret tt
     | None => ret tt
     end)
    (fun err => emit (console_error "Error handling ICE candidate:" err)).

Definition handleSignal (signal : Signal) : Async unit :=
  emit (console_log "Received signal:" (signal_type signal));;
  if bool_decide (signal_type signal = "offer") then
    handleOffer (from_user_id signal) (signal_data signal)
  else if bool_decide (signal_type signal = "answer") then
    handleAnswer (from_user_id signal) (signal_data signal)
  else if bool_decide (signal_type signal = "ice-candidate") then
    handleIceCandidate (from_user_id signal) (signal_data signal)
  else ret tt.

(** The [onconnectionstatechange] handler of the object [o], run when the
    engine moves its [connectionState] to [st]. *)
Definition onconnectionstatechange (o : nat) (st : RTCPeerConnectionState)
    : Async unit :=
  update o (with_connectionState st);;
  s ← get;
  match objects s !! o with
  | Some pc =>
      match handlers pc with
      | ofCreatePeerConnection participantUsername =>
          emit (console_log "Connection state with" participantUsername);;
          match st with
          | connected => emit (toast "Connected" participantUsername)
          | failed | disconnected =>
              emit (console_log "Connection failed/disconnected, will retry..." "");;
              modify (with_timers (fun l =>
                l ++ [mkTimer 2000 (remoteUser pc) participantUsername]))
          | _ => ret tt
          end
      | ofHandleOffer =>
          emit (console_log "Connection state with" (remoteUser pc))
      end
  | None => ret tt
  end.

(** The callback that [setTimeout] runs for the timer [t]. *)
Definition reconnect (t : Timer) : Async unit :=
  s ← get;
  if bool_decide (is_Some (peerConnectionsRef s !! participantUserId t)) then
    modify (closePeerConnection (participantUserId t));;
    createPeerConnection (participantUserId t) (participantName t);;
    ret tt
  else ret tt.

(** The [i]-th pending timer expires. *)
Definition timeout (i : nat) : Async unit :=
  s ← get;
  match timers s !! i with
  | Some t => modify (with_timers (delete i));; reconnect t
  | None => ret tt
  end.

(** The [ontrack] handler of the object [o], for a track of kind [k] and
    [event.streams[0]].  The handler that [createPeerConnection] installs
    and the one that [handleOffer] installs log different lines. *)
Definition ontrack (o : nat) (k : TrackKind) (streams : list nat)
    : Async unit :=
  s ← get;
  match objects s !! o with
  | Some pc =>
      emit (match handlers pc with
            | ofCreatePeerConnection _ =>
                console_log "Received remote track:" (kindName k)
            | ofHandleOffer =>
                console_log "Received remote track from offer handler:"
                  (kindName k)
            end);;
      match streams with
      | m :: _ => update o (with_stream m)
      | [] => ret tt
      end
  | None => ret tt
  end.

(** The effect on [participants] ("Setup WebRTC connections when
    participants change"). *)
Definition reconcile (participants : list Participant) : Async unit :=
  s ← get;
  match user s with
  | Some u =>
      if isInitializedRef s && bool_decide (is_Some (localStreamRef s)) then
        forEach participants (fun participant =>
          s' ← get;
          if bool_decide (user_id participant ≠ u)
             && bool_decide (peerConnectionsRef s' !! user_id participant = None)
          then createPeerConnection (user_id participant) (username participant);;
               ret tt
          else ret tt);;
        s' ← get;
        let participantIds := user_id <$> participants in
        forEach (map_to_list (peerConnectionsRef s')).*1 (fun userId =>
          if bool_decide (userId ≠ u) && bool_decide (userId ∉ participantIds)
          then modify (closePeerConnection userId)
          else ret tt)
      else ret tt
  | None => ret tt
  end.

(** [audioOn] and [videoOn] are the [isAudioOn] and [isVideoOn] that the
    closure holds. *)
Definition initializeLocalStream (audioOn videoOn : bool) : Async unit :=
  try_catch
    (s ← get;
     match getUserMedia B s with
     | inl err => throw err
     | inr kinds =>
         let stream := seq (length (tracks s)) (length kinds) in
         modify (with_tracks (fun l =>
           l ++ ((fun k => mkTrack k true false) <$> kinds)));;
         modify (with_localStreamRef (Some stream));;
         emit (toast "Success" "Camera and microphone connected");;
         s' ← get;
         match head (tracksOfKind audio s' stream) with
         | Some t => modify (with_tracks (alter (with_enabled audioOn) t))
         | None => ret tt
         end;;
         match head (tracksOfKind video s' stream) with
         | Some t => modify (with_tracks (alter (with_enabled videoOn) t))
         | None => ret tt
         end
     end)
    (fun err =>
       emit (toast "Error" "Failed to access camera/microphone. Please check your browser permissions.");;
       emit (console_error "Error accessing media devices:" err)).

End Component.


(** ** The synchronous handlers *)

Definition track_stop (t : MediaStreamTrack) : MediaStreamTrack :=
  mkTrack (kind t) (enabled t) true.

Definition cleanup (s : Session) : Session :=
  let s1 :=
    match localStreamRef s with
    | Some stream =>
        with_localStreamRef None
          (foldl (fun s' t => with_tracks (alter track_stop t) s') s stream)
    | None => s
    end in
  let s2 :=
    foldl (fun s' peerConn => with_objects (alter pc_close peerConn) s') s1
      (map_to_list (peerConnectionsRef s1)).*2 in
  let s3 := with_peerConnectionsRef (fun _ => ∅) s2 in
  let s4 := if signalingChannelRef s3
            then with_signalingChannelRef false s3 else s3 in
  with_isInitializedRef false s4.

Definition handleToggleAudio (s : Session) : Session :=
  match localStreamRef s with
  | Some stream =>
      match head (tracksOfKind audio s stream) with
      | Some audioTrack =>
          with_isAudioOn (negb (isAudioOn s))
            (with_tracks (alter (with_enabled (negb (isAudioOn s))) audioTrack) s)
      | None => s
      end
  | None => s
  end.

Definition handleToggleVideo (s : Session) : Session :=
  match localStreamRef s with
  | Some stream =>
      match head (tracksOfKind video s stream) with
      | Some videoTrack =>
          with_isVideoOn (negb (isVideoOn s))
            (with_tracks (alter (with_enabled (negb (isVideoOn s))) videoTrack) s)
      | None => s
      end
  | None => s
  end.


(** The [enabled] flag of the track that a toggle writes agrees with the
    component's state for it: what [initializeLocalStream] sets up. *)
Definition in_sync (s : Session) : Prop :=
  forall localStream,
    localStreamRef s = Some localStream ->
    (forall t tr,
       head (tracksOfKind audio s localStream) = Some t ->
       tracks s !! t = Some tr -> enabled tr = isAudioOn s)
    /\ (forall t tr,
          head (tracksOfKind video s localStream) = Some t ->
          tracks s !! t = Some tr -> enabled tr = isVideoOn s).

(** ** The two loops of the participants effect

    The bodies of the two [forEach] of [reconcile], as functions on the
    session, for the statements about the effect. *)

Section ReconcileLoops.

Variable B : Browser.
Variable u : string.
Variable participants : list Participant.

(** The body of the first loop, for one participant. *)
Definition ensure (s : Session) (participant : Participant) : Session :=
  if decide (user_id participant ≠ u
             /\ peerConnectionsRef s !! user_id participant = None)
  then run (createPeerConnection B (user_id participant) (username participant)) s
  else s.

(** The body of the second loop, for one key of the map. *)
Definition prune (s : Session) (userId : string) : Session :=
  if decide (userId ≠ u /\ userId ∉ user_id <$> participants)
  then closePeerConnection userId s
  else s.

(** The guard of the effect lets it run. *)
Definition ready (s : Session) : Prop :=
  user s = Some u /\ isInitializedRef s = true /\ is_Some (localStreamRef s).

End ReconcileLoops.

(** The retry schedule of the specification,
    [min(maxBackoff, base * 2^attempt)], to compare the delay of the
    code with. *)
Definition backoff (maxBackoff base attempt : nat) : nat :=
  Nat.min maxBackoff (base * 2 ^ attempt).

(** ** Scenarios

    Concrete sessions on which the statements below are exercised. *)

(** A browser whose engine accepts every call, whose inserts store the
    row and whose [getUserMedia] grants a microphone and a camera. *)
Definition permissive : Browser :=
  mkBrowser (fun _ _ => None) (fun _ _ => "v=0") (fun _ _ => inserted)
    (fun _ => inr [audio; video]).

(** The component as mounted for [u] in room [r], before [initializeRoom]. *)
Definition mounted (r u : string) : Session :=
  mkSession (Some r) (Some u) true true [] None [] ∅ ∅ false false [] [] [].

(** The same after [initializeRoom] has run to its end. *)
Definition started (r u : string) : Session :=
  with_isInitializedRef true
    (with_signalingChannelRef true
      (run (initializeLocalStream permissive true true) (mounted r u))).

Definition member (u : string) : Participant := mkParticipant u u u true.

(** "a" and "b" are in the room and each has seen the other join. *)
Definition alice : Session :=
  run (reconcile permissive [member "a"; member "b"]) (started "room" "a").

Definition bob : Session :=
  run (reconcile permissive [member "a"; member "b"]) (started "room" "b").

(** A Supabase client whose inserts resolve with an [error] in the result,
    as for a row that the row-level security policy of [webrtc_signals]
    refuses. *)
Definition refusing : Browser :=
  mkBrowser (fun _ _ => None) (fun _ _ => "v=0")
    (fun _ _ => resolvedWithError "new row violates row-level security policy")
    (fun _ => inr [audio; video]).

(** "a" after an offer of "b" that came before "a" saw "b" join: the
    connection to "b" was constructed by [handleOffer]. *)
Definition answering : Session :=
  run (handleOffer permissive "b" (SessionDescription offer "v=0"))
    (started "room" "a").

(** "b" after the offer of "a" reached it before its participants effect
    had seen "a": the connection to "a" was constructed by [handleOffer],
    and the effect, run afterwards, finds it there. *)
Definition bob_late : Session :=
  run (reconcile permissive [member "a"; member "b"])
    (run (handleSignal permissive
            (mkSignal "room" "a" "b" "offer" (SessionDescription offer "v=0")))
       (started "room" "b")).

(** A browser in which the user denies camera and microphone. *)
Definition denied : Browser :=
  mkBrowser (fun _ _ => None) (fun _ _ => "v=0") (fun _ _ => inserted)
    (fun _ => inl "NotAllowedError").

(** [initializeRoom] has run to its end in that browser. *)
Definition receiveOnly : Session :=
  with_isInitializedRef true
    (with_signalingChannelRef true
      (run (initializeLocalStream denied true true) (mounted "room" "a"))).

(** ** Events of a session

    What happens to a mounted component, one event at a time. *)

#[export] Instance RTCPeerConnectionState_eq_dec : EqDecision RTCPeerConnectionState.
Proof. solve_decision. Defined.

(** The [onicecandidate] handler of the object [o]; [event.candidate] is
    null at the end of gathering. *)
Definition onicecandidate (B : Browser) (o : nat) (candidate : option string)
    : Async unit :=
  s ← get;
  match objects s !! o, candidate with
  | Some pc, Some c =>
      emit (console_log "Sending ICE candidate to:" (remoteUser pc));;
      sendSignal B (remoteUser pc) "ice-candidate" (IceCandidateInit c)
  | _, _ => ret tt
  end.

(** [setupSignalingChannel], for what it leaves in the refs. *)
Definition setupSignalingChannel (s : Session) : Session :=
  match roomId s, user s with
  | Some _, Some _ => with_signalingChannelRef true s
  | _, _ => s
  end.

(** What [initializeRoom] does to the refs, after its three fetches;
    [audioOn] and [videoOn] are the flags that its closure holds. *)
Definition initializeSession (B : Browser) (audioOn videoOn : bool)
    (s : Session) : Session :=
  with_isInitializedRef true
    (setupSignalingChannel (run (initializeLocalStream B audioOn videoOn) s)).

(** The connection object [o] exists and [close()] was not called on it. *)
Definition isOpen (s : Session) (o : nat) : bool :=
  match objects s !! o with
  | Some pc => bool_decide (connectionState pc ≠ closed)
  | None => false
  end.

Inductive Event :=
  | signalInserted (signal : Signal)
  | participantsChanged (participants : list Participant)
  | timerExpired (i : nat)
  | connectionStateChanged (o : nat) (st : RTCPeerConnectionState)
  | trackReceived (o : nat) (k : TrackKind) (streams : list nat)
  | iceCandidateFound (o : nat) (candidate : option string)
  | audioToggled
  | videoToggled
  | roomInitialized (audioOn videoOn : bool)
  | unmounted.

(** The browser fires no event on a connection after [close()], and
    reports the state [closed] through no event.  [roomInitialized] is the
    end of an [initializeRoom], with the flags of the render that started
    it. *)
Definition dispatch (B : Browser) (e : Event) (s : Session) : Session :=
  match e with
  | signalInserted signal => run (handleSignal B signal) s
  | participantsChanged participants => run (reconcile B participants) s
  | timerExpired i => run (timeout B i) s
  | connectionStateChanged o st =>
      if isOpen s o && bool_decide (st ≠ closed)
      then run (onconnectionstatechange o st) s else s
  | trackReceived o k streams =>
      if isOpen s o then run (ontrack o k streams) s else s
  | iceCandidateFound o candidate =>
      if isOpen s o then run (onicecandidate B o candidate) s else s
  | audioToggled => handleToggleAudio s
  | videoToggled => handleToggleVideo s
  | roomInitialized audioOn videoOn => initializeSession B audioOn videoOn s
  | unmounted => cleanup s
  end.

Definition replay (B : Browser) (events : list Event) (s : Session) : Session :=
  foldl (fun s' e => dispatch B e s') s events.


(** ** Atomic transitions

    The handlers change the refs through a few kinds of update; the
    invariants below are shown once for each kind. *)

(** A row whose [signal_type] says what its payload is. *)
Definition typed (row : Signal) : Prop :=
  match signal_data row with
  | SessionDescription offer _ => signal_type row = "offer"
  | SessionDescription answer _ => signal_type row = "answer"
  | IceCandidateInit _ => signal_type row = "ice-candidate"
  end.

(** The connection is stored in [peerConnectionsRef]. *)
Definition tracked (s : Session) (o : nat) : Prop :=
  exists userId, peerConnectionsRef s !! userId = Some o.

(** A new object for [userId], with the tracks [localStream], stored in the
    map: the synchronous start of [createPeerConnection] and of the branch
    of [handleOffer] for an unknown sender. *)
Definition construct (userId : string) (h : Handlers) (localStream : list nat)
    (s : Session) : Session :=
  with_peerConnectionsRef <[userId := length (objects s)]>
    (with_objects
       (alter (with_senders (fun l => l ++ localStream)) (length (objects s)))
       (with_objects
          (fun l => l ++ [mkPC userId h [] None None [] new None]) s)).

Inductive Update (pc : PeerConnection) : PeerConnection -> Prop :=
  | up_local (d : SignalData) : Update pc (with_localDescription d pc)
  | up_remote (d : SignalData) : Update pc (with_remoteDescription d pc)
  | up_candidate (c : string) :
      is_Some (remoteDescription pc) -> Update pc (with_iceCandidate c pc)
  | up_state (st : RTCPeerConnectionState) :
      st ≠ closed -> Update pc (with_connectionState st pc)
  | up_stream (m : nat) : Update pc (with_stream m pc).

(** Two sessions with the same room, user, objects, map, rows and timers. *)
Definition same_core (s s' : Session) : Prop :=
  roomId s' = roomId s /\ user s' = user s /\ objects s' = objects s
  /\ peerConnectionsRef s' = peerConnectionsRef s
  /\ webrtc_signals s' = webrtc_signals s /\ timers s' = timers s.

Inductive Step (s : Session) : Session -> Prop :=
  | step_other (s' : Session) : same_core s s' -> Step s s'
  | step_row (row : Signal) :
      roomId s = Some (room_id row) ->
      user s = Some (from_user_id row) ->
      typed row ->
      Step s (with_webrtc_signals (fun l => l ++ [row]) s)
  | step_construct (userId : string) (h : Handlers) (localStream : list nat) :
      peerConnectionsRef s !! userId = None ->
      Step s (construct userId h localStream s)
  | step_update (o : nat) (pc : PeerConnection)
      (f : PeerConnection -> PeerConnection) :
      tracked s o ->
      objects s !! o = Some pc ->
      Update pc (f pc) ->
      Step s (with_objects (alter f o) s)
  | step_close (userId : string) (o : nat) :
      peerConnectionsRef s !! userId = Some o ->
      Step s (with_peerConnectionsRef (delete userId)
                (with_objects (alter pc_close o) s))
  | step_timer (t : Timer) :
      delay t = 2000 ->
      Step s (with_timers (fun l => l ++ [t]) s)
  | step_expire (i : nat) : Step s (with_timers (delete i) s).

(** What holds of the refs in every state the events lead to. *)
Record Inv (s : Session) : Prop := mkInv {
  inv_entry : forall userId o,
    peerConnectionsRef s !! userId = Some o ->
    exists pc, objects s !! o = Some pc
               /\ remoteUser pc = userId /\ connectionState pc ≠ closed;
  inv_tracked : forall o pc,
    objects s !! o = Some pc -> connectionState pc ≠ closed -> tracked s o;
  inv_candidates : forall o pc,
    objects s !! o = Some pc ->
    iceCandidates pc ≠ [] -> is_Some (remoteDescription pc);
  inv_rows : forall row,
    row ∈ webrtc_signals s ->
    roomId s = Some (room_id row) /\ user s = Some (from_user_id row)
    /\ typed row;
  inv_timers : forall t, t ∈ timers s -> delay t = 2000
}.

(** How a connection object may differ from an earlier state of it. *)
Definition extends (pc pc' : PeerConnection) : Prop :=
  remoteUser pc' = remoteUser pc
  /\ handlers pc' = handlers pc
  /\ senders pc' = senders pc
  /\ iceCandidates pc `prefix_of` iceCandidates pc'
  /\ (is_Some (remoteDescription pc) -> is_Some (remoteDescription pc'))
  /\ (connectionState pc = closed -> pc' = pc).

(** Every connection object of [s] is there in [s'], changed only as
    [extends] allows. *)
Definition extended (s s' : Session) : Prop :=
  forall o pc, objects s !! o = Some pc ->
    exists pc', objects s' !! o = Some pc' /\ extends pc pc'.

(** A session with no connection, no row sent and no timer yet. *)
Definition blank (s : Session) : Prop :=
  objects s = [] /\ peerConnectionsRef s = ∅
  /\ webrtc_signals s = [] /\ timers s = [].

(** "a" mounts, the room initializes, "b" and "c" join, "b" offers first and
    is answered, a candidate of "b" arrives, "b" leaves, the connection to
    "c" fails. *)
Definition busy : list Event :=
  [roomInitialized true true;
   signalInserted (mkSignal "room" "b" "a" "offer" (SessionDescription offer "v=0"));
   participantsChanged [member "a"; member "b"; member "c"];
   signalInserted (mkSignal "room" "b" "a" "ice-candidate" (IceCandidateInit "c1"));
   iceCandidateFound 1 (Some "c2");
   participantsChanged [member "a"; member "c"];
   connectionStateChanged 1 failed].

(** A session after [cleanup]: no connection in the map, no local stream,
    every connection object closed. *)
Definition halted (s : Session) : Prop :=
  peerConnectionsRef s = ∅ /\ localStreamRef s = None
  /\ (forall o pc, objects s !! o = Some pc -> connectionState pc = closed).

(** The local media and the two states shown for it. *)
Definition media (s : Session)
    : list MediaStreamTrack * option (list nat) * bool * bool :=
  (tracks s, localStreamRef s, isAudioOn s, isVideoOn s).

(** An [async] function that leaves the value of [f] as it was. *)
Definition preserves {X A : Type} (f : Session -> X) (m : Async A) : Prop :=
  forall s, f (m s).2 = f s.

(** ** The page

    The React state that the component keeps beside its refs, and the
    functions that read and write the tables [study_rooms],
    [room_participants] and [room_chat_messages]. *)

(** The text of a chat message: a JavaScript string as its UTF-16 code
    units, on which [trim] is defined. *)
Definition Text := list N.

(** [WhiteSpace] and [LineTerminator] of ECMAScript, what [trim] strips. *)
Definition isWhiteSpace (c : N) : bool :=
  ((9 <=? c) && (c <=? 13) || (c =? 32) || (c =? 160) || (c =? 5760)
   || (8192 <=? c) && (c <=? 8202) || (c =? 8232) || (c =? 8233)
   || (c =? 8239) || (c =? 8287) || (c =? 12288) || (c =? 65279))%N.

Fixpoint trimStart (text : Text) : Text :=
  match text with
  | c :: rest => if isWhiteSpace c then trimStart rest else text
  | [] => []
  end.

Definition trimEnd (text : Text) : Text := reverse (trimStart (reverse text)).

Definition trim (text : Text) : Text := trimEnd (trimStart text).

Record StudyRoomData := mkStudyRoomData {
  room_name : string;
  room_code : string
}.

(** The embedded [profiles (username)] of a selected row; the join is null
    where no profile matches, and the column is nullable. *)
Record Profiles := mkProfiles {
  profiles_username : option string
}.

Record ParticipantRow := mkParticipantRow {
  participant_id : string;
  participant_profiles : option Profiles;
  participant_user_id : string;
  participant_is_active : bool
}.

Record MessageRow := mkMessageRow {
  message_id : string;
  message_profiles : option Profiles;
  message_content : Text;
  message_created_at : string
}.

Record ChatMessage := mkChatMessage {
  chat_id : string;
  chat_username : string;
  content : Text;
  created_at : string
}.

(** The object that [handleSendMessage] inserts. *)
Record ChatInsert := mkChatInsert {
  insert_room_id : option string;
  insert_user_id : string;
  insert_content : Text
}.

Record Page := mkPage {
  session : Session;
  room : option StudyRoomData;
  participants : list Participant;
  messages : list ChatMessage;
  newMessage : Text;
  loading : bool;
  navigations : list string;
  timeouts : list (nat * string);
  room_chat_messages : list ChatInsert
}.

(** An awaited query resolves with [{ data, error }] or rejects. *)
Inductive QueryResult (A : Type) :=
  | fulfilled (data : option A) (error : option string)
  | failedWith (err : string).
Arguments fulfilled {A} data error.
Arguments failedWith {A} err.

(** What the Supabase client answers to the queries of the page. *)
Record Supabase := mkSupabase {
  selectRoom : Page -> QueryResult StudyRoomData;
  selectParticipants : Page -> QueryResult (list ParticipantRow);
  selectMessages : Page -> QueryResult (list MessageRow);
  deleteParticipant : Page -> QueryResult unit;
  insertMessage : Page -> ChatInsert -> InsertOutcome
}.

Definition with_session (f : Session -> Session) (p : Page) : Page :=
  mkPage (f (session p)) (room p) (participants p) (messages p) (newMessage p)
    (loading p) (navigations p) (timeouts p) (room_chat_messages p).

Definition setRoom (v : option StudyRoomData) (p : Page) : Page :=
  mkPage (session p) v (participants p) (messages p) (newMessage p)
    (loading p) (navigations p) (timeouts p) (room_chat_messages p).

Definition setParticipants (v : list Participant) (p : Page) : Page :=
  mkPage (session p) (room p) v (messages p) (newMessage p)
    (loading p) (navigations p) (timeouts p) (room_chat_messages p).

Definition setMessages (v : list ChatMessage) (p : Page) : Page :=
  mkPage (session p) (room p) (participants p) v (newMessage p)
    (loading p) (navigations p) (timeouts p) (room_chat_messages p).

Definition setNewMessage (v : Text) (p : Page) : Page :=
  mkPage (session p) (room p) (participants p) (messages p) v
    (loading p) (navigations p) (timeouts p) (room_chat_messages p).

Definition setLoading (v : bool) (p : Page) : Page :=
  mkPage (session p) (room p) (participants p) (messages p) (newMessage p)
    v (navigations p) (timeouts p) (room_chat_messages p).

Definition navigate (to : string) (p : Page) : Page :=
  mkPage (session p) (room p) (participants p) (messages p) (newMessage p)
    (loading p) (navigations p ++ [to]) (timeouts p) (room_chat_messages p).

(** [setTimeout(() => navigate(to), ms)]. *)
Definition setTimeout (ms : nat) (to : string) (p : Page) : Page :=
  mkPage (session p) (room p) (participants p) (messages p) (newMessage p)
    (loading p) (navigations p) (timeouts p ++ [(ms, to)])
    (room_chat_messages p).

Definition with_room_chat_messages (f : list ChatInsert -> list ChatInsert)
    (p : Page) : Page :=
  mkPage (session p) (room p) (participants p) (messages p) (newMessage p)
    (loading p) (navigations p) (timeouts p) (f (room_chat_messages p)).

Definition report (e : LogEntry) (p : Page) : Page :=
  with_session (with_console (fun l => l ++ [e])) p.

Definition fetchRoom (Q : Supabase) (p : Page) : Page :=
  setLoading false
    match selectRoom Q p with
    | fulfilled (Some data) None => setRoom (Some data) p
    | fulfilled _ _ =>
        navigate "/study-rooms" (report (toast "Error" "Room not found") p)
    | failedWith err => report (console_error "Error fetching room:" err) p
    end.

(** [profiles?.username || 'Unknown']. *)
Definition usernameOr (profiles : option Profiles) : string :=
  match profiles with
  | Some (mkProfiles (Some name)) =>
      if bool_decide (name = "") then "Unknown" else name
  | _ => "Unknown"
  end.

Definition fetchParticipants (Q : Supabase) (p : Page) : Page :=
  match selectParticipants Q p with
  | fulfilled (Some data) None =>
      setParticipants
        ((fun r => mkParticipant (participant_id r)
                     (usernameOr (participant_profiles r))
                     (participant_user_id r) (participant_is_active r))
           <$> data) p
  | fulfilled _ _ => p
  | failedWith err =>
      report (console_error "Error fetching participants:" err) p
  end.

Definition fetchMessages (Q : Supabase) (p : Page) : Page :=
  match selectMessages Q p with
  | fulfilled (Some data) None =>
      setMessages
        ((fun m => mkChatMessage (message_id m)
                     (usernameOr (message_profiles m))
                     (message_content m) (message_created_at m))
           <$> data) p
  | fulfilled _ _ => p
  | failedWith err => report (console_error "Error fetching messages:" err) p
  end.

(** [initializeRoom], under the guard of the effect that calls it, run
    without interruption: the flags its closure holds are those of [p]. *)
Definition initializeRoom (Q : Supabase) (B : Browser) (p : Page) : Page :=
  match roomId (session p), user (session p) with
  | Some _, Some _ =>
      with_session
        (initializeSession B (isAudioOn (session p)) (isVideoOn (session p)))
        (fetchMessages Q (fetchParticipants Q (fetchRoom Q p)))
  | _, _ => p
  end.

(** The effect that redirects a user who is no longer in the room. *)
Definition redirect (p : Page) : Page :=
  match user (session p) with
  | Some u =>
      if loading p || negb (isInitializedRef (session p)) then p
      else if bool_decide (0 < length (participants p))
              && negb (existsb (fun x => bool_decide (user_id x = u))
                         (participants p))
      then navigate "/study-rooms"
             (report (toast "Room Empty" "You have left the room") p)
      else p
  | None => p
  end.

(** [localStreamRef.current?.getTracks().forEach((track) => track.stop())],
    the first statement of [handleLeaveRoom]. *)
Definition stopLocalTracks (s : Session) : Session :=
  match localStreamRef s with
  | Some stream =>
      foldl (fun s' t => with_tracks (alter track_stop t) s') s stream
  | None => s
  end.

Definition handleLeaveRoom (Q : Supabase) (p : Page) : Page :=
  let p1 := with_session stopLocalTracks p in
  let caught err :=
    setTimeout 500 "/study-rooms"
      (report (toast "Error" "Failed to leave room")
         (report (console_error "Error leaving room:" err) p1)) in
  match deleteParticipant Q p1 with
  | fulfilled _ None => navigate "/study-rooms" p1
  | fulfilled _ (Some err) => caught err
  | failedWith err => caught err
  end.

Definition handleSendMessage (Q : Supabase) (p : Page) : Page :=
  match trim (newMessage p), user (session p) with
  | _ :: _, Some u =>
      let row := mkChatInsert (roomId (session p)) u (trim (newMessage p)) in
      match insertMessage Q p row with
      | inserted =>
          setNewMessage [] (with_room_chat_messages (fun l => l ++ [row]) p)
      | resolvedWithError _ => setNewMessage [] p
      | rejected _ => report (toast "Error" "Failed to send message") p
      end
  | _, _ => p
  end.

(** The page as first rendered for [u] in room [r]. *)
Definition firstRender (r u : string) : Page :=
  mkPage (mounted r u) None [] [] [] true [] [] [].

(** A Supabase client that finds no room: [single()] resolves with an
    error and no data. *)
Definition missing : Supabase :=
  mkSupabase (fun _ => fulfilled None (Some "PGRST116"))
    (fun _ => fulfilled (Some []) None) (fun _ => fulfilled (Some []) None)
    (fun _ => fulfilled None None) (fun _ _ => inserted).

(** A Supabase client that answers every query: the room exists, "a" has
    a profile and "b" has none. *)
Definition serving : Supabase :=
  mkSupabase (fun _ => fulfilled (Some (mkStudyRoomData "Algebra" "X1Y2")) None)
    (fun _ => fulfilled
                (Some [mkParticipantRow "1" (Some (mkProfiles (Some "ann"))) "a" true;
                       mkParticipantRow "2" None "b" true]) None)
    (fun _ => fulfilled (Some []) None)
    (fun _ => fulfilled None None) (fun _ _ => inserted).

(** A Supabase client whose [delete] resolves with an error. *)
Definition locked : Supabase :=
  mkSupabase (fun _ => fulfilled None (Some "PGRST116"))
    (fun _ => fulfilled None (Some "denied")) (fun _ => failedWith "offline")
    (fun _ => fulfilled None (Some "denied"))
    (fun _ _ => resolvedWithError "denied").

(** ** Proof support *)

Ltac async_unfold :=
  unfold emit in *;
  unfold run, mbind, mret, Async_bind, Async_ret, bind, ret, throw, try_catch,
    get, modify in *.

(** ** closePeerConnection *)

(** Reduces the field updates and projections of a session, and nothing
    else. *)
Ltac session_simpl :=
  cbv beta iota delta
    [with_tracks with_localStreamRef with_isAudioOn with_isVideoOn with_objects
     with_peerConnectionsRef with_remoteVideosRef with_signalingChannelRef
     with_isInitializedRef with_webrtc_signals with_console with_timers
     roomId user isAudioOn isVideoOn tracks localStreamRef objects
     peerConnectionsRef remoteVideosRef signalingChannelRef isInitializedRef
     webrtc_signals console timers].

Ltac crunch := repeat (case_match; simplify_eq/=).

Lemma with_console_app (a b : list LogEntry) (s : Session) :
  with_console (fun l => l ++ b) (with_console (fun l => l ++ a) s)
  = with_console (fun l => l ++ a ++ b) s.
Proof. destruct s; unfold with_console; cbn. by rewrite <- app_assoc. Qed.

(** The [forEach] that adds the local tracks to a connection. *)
Lemma forEach_addTrack (localStream : list nat) (o : nat) (s : Session) :
  forEach localStream (pc_addTrack o) s
  = (Resolved tt,
     with_objects (alter (with_senders (fun l => l ++ localStream)) o) s).
Proof.
  revert s. induction localStream as [|t localStream IH]; intros s; cbn.
  - unfold ret. f_equal. destruct s; unfold with_objects; cbn. f_equal.
    symmetry. apply list_alter_id. intros [].
    unfold with_senders; cbn. by rewrite app_nil_r.
  - unfold pc_addTrack, update. async_unfold. cbn. rewrite IH. f_equal.
    destruct s; unfold with_objects; cbn. f_equal.
    rewrite list_alter_alter_eq. apply list_alter_ext; [|done].
    intros [] _. unfold with_senders; cbn. by rewrite <- app_assoc.
Qed.

Lemma closePeerConnection_length (s : Session) (userId : string) :
  length (objects (closePeerConnection userId s)) = length (objects s).
Proof.
  unfold closePeerConnection. case_match; cbn; [|done]. by rewrite length_alter.
Qed.

Lemma closePeerConnection_localStreamRef (s : Session) (userId : string) :
  localStreamRef (closePeerConnection userId s) = localStreamRef s.
Proof. unfold closePeerConnection. by case_match. Qed.

Lemma closePeerConnection_user (s : Session) (userId : string) :
  user (closePeerConnection userId s) = user s.
Proof. unfold closePeerConnection. by case_match. Qed.

Lemma closePeerConnection_unknown (s : Session) (userId : string) :
  peerConnectionsRef s !! userId = None -> closePeerConnection userId s = s.
Proof. intros H. unfold closePeerConnection. by rewrite H. Qed.

Lemma closePeerConnection_lookup (s : Session) (userId : string) :
  peerConnectionsRef (closePeerConnection userId s) !! userId = None.
Proof.
  unfold closePeerConnection.
  destruct (peerConnectionsRef s !! userId) eqn:E; cbn; [|done].
  apply lookup_delete_eq.
Qed.

Lemma closePeerConnection_map (s : Session) (userId : string) :
  peerConnectionsRef (closePeerConnection userId s)
  = delete userId (peerConnectionsRef s).
Proof.
  unfold closePeerConnection.
  destruct (peerConnectionsRef s !! userId) eqn:E; cbn; [done|].
  symmetry. by apply delete_id.
Qed.

(** C8. [closePeerConnection] on an id that is not in [peerConnectionsRef]
    leaves the whole session as it was; called twice on one id it does what
    one call does; and one call on a known id closes the connection's
    transport, deletes the map entry and the video element reference. *)
Theorem closePeerConnection_idempotent (s : Session) (userId : string) :
  (peerConnectionsRef s !! userId = None -> closePeerConnection userId s = s)
  /\ closePeerConnection userId (closePeerConnection userId s)
     = closePeerConnection userId s
  /\ (forall o pc,
        peerConnectionsRef s !! userId = Some o ->
        objects s !! o = Some pc ->
        objects (closePeerConnection userId s) !! o = Some (pc_close pc)
        /\ peerConnectionsRef (closePeerConnection userId s)
           = delete userId (peerConnectionsRef s)
        /\ userId ∉ remoteVideosRef (closePeerConnection userId s)).
Proof.
  split; [apply closePeerConnection_unknown|]. split.
  - apply closePeerConnection_unknown, closePeerConnection_lookup.
  - intros o pc Hm Ho. split; [|split].
    + unfold closePeerConnection. rewrite Hm. cbn.
      by rewrite list_lookup_alter_eq, Ho.
    + apply closePeerConnection_map.
    + unfold closePeerConnection. rewrite Hm. cbn.
      intros [_ Hn]%elem_of_difference. apply Hn. by apply elem_of_singleton.
Qed.

Lemma closePeerConnection_idempotent_witness :
  closePeerConnection "c" alice = alice
  /\ connectionState <$> objects (closePeerConnection "b" alice) !! 0
     = Some closed.
Proof.
  split.
  - apply (proj1 (closePeerConnection_idempotent alice "c")).
    vm_compute. reflexivity.
  - destruct (proj2 (proj2 (closePeerConnection_idempotent alice "b")) 0
      (mkPC "b" (ofCreatePeerConnection "b") [0; 1]
         (Some (SessionDescription offer "v=0")) None [] new None))
      as [H _].
    + vm_compute. reflexivity.
    + vm_compute. reflexivity.
    + rewrite H. reflexivity.
Defined.

(** ** handleIceCandidate *)

Lemma lookup_alter_iceCandidates (f : PeerConnection -> PeerConnection)
    (l : list PeerConnection) (i o : nat) :
  (forall pc, iceCandidates (f pc) = iceCandidates pc) ->
  iceCandidates <$> alter f i l !! o = iceCandidates <$> l !! o.
Proof.
  intros Hf. destruct (decide (i = o)) as [->|Hne].
  - rewrite list_lookup_alter_eq. destruct (l !! o); cbn; [|done]. by rewrite Hf.
  - by rewrite list_lookup_alter_ne.
Qed.

(** [handleOffer] adds no candidate to a connection. *)
Lemma handleOffer_iceCandidates (B : Browser) (s : Session) (fromUserId : string)
    (d : SignalData) (o : nat) (pc : PeerConnection) :
  objects s !! o = Some pc ->
  iceCandidates <$> objects (run (handleOffer B fromUserId d) s) !! o
  = Some (iceCandidates pc).
Proof.
  intros Ho.
  unfold handleOffer, sendSignal, pc_setRemoteDescription,
    pc_setLocalDescription, pc_createAnswer, new_RTCPeerConnection, engine,
    update.
  async_unfold. cbn.
  destruct (localStreamRef s) as [localStream|]; [|cbn; by rewrite Ho].
  destruct (user s); [|cbn; by rewrite Ho]. cbn.
  destruct (peerConnectionsRef s !! fromUserId) as [o'|]; cbn.
  - crunch; rewrite ?lookup_alter_iceCandidates by done; by rewrite Ho.
  - rewrite forEach_addTrack. cbn.
    crunch; rewrite ?lookup_alter_iceCandidates by done;
      rewrite lookup_app_l by (by eapply lookup_lt_Some); by rewrite Ho.
Qed.

(** C1, as the code has it. A candidate that arrives while the sender's
    connection has no remote description (or while there is no connection
    for the sender) is not applied and is not kept: the call only writes
    its log line. A candidate that arrives once the remote description is
    set is applied at once, after those applied before it. And applying a
    remote description later, through [handleAnswer] or [handleOffer],
    adds no candidate to any connection: nothing is flushed. *)
Theorem handleIceCandidate_no_buffer (B : Browser) (s : Session)
    (fromUserId : string) (c : string) :
  ((forall o, peerConnectionsRef s !! fromUserId = Some o ->
              hasRemoteDescription s o = false) ->
   run (handleIceCandidate B fromUserId (IceCandidateInit c)) s
   = with_console
       (fun l => l ++ [console_log "Handling ICE candidate from:" fromUserId]) s)
  /\ (forall o pc,
        peerConnectionsRef s !! fromUserId = Some o ->
        objects s !! o = Some pc ->
        is_Some (remoteDescription pc) ->
        rejects B (addIceCandidate (IceCandidateInit c)) pc = None ->
        objects (run (handleIceCandidate B fromUserId (IceCandidateInit c)) s)
        = alter (with_iceCandidate c) o (objects s))
  /\ (forall d o,
        iceCandidates <$> objects (run (handleAnswer B fromUserId d) s) !! o
        = iceCandidates <$> objects s !! o)
  /\ (forall d o pc,
        objects s !! o = Some pc ->
        iceCandidates <$> objects (run (handleOffer B fromUserId d) s) !! o
        = Some (iceCandidates pc)).
Proof.
  split; [|split; [|split]]; [| | |by apply handleOffer_iceCandidates].
  - intros H. unfold handleIceCandidate. async_unfold. cbn.
    destruct (peerConnectionsRef s !! fromUserId) as [o|] eqn:E; cbn; [|done].
    unfold hasRemoteDescription in *. cbn.
    by rewrite (H o eq_refl).
  - intros o pc Hm Ho Hr Hacc.
    unfold handleIceCandidate, pc_addIceCandidate, engine, update.
    async_unfold. cbn. rewrite Hm. cbn.
    unfold hasRemoteDescription; cbn. rewrite Ho.
    rewrite bool_decide_eq_true_2 by done. cbn.
    by rewrite Ho, Hacc.
  - intros d o.
    unfold handleAnswer, pc_setRemoteDescription, engine, update.
    async_unfold. cbn.
    destruct (peerConnectionsRef s !! fromUserId) as [o'|]; cbn; [|done].
    destruct d; cbn; [|done].
    destruct (objects s !! o') as [pc|] eqn:Ho; cbn; [|done].
    destruct (rejects B _ pc); cbn; [done|].
    destruct (decide (o' = o)) as [->|Hne].
    + by rewrite list_lookup_alter_eq, Ho.
    + by rewrite list_lookup_alter_ne.
Qed.


Lemma handleIceCandidate_no_buffer_witness :
  run (handleIceCandidate permissive "b" (IceCandidateInit "c1")) alice
  = with_console
      (fun l => l ++ [console_log "Handling ICE candidate from:" "b"]) alice
  /\ iceCandidates
       <$> objects
             (run (handleIceCandidate permissive "b" (IceCandidateInit "c2"))
                (run (handleAnswer permissive "b" (SessionDescription answer "v=0"))
                   alice)) !! 0
     = Some ["c2"].
Proof.
  split.
  - apply (proj1 (handleIceCandidate_no_buffer permissive alice "b" "c1")).
    intros o Ho. vm_compute in Ho. injection Ho as <-. vm_compute. reflexivity.
  - rewrite (proj1 (proj2 (handleIceCandidate_no_buffer permissive
        (run (handleAnswer permissive "b" (SessionDescription answer "v=0")) alice)
        "b" "c2")) 0
        (mkPC "b" (ofCreatePeerConnection "b") [0; 1]
           (Some (SessionDescription offer "v=0"))
           (Some (SessionDescription answer "v=0")) [] new None)).
    + vm_compute. reflexivity.
    + vm_compute. reflexivity.
    + vm_compute. reflexivity.
    + eexists. reflexivity.
    + reflexivity.
Defined.

(** C1 fails as stated. "b"'s candidate "c1" reaches "a" while "a"'s
    connection to "b" has no remote description; the answer of "b" then
    sets it. The candidate is in no connection of the session afterwards,
    and the session before the answer differs from [alice] by a log line
    only: it was dropped. *)
Lemma early_candidate_is_dropped :
  let early := run (handleIceCandidate permissive "b" (IceCandidateInit "c1")) alice in
  let later := run (handleAnswer permissive "b" (SessionDescription answer "v=0")) early in
  peerConnectionsRef alice !! "b" = Some 0
  /\ hasRemoteDescription alice 0 = false
  /\ early = with_console
       (fun l => l ++ [console_log "Handling ICE candidate from:" "b"]) alice
  /\ hasRemoteDescription later 0 = true
  /\ Forall (fun pc => "c1" ∉ iceCandidates pc) (objects later).
Proof.
  cbv zeta. repeat split; try (vm_compute; reflexivity).
  replace (objects _) with
    [mkPC "b" (ofCreatePeerConnection "b") [0; 1]
       (Some (SessionDescription offer "v=0"))
       (Some (SessionDescription answer "v=0")) [] new None]
    by (vm_compute; reflexivity).
  constructor; [|constructor]. cbn. apply not_elem_of_nil.
Qed.


(** ** Signals from a participant whose connection was closed *)

(** C5 fails as stated. "a" closes its connection to "b"; an offer from
    "b" then arrives. It is not dropped: "a" has a connection to "b"
    again, a new object with the offer applied, and has answered. *)
Lemma offer_after_close_recreates :
  let gone := closePeerConnection "b" alice in
  let back := run (handleSignal permissive
                     (mkSignal "room" "b" "a" "offer"
                        (SessionDescription offer "v=0"))) gone in
  peerConnectionsRef gone !! "b" = None
  /\ connectionState <$> objects gone !! 0 = Some closed
  /\ peerConnectionsRef back !! "b" = Some 1
  /\ objects back !! 1
     = Some (mkPC "b" ofHandleOffer [0; 1]
               (Some (SessionDescription answer "v=0"))
               (Some (SessionDescription offer "v=0")) [] new None)
  /\ last (webrtc_signals back)
     = Some (mkSignal "room" "a" "b" "answer" (SessionDescription answer "v=0")).
Proof. cbv zeta. repeat split; vm_compute; reflexivity. Qed.


(** ** The media toggles *)

Lemma tracksOfKind_head (k : TrackKind) (s : Session) (localStream : list nat)
    (t : nat) :
  head (tracksOfKind k s localStream) = Some t ->
  t ∈ localStream /\ kind <$> tracks s !! t = Some k.
Proof.
  intros H. apply head_Some_elem_of in H. unfold tracksOfKind in H.
  apply list_elem_of_filter in H. tauto.
Qed.





(** The agreement that makes a toggle a flip is set up by
    [initializeLocalStream] and kept by both toggles. *)
Lemma tracksOfKind_enabled (k : TrackKind) (s s' : Session) (v : bool) (t : nat)
    (localStream : list nat) :
  tracks s' = alter (with_enabled v) t (tracks s) ->
  tracksOfKind k s' localStream = tracksOfKind k s localStream.
Proof.
  intros Ht. unfold tracksOfKind. apply list_filter_iff. intros x. rewrite Ht.
  destruct (decide (t = x)) as [->|Hne].
  - rewrite list_lookup_alter_eq. by destruct (tracks s !! x).
  - by rewrite list_lookup_alter_ne.
Qed.



Lemma initializeLocalStream_in_sync (B : Browser) (s : Session) :
  in_sync s ->
  in_sync (run (initializeLocalStream B (isAudioOn s) (isVideoOn s)) s).
Proof.
  intros Hsync. unfold initializeLocalStream. async_unfold. cbn.
  destruct (getUserMedia B s) as [err|kinds]; cbn; [exact Hsync|].
  set (localStream := seq (length (tracks s)) (length kinds)).
  set (s1 := with_console _ (with_localStreamRef _ (with_tracks _ s))).
  assert (Hs1 : localStreamRef s1 = Some localStream) by done.
  assert (Ha1 : isAudioOn s1 = isAudioOn s) by done.
  assert (Hv1 : isVideoOn s1 = isVideoOn s) by done.
  clearbody s1 localStream. rewrite <- Ha1, <- Hv1. clear Ha1 Hv1 Hsync s.
  destruct (head (tracksOfKind audio s1 localStream)) as [ta|] eqn:Hha;
    destruct (head (tracksOfKind video s1 localStream)) as [tv|] eqn:Hhv; cbn;
    intros localStream' Hl; cbn in Hl; rewrite Hs1 in Hl; injection Hl as <-.
  - assert (ta ≠ tv) as Hne.
    { intros ->. apply tracksOfKind_head in Hha as [_ Hk], Hhv as [_ Hk'].
      rewrite Hk in Hk'. discriminate Hk'. }
    split; intros t tr;
      rewrite (tracksOfKind_enabled _
                 (with_tracks (alter (with_enabled (isAudioOn s1)) ta) s1) _
                 (isVideoOn s1) tv) by done;
      rewrite (tracksOfKind_enabled _ s1 _ (isAudioOn s1) ta) by done;
      cbn; intros Hh Ht.
    + rewrite Hha in Hh. injection Hh as <-.
      rewrite list_lookup_alter_ne, list_lookup_alter_eq in Ht by done.
      destruct (tracks s1 !! ta); cbn in Ht; [|done]. by injection Ht as <-.
    + rewrite Hhv in Hh. injection Hh as <-.
      rewrite list_lookup_alter_eq in Ht.
      destruct (alter _ ta (tracks s1) !! tv); cbn in Ht; [|done].
      by injection Ht as <-.
  - split; intros t tr;
      rewrite (tracksOfKind_enabled _ s1 _ (isAudioOn s1) ta) by done;
      cbn; intros Hh Ht.
    + rewrite Hha in Hh. injection Hh as <-.
      rewrite list_lookup_alter_eq in Ht.
      destruct (tracks s1 !! ta); cbn in Ht; [|done]. by injection Ht as <-.
    + rewrite Hhv in Hh. discriminate Hh.
  - split; intros t tr;
      rewrite (tracksOfKind_enabled _ s1 _ (isVideoOn s1) tv) by done;
      cbn; intros Hh Ht.
    + rewrite Hha in Hh. discriminate Hh.
    + rewrite Hhv in Hh. injection Hh as <-.
      rewrite list_lookup_alter_eq in Ht.
      destruct (tracks s1 !! tv); cbn in Ht; [|done]. by injection Ht as <-.
  - split; intros t tr Hh; [rewrite Hha in Hh | rewrite Hhv in Hh];
      discriminate Hh.
Qed.

(** ** sendSignal *)

(** [sendSignal] never throws: whatever the insert does, the caller's
    [await] resolves. *)
Lemma sendSignal_resolves (B : Browser) (s : Session) (toUserId signalType : string)
    (signalData : SignalData) :
  (sendSignal B toUserId signalType signalData s).1 = Resolved tt.
Proof. unfold sendSignal. async_unfold. by crunch. Qed.

(** When the insert rejects, the error is logged and the row is kept
    nowhere: the session changes in its console only, no timer is set to
    send it again. *)
Lemma sendSignal_rejected (B : Browser) (s : Session) (r u toUserId signalType err : string)
    (signalData : SignalData) :
  roomId s = Some r -> user s = Some u ->
  insert B s (mkSignal r u toUserId signalType signalData) = rejected err ->
  sendSignal B toUserId signalType signalData s
  = (Resolved tt,
     with_console (fun l => l ++ [console_error "Error sending signal:" err]) s).
Proof.
  intros Hr Hu Hi. unfold sendSignal. async_unfold. by rewrite Hr, Hu, Hi.
Qed.

Lemma sendSignal_inserted (B : Browser) (s : Session) (r u toUserId signalType : string)
    (signalData : SignalData) :
  roomId s = Some r -> user s = Some u ->
  insert B s (mkSignal r u toUserId signalType signalData) = inserted ->
  sendSignal B toUserId signalType signalData s
  = (Resolved tt,
     with_webrtc_signals
       (fun l => l ++ [mkSignal r u toUserId signalType signalData]) s).
Proof.
  intros Hr Hu Hi. unfold sendSignal. async_unfold. by rewrite Hr, Hu, Hi.
Qed.

(** C7, at the failing input: the insert of "a"'s offer resolves with an
    [error] in its result. [sendSignal] returns with the session exactly as
    it was: the row is not stored, and nothing is written to the console. *)
Theorem sendSignal_ignores_returned_error :
  insert refusing alice
    (mkSignal "room" "a" "b" "offer" (SessionDescription offer "v=0"))
  = resolvedWithError "new row violates row-level security policy"
  /\ sendSignal refusing "b" "offer" (SessionDescription offer "v=0") alice
     = (Resolved tt, alice).
Proof. split; [reflexivity|]. vm_compute. reflexivity. Qed.

(** ** cleanup *)

Lemma foldl_with_tracks (f : MediaStreamTrack -> MediaStreamTrack)
    (l : list nat) (s : Session) :
  foldl (fun s' t => with_tracks (alter f t) s') s l
  = with_tracks (fun ts => foldl (fun ts' t => alter f t ts') ts l) s.
Proof.
  revert s. induction l as [|t l IH]; intros s; cbn.
  - by destruct s.
  - rewrite IH. by destruct s.
Qed.

Lemma foldl_with_objects (f : PeerConnection -> PeerConnection)
    (l : list nat) (s : Session) :
  foldl (fun s' o => with_objects (alter f o) s') s l
  = with_objects (fun os => foldl (fun os' o => alter f o os') os l) s.
Proof.
  revert s. induction l as [|o l IH]; intros s; cbn.
  - by destruct s.
  - rewrite IH. by destruct s.
Qed.

(** Altering the cells [l] of a store by an idempotent [f]. *)
Lemma foldl_alter_lookup {A} (f : A -> A) (l : list nat) (xs : list A) (i : nat) :
  (forall x, f (f x) = f x) ->
  foldl (fun xs' j => alter f j xs') xs l !! i
  = if decide (i ∈ l) then f <$> xs !! i else xs !! i.
Proof.
  intros Hf. revert xs. induction l as [|j l IH]; intros xs; cbn.
  - by rewrite decide_False by apply not_elem_of_nil.
  - rewrite IH.
    destruct (decide (i ∈ l)) as [Hin|Hnin];
      destruct (decide (i ∈ j :: l)) as [Hin'|Hnin'].
    + destruct (decide (j = i)) as [->|Hne].
      * rewrite list_lookup_alter_eq. destruct (xs !! i); cbn; [|done].
        by rewrite Hf.
      * by rewrite list_lookup_alter_ne.
    + destruct Hnin'. by apply list_elem_of_further.
    + apply elem_of_cons in Hin' as [->|Hin']; [|done].
      apply list_lookup_alter_eq.
    + apply list_lookup_alter_ne. intros ->. apply Hnin', list_elem_of_here.
Qed.

(** [cleanup] in closed form. *)
Lemma cleanup_eq (s : Session) :
  cleanup s
  = mkSession (roomId s) (user s) (isAudioOn s) (isVideoOn s)
      (match localStreamRef s with
       | Some localStream =>
           foldl (fun ts t => alter track_stop t ts) (tracks s) localStream
       | None => tracks s
       end)
      None
      (foldl (fun os o => alter pc_close o os) (objects s)
         (map_to_list (peerConnectionsRef s)).*2)
      ∅ (remoteVideosRef s) false false (webrtc_signals s) (console s)
      (timers s).
Proof.
  unfold cleanup.
  destruct s as [r u ao vo ts [localStream|] os m rv [] i sig c tm]; cbn;
    rewrite ?foldl_with_tracks; cbn; rewrite ?foldl_with_objects; done.
Qed.

(** ** createPeerConnection *)

Lemma alter_last {A} (f : A -> A) (l : list A) (x : A) :
  alter f (length l) (l ++ [x]) = l ++ [f x].
Proof. rewrite alter_app_r_alt by lia. by rewrite Nat.sub_diag. Qed.

Lemma lookup_snoc {A} (l : list A) (x : A) : (l ++ [x]) !! length l = Some x.
Proof. by rewrite lookup_app_r, Nat.sub_diag. Qed.

(** What a call leaves in the refs, whatever the engine answers: a new
    object, stored under the participant's id. *)
Lemma createPeerConnection_refs (B : Browser) (s : Session)
    (participantUserId participantUsername : string) :
  is_Some (localStreamRef s) -> is_Some (user s) ->
  let s' := run (createPeerConnection B participantUserId participantUsername) s in
  peerConnectionsRef s'
  = <[participantUserId := length (objects s)]> (peerConnectionsRef s)
  /\ length (objects s') = S (length (objects s))
  /\ user s' = user s
  /\ isInitializedRef s' = isInitializedRef s
  /\ localStreamRef s' = localStreamRef s.
Proof.
  intros [localStream Hs] [u Hu]. cbv zeta.
  unfold createPeerConnection, sendSignal, pc_setLocalDescription,
    pc_createOffer, new_RTCPeerConnection, engine, update.
  async_unfold. cbn. rewrite Hs, Hu. cbn.
  rewrite forEach_addTrack. cbn.
  crunch; rewrite ?length_alter, ?length_app; cbn; repeat split; try done; lia.
Qed.

Lemma createPeerConnection_guard (B : Browser) (s : Session)
    (participantUserId participantUsername : string) :
  localStreamRef s = None \/ user s = None ->
  createPeerConnection B participantUserId participantUsername s
  = (Resolved None, s).
Proof.
  intros H. unfold createPeerConnection. async_unfold.
  destruct H as [-> | H]; [done|]. rewrite H. by case_match.
Qed.

(** ** handleOffer on an existing connection *)

(** C2, as the code has it. An offer from a participant for whom a
    connection exists is applied to that connection whatever its local
    description is and whatever the two ids are: no id is compared. When
    the engine accepts the calls, the offer becomes the remote description,
    an answer replaces the local description and [sendSignal] is called
    with that answer. When the engine rejects the offer, the error is
    logged and nothing else changes. *)
Theorem handleOffer_no_tie_break (B : Browser) (s : Session)
    (fromUserId sdp : string) (localStream : list nat) (u : string)
    (o : nat) (pc : PeerConnection) :
  let d := SessionDescription offer sdp in
  let applied := with_remoteDescription d pc in
  let a := SessionDescription answer (sdpText B answer applied) in
  localStreamRef s = Some localStream ->
  user s = Some u ->
  peerConnectionsRef s !! fromUserId = Some o ->
  objects s !! o = Some pc ->
  (rejects B (setRemoteDescription d) pc = None ->
   rejects B createAnswer applied = None ->
   rejects B (setLocalDescription a) applied = None ->
   handleOffer B fromUserId d s
   = (Resolved tt,
      run (sendSignal B fromUserId "answer" a)
        (with_console
           (fun l => l ++ [console_log "Sending answer to:" fromUserId])
           (with_objects
              (alter (fun pc' => with_localDescription a (with_remoteDescription d pc')) o)
              (with_console
                 (fun l => l ++ [console_log "Handling offer from:" fromUserId])
                 s)))))
  /\ (forall err,
        rejects B (setRemoteDescription d) pc = Some err ->
        handleOffer B fromUserId d s
        = (Resolved tt,
           with_console
             (fun l => l ++ [console_log "Handling offer from:" fromUserId;
                             console_error "Error handling offer:" err]) s)).
Proof.
  cbv zeta. intros Hs Hu Hm Ho. split.
  - intros Hsr Hca Hsl.
    unfold handleOffer, pc_setRemoteDescription, pc_setLocalDescription,
      pc_createAnswer, engine, update.
    async_unfold. cbn. rewrite Hs, Hu. cbn. rewrite Hm. cbn.
    rewrite Ho, Hsr. cbn.
    rewrite list_lookup_alter_eq, Ho. cbn. rewrite Hca. cbn.
    rewrite list_lookup_alter_eq, Ho. cbn. rewrite Hsl. cbn.
    match goal with
    | |- _ = (_, (sendSignal B _ _ _ ?st2).2) =>
        match goal with
        | |- context [sendSignal B ?x ?y ?z ?st1] =>
            replace st2 with st1;
              [ pose proof (sendSignal_resolves B st1 x y z) as Hres;
                destruct (sendSignal B x y z st1) as [res st'];
                cbn in Hres; by subst res
              | ]
        end
    end.
    destruct s. session_simpl.
    f_equal. by rewrite list_alter_alter_eq.
  - intros err Hsr.
    unfold handleOffer, pc_setRemoteDescription, engine.
    async_unfold. cbn. rewrite Hs, Hu. cbn. rewrite Hm. cbn.
    rewrite Ho, Hsr. cbn. f_equal. apply with_console_app.
Qed.

Lemma handleOffer_no_tie_break_witness :
  handleOffer permissive "a" (SessionDescription offer "v=0") bob
  = (Resolved tt,
     run (sendSignal permissive "a" "answer" (SessionDescription answer "v=0"))
       (with_console (fun l => l ++ [console_log "Sending answer to:" "a"])
          (with_objects
             (alter (fun pc' =>
                       with_localDescription (SessionDescription answer "v=0")
                         (with_remoteDescription (SessionDescription offer "v=0") pc'))
                0)
             (with_console
                (fun l => l ++ [console_log "Handling offer from:" "a"]) bob)))).
Proof.
  apply (proj1 (handleOffer_no_tie_break permissive bob "a" "v=0" [0; 1] "b" 0
                  (mkPC "a" (ofCreatePeerConnection "a") [0; 1]
                     (Some (SessionDescription offer "v=0")) None [] new None)
                  ltac:(vm_compute; reflexivity) ltac:(vm_compute; reflexivity)
                  ltac:(vm_compute; reflexivity) ltac:(vm_compute; reflexivity)));
    reflexivity.
Defined.

(** C2 fails as stated. "a" and "b" have each sent the other an offer and
    each has its own offer as local description. "b", the larger id, does
    not ignore the offer of "a": it applies it, replaces its own offer by
    an answer and sends the answer. "a" does the same with the offer of
    "b". Both offers were applied, neither was discarded. *)
Lemma glare_both_sides_answer :
  let offerA := mkSignal "room" "a" "b" "offer" (SessionDescription offer "v=0") in
  let offerB := mkSignal "room" "b" "a" "offer" (SessionDescription offer "v=0") in
  let bob' := run (handleSignal permissive offerA) bob in
  let alice' := run (handleSignal permissive offerB) alice in
  String.ltb "a" "b" = true
  /\ webrtc_signals alice = [offerA]
  /\ webrtc_signals bob = [offerB]
  /\ localDescription <$> objects alice !! 0
     = Some (Some (SessionDescription offer "v=0"))
  /\ localDescription <$> objects bob !! 0
     = Some (Some (SessionDescription offer "v=0"))
  /\ objects bob'
     = [mkPC "a" (ofCreatePeerConnection "a") [0; 1]
          (Some (SessionDescription answer "v=0"))
          (Some (SessionDescription offer "v=0")) [] new None]
  /\ webrtc_signals bob'
     = [offerB;
        mkSignal "room" "b" "a" "answer" (SessionDescription answer "v=0")]
  /\ objects alice'
     = [mkPC "b" (ofCreatePeerConnection "b") [0; 1]
          (Some (SessionDescription answer "v=0"))
          (Some (SessionDescription offer "v=0")) [] new None]
  /\ webrtc_signals alice'
     = [offerA;
        mkSignal "room" "a" "b" "answer" (SessionDescription answer "v=0")].
Proof. cbv zeta. repeat split; vm_compute; reflexivity. Qed.


(** ** The participants effect *)


Lemma createPeerConnection_resolves (B : Browser) (s : Session)
    (participantUserId participantUsername : string) :
  exists r, (createPeerConnection B participantUserId participantUsername s).1
            = Resolved r.
Proof.
  unfold createPeerConnection, sendSignal, pc_setLocalDescription,
    pc_createOffer, new_RTCPeerConnection, engine, update.
  async_unfold. cbn.
  destruct (localStreamRef s) as [localStream|]; [|by eexists].
  destruct (user s); [|by eexists]. cbn.
  rewrite forEach_addTrack. cbn.
  crunch; by eexists.
Qed.

(** A [forEach] whose body always resolves is a fold. *)
Lemma forEach_foldl {A} (f : A -> Async unit) (g : Session -> A -> Session)
    (l : list A) (s : Session) :
  (forall x s', f x s' = (Resolved tt, g s' x)) ->
  forEach l f s = (Resolved tt, foldl g s l).
Proof.
  intros Hf. revert s. induction l as [|x l IH]; intros s; cbn; [done|].
  unfold mbind, Async_bind, bind. rewrite Hf. apply IH.
Qed.

Section ReconcileProofs.

Variable B : Browser.
Variable u : string.
Variable participants : list Participant.

Lemma reconcile_folds (s : Session) :
  (ready u) s ->
  reconcile B participants s
  = (Resolved tt,
     let s1 := foldl (ensure B u) s participants in
     foldl (prune u participants) s1 (map_to_list (peerConnectionsRef s1)).*1).
Proof.
  intros (Hu & Hi & Hs). unfold reconcile. async_unfold. cbn.
  rewrite Hu, Hi. rewrite bool_decide_eq_true_2 by done. cbn.
  rewrite (forEach_foldl _ (ensure B u)).
  - apply forEach_foldl. intros userId s'. unfold prune.
    destruct (decide (userId ≠ u /\ userId ∉ user_id <$> participants))
      as [[H1 H2]|Hn].
    + by rewrite !bool_decide_eq_true_2 by done.
    + destruct (bool_decide (userId ≠ u)) eqn:E1,
        (bool_decide (userId ∉ user_id <$> participants)) eqn:E2; cbn;
        try done.
      apply bool_decide_eq_true in E1, E2. tauto.
  - intros p s'. unfold ensure, run.
    destruct (decide (user_id p ≠ u /\ peerConnectionsRef s' !! user_id p = None))
      as [[H1 H2]|Hn].
    + rewrite !bool_decide_eq_true_2 by done. cbn.
      destruct (createPeerConnection_resolves B s' (user_id p) (username p))
        as [r Hr].
      destruct (createPeerConnection B (user_id p) (username p) s') as [c s''].
      cbn in Hr. by subst c.
    + destruct (bool_decide (user_id p ≠ u)) eqn:E1,
        (bool_decide (peerConnectionsRef s' !! user_id p = None)) eqn:E2; cbn;
        try done.
      apply bool_decide_eq_true in E1, E2. tauto.
Qed.

Lemma ensure_ready (s : Session) (p : Participant) : (ready u) s -> (ready u) ((ensure B u) s p).
Proof.
  intros (Hu & Hi & Hs). unfold ensure. case_decide; [|done].
  destruct (createPeerConnection_refs B s (user_id p) (username p))
    as (_ & _ & Hu' & Hi' & Hs'); [done|by rewrite Hu|].
  unfold ready. by rewrite Hu', Hi', Hs'.
Qed.

Lemma ensure_lookup (s : Session) (p : Participant) (userId : string) :
  (ready u) s ->
  peerConnectionsRef ((ensure B u) s p) !! userId
  = match peerConnectionsRef s !! userId with
    | Some o => Some o
    | None => if decide (userId = user_id p /\ userId ≠ u)
              then Some (length (objects s)) else None
    end.
Proof.
  intros (Hu & Hi & Hs). unfold ensure. case_decide as Hc.
  - destruct (createPeerConnection_refs B s (user_id p) (username p))
      as (Hm & _); [done|by rewrite Hu|]. cbv zeta in Hm. rewrite Hm.
    destruct Hc as [Hne Hnone].
    destruct (decide (userId = user_id p)) as [->|Hne'].
    + rewrite lookup_insert_eq, Hnone. by rewrite decide_True.
    + rewrite lookup_insert_ne by done.
      destruct (peerConnectionsRef s !! userId); [done|].
      by rewrite decide_False by tauto.
  - destruct (peerConnectionsRef s !! userId) eqn:E; [done|].
    case_decide as Hd; [|done]. destruct Hd as [-> Hne]. tauto.
Qed.

Lemma foldl_ensure_ready (l : list Participant) (s : Session) :
  (ready u) s -> (ready u) (foldl (ensure B u) s l).
Proof.
  revert s. induction l as [|p l IH]; intros s Hr; cbn; [done|].
  apply IH, ensure_ready, Hr.
Qed.

Lemma foldl_ensure_kept (l : list Participant) (s : Session) (userId : string) (o : nat) :
  (ready u) s ->
  peerConnectionsRef s !! userId = Some o ->
  peerConnectionsRef (foldl (ensure B u) s l) !! userId = Some o.
Proof.
  revert s. induction l as [|p l IH]; intros s Hr Hm; cbn; [done|].
  apply IH; [by apply ensure_ready|]. by rewrite ensure_lookup, Hm.
Qed.

Lemma foldl_ensure_dom (l : list Participant) (s : Session) (userId : string) :
  (ready u) s ->
  is_Some (peerConnectionsRef (foldl (ensure B u) s l) !! userId)
  <-> is_Some (peerConnectionsRef s !! userId)
      \/ (userId ≠ u /\ userId ∈ user_id <$> l).
Proof.
  revert s. induction l as [|p l IH]; intros s Hr; cbn.
  - rewrite elem_of_nil. tauto.
  - rewrite IH by by apply ensure_ready. rewrite ensure_lookup by done.
    rewrite elem_of_cons.
    destruct (peerConnectionsRef s !! userId) as [o|].
    + split; intros _; left; by eexists.
    + case_decide as Hd.
      * split; intros _; [right; tauto|left; by eexists].
      * split; intros [[? [=]]|H]; right; tauto.
Qed.

Lemma foldl_prune_lookup (keys : list string) (s : Session) (userId : string) :
  peerConnectionsRef (foldl (prune u participants) s keys) !! userId
  = if decide (userId ∈ keys /\ userId ≠ u /\ userId ∉ user_id <$> participants)
    then None else peerConnectionsRef s !! userId.
Proof.
  revert s. induction keys as [|k keys IH]; intros s; cbn.
  - rewrite decide_False; [done|]. rewrite elem_of_nil. tauto.
  - rewrite IH. unfold prune.
    destruct (decide (userId ∈ keys ∧ userId ≠ u ∧ userId ∉ user_id <$> participants))
      as [Hd|Hd].
    + rewrite decide_True; [done|]. rewrite elem_of_cons. tauto.
    + destruct (decide (k ≠ u /\ k ∉ user_id <$> participants)) as [Hk|Hk].
      * rewrite closePeerConnection_map.
        destruct (decide (userId = k)) as [->|Hne].
        -- rewrite lookup_delete_eq. rewrite decide_True; [done|].
           rewrite elem_of_cons. tauto.
        -- rewrite lookup_delete_ne by done.
           rewrite decide_False; [done|]. rewrite elem_of_cons.
           intros ([?|?] & ? & ?); [congruence|tauto].
      * rewrite decide_False; [done|]. rewrite elem_of_cons.
        intros ([->|?] & ? & ?); tauto.
Qed.


Lemma prune_ready (s : Session) (userId : string) : (ready u) s -> (ready u) ((prune u participants) s userId).
Proof.
  intros (Hu & Hi & Hs). unfold prune. case_decide; [|done].
  unfold ready, closePeerConnection. by case_match.
Qed.

Lemma foldl_prune_ready (keys : list string) (s : Session) :
  (ready u) s -> (ready u) (foldl (prune u participants) s keys).
Proof.
  revert s. induction keys as [|k keys IH]; intros s Hr; cbn; [done|].
  apply IH, prune_ready, Hr.
Qed.

Lemma keys_spec (m : gmap string nat) (userId : string) :
  userId ∈ (map_to_list m).*1 <-> is_Some (m !! userId).
Proof.
  rewrite list_elem_of_fmap. split.
  - intros ([k o] & -> & Hin). apply elem_of_map_to_list in Hin. by eexists.
  - intros [o Ho]. exists (userId, o). split; [done|].
    by apply elem_of_map_to_list.
Qed.

Lemma foldl_fixpoint {A} (g : Session -> A -> Session) (l : list A) (s : Session) :
  (forall x, x ∈ l -> g s x = s) -> foldl g s l = s.
Proof.
  induction l as [|x l IH]; intros H; cbn; [done|].
  rewrite (H x) by apply list_elem_of_here.
  apply IH. intros y Hy. apply H. by apply list_elem_of_further.
Qed.

Lemma reconcile_ready (s : Session) :
  (ready u) s -> (ready u) (run (reconcile B participants) s).
Proof.
  intros Hr. unfold run. rewrite reconcile_folds by done. cbn.
  by apply foldl_prune_ready, foldl_ensure_ready.
Qed.

(** After the effect, seen from the map. *)
Lemma reconcile_lookup (s : Session) (userId : string) :
  (ready u) s ->
  peerConnectionsRef (run (reconcile B participants) s) !! userId
  = if decide (userId ≠ u /\ userId ∉ user_id <$> participants)
    then None
    else peerConnectionsRef (foldl (ensure B u) s participants) !! userId.
Proof.
  intros Hr. unfold run. rewrite reconcile_folds by done. cbn.
  rewrite foldl_prune_lookup.
  destruct (decide (userId ≠ u /\ userId ∉ user_id <$> participants)) as [Hd|Hd].
  - destruct (decide (userId ∈ (map_to_list
        (peerConnectionsRef (foldl (ensure B u) s participants))).*1)) as [Hk|Hk].
    + by rewrite decide_True.
    + rewrite decide_False by tauto.
      rewrite keys_spec in Hk. symmetry. by apply eq_None_not_Some in Hk.
  - by rewrite decide_False by tauto.
Qed.

(** A map that already matches the participants is left as it is, and so
    is the rest of the session: nothing is constructed, nothing is closed. *)
Lemma reconcile_fixpoint (s : Session) :
  (ready u) s ->
  (forall userId, userId ≠ u ->
     (is_Some (peerConnectionsRef s !! userId)
      <-> userId ∈ user_id <$> participants)) ->
  run (reconcile B participants) s = s.
Proof.
  intros Hr Hmesh. unfold run. rewrite reconcile_folds by done. cbn.
  assert (foldl (ensure B u) s participants = s) as ->.
  { apply foldl_fixpoint. intros p Hp. unfold ensure.
    rewrite decide_False; [done|]. intros [Hne Hnone].
    assert (is_Some (peerConnectionsRef s !! user_id p)) as [o Ho].
    { apply Hmesh; [done|]. by apply list_elem_of_fmap_2. }
    congruence. }
  apply foldl_fixpoint. intros k Hk. unfold prune.
  rewrite decide_False; [done|]. intros [Hne Hnin].
  apply keys_spec in Hk. apply Hnin. by apply Hmesh.
Qed.

End ReconcileProofs.

(** C4, as the code has it. Once the session is initialized, holds a
    local stream and has a user, then after every run of the participants
    effect, whatever runs came before and with whatever duplicates or order
    in the lists, [peerConnectionsRef] has an entry for a participant other
    than the user exactly when that participant is in the current list. An
    entry that was there for a listed participant is kept with its object,
    so no second object is constructed for it; the user's own id is never
    added or removed; and a second run on the same list changes nothing in
    the session. *)
Theorem reconcile_mesh (B : Browser) (s : Session) (u : string)
    (history : list (list Participant)) (participants : list Participant) :
  user s = Some u ->
  isInitializedRef s = true ->
  is_Some (localStreamRef s) ->
  let before := foldl (fun s' ps => run (reconcile B ps) s') s history in
  let after := run (reconcile B participants) before in
  (forall userId, userId ≠ u ->
     (is_Some (peerConnectionsRef after !! userId)
      <-> userId ∈ user_id <$> participants))
  /\ (forall userId o,
        peerConnectionsRef before !! userId = Some o ->
        userId = u \/ userId ∈ user_id <$> participants ->
        peerConnectionsRef after !! userId = Some o)
  /\ peerConnectionsRef after !! u = peerConnectionsRef before !! u
  /\ run (reconcile B participants) after = after.
Proof.
  intros Hu Hi Hs before after.
  assert (Hb : ready u before).
  { subst before. assert (Hr : ready u s) by done. clear Hu Hi Hs after.
    revert s Hr. induction history as [|ps history IH]; intros s Hr; cbn; [done|].
    by apply IH, reconcile_ready. }
  assert (Hmesh : forall userId, userId ≠ u ->
     (is_Some (peerConnectionsRef after !! userId)
      <-> userId ∈ user_id <$> participants)).
  { intros userId Hne. subst after. rewrite (reconcile_lookup _ u) by done.
    destruct (decide (userId ∈ user_id <$> participants)) as [Hin|Hnin].
    - rewrite decide_False by tauto. rewrite (foldl_ensure_dom _ u) by done. tauto.
    - rewrite decide_True by done. split; [by intros [? [=]]|done]. }
  split; [exact Hmesh|]. split; [|split].
  - intros userId o Ho Hin. subst after. rewrite (reconcile_lookup _ u) by done.
    rewrite decide_False by tauto. by apply (foldl_ensure_kept _ u).
  - subst after. rewrite (reconcile_lookup _ u) by done.
    rewrite decide_False by tauto.
    destruct (peerConnectionsRef before !! u) as [o|] eqn:E.
    + by apply (foldl_ensure_kept _ u).
    + apply eq_None_not_Some. rewrite (foldl_ensure_dom _ u) by done.
      rewrite E. intros [[? [=]]|[? _]]; done.
  - apply (reconcile_fixpoint _ u); [|done]. by apply reconcile_ready.
Qed.

Lemma reconcile_mesh_witness :
  let after :=
    run (reconcile permissive [member "c"; member "a"; member "c"])
      (foldl (fun s' ps => run (reconcile permissive ps) s') (started "room" "a")
         [[member "a"; member "b"]; [member "b"; member "a"; member "b"]]) in
  is_Some (peerConnectionsRef after !! "c")
  /\ ~ is_Some (peerConnectionsRef after !! "b").
Proof.
  cbv zeta.
  pose proof (reconcile_mesh permissive (started "room" "a") "a"
                [[member "a"; member "b"]; [member "b"; member "a"; member "b"]]
                [member "c"; member "a"; member "c"]
                eq_refl eq_refl (ex_intro _ [0; 1] eq_refl)) as (Hmesh & _).
  split.
  - apply Hmesh; [done|]. apply list_elem_of_here.
  - intros Hb. apply Hmesh in Hb; [|done].
    apply list_elem_of_fmap in Hb as (p & Hp & Hin).
    repeat (apply elem_of_cons in Hin as [-> | Hin]; [discriminate Hp|]).
    by apply elem_of_nil in Hin.
Defined.

(** C4 fails as stated. "b" is in the room with "a". The effect that runs
    for "a" before [initializeRoom] has finished returns at its guard, and
    so does every run of it in a session whose [getUserMedia] was refused:
    the map has no connection for "b". *)
Lemma reconcile_skipped_at_guard :
  let present := [member "a"; member "b"] in
  "b" ∈ user_id <$> present
  /\ "b" ≠ "a"
  /\ run (reconcile permissive present) (mounted "room" "a") = mounted "room" "a"
  /\ peerConnectionsRef (mounted "room" "a") !! "b" = None
  /\ isInitializedRef receiveOnly = true
  /\ run (reconcile denied present) receiveOnly = receiveOnly
  /\ peerConnectionsRef receiveOnly !! "b" = None.
Proof.
  cbv zeta. repeat split; try (vm_compute; reflexivity); try done.
  apply list_elem_of_further, list_elem_of_here.
Qed.

(** ** Every kind of update keeps the invariants *)

Lemma construct_objects (userId : string) (h : Handlers) (localStream : list nat)
    (s : Session) :
  objects (construct userId h localStream s)
  = objects s ++ [mkPC userId h localStream None None [] new None].
Proof. unfold construct. cbn. by rewrite alter_last. Qed.

Lemma Inv_entry_inj (s : Session) (userId userId' : string) (o : nat) :
  Inv s ->
  peerConnectionsRef s !! userId = Some o ->
  peerConnectionsRef s !! userId' = Some o ->
  userId = userId'.
Proof.
  intros HI H1 H2.
  destruct (inv_entry s HI _ _ H1) as (pc & Ho & <- & _).
  destruct (inv_entry s HI _ _ H2) as (pc' & Ho' & <- & _).
  congruence.
Qed.

Lemma Update_remoteUser pc pc' : Update pc pc' -> remoteUser pc' = remoteUser pc.
Proof. by intros []. Qed.

Lemma Update_open pc pc' :
  Update pc pc' -> connectionState pc ≠ closed -> connectionState pc' ≠ closed.
Proof. by intros []. Qed.

Lemma Update_candidates pc pc' :
  Update pc pc' ->
  (iceCandidates pc ≠ [] -> is_Some (remoteDescription pc)) ->
  iceCandidates pc' ≠ [] -> is_Some (remoteDescription pc').
Proof. intros [d|d|c Hsome|st Hst|m]; cbn; eauto. Qed.

Lemma Step_Inv (s s' : Session) : Inv s -> Step s s' -> Inv s'.
Proof.
  intros HI Hst. destruct Hst as
    [s' (Hr & Hu & Ho & Hm & Hw & Ht) | row Hr Hu Hty | userId h ls Hnone
    | o pc f Htr Ho Hup | userId o Hm | t Ht | i ].
  - destruct HI as [I1 I2 I3 I4 I5]. unfold tracked in *.
    split; rewrite ?Hr, ?Hu, ?Ho, ?Hm, ?Hw, ?Ht; auto.
    intros o pc H1 H2. destruct (I2 o pc H1 H2) as [x Hx].
    exists x. by rewrite Hm.
  - destruct HI as [I1 I2 I3 I4 I5]. split; cbn; auto.
    intros row' [Hin | ->%list_elem_of_singleton]%elem_of_app; auto.
  - destruct HI as [I1 I2 I3 I4 I5]. split; auto.
    + intros userId' o. rewrite construct_objects. unfold construct. cbn.
      destruct (decide (userId = userId')) as [<-|Hne].
      * rewrite lookup_insert_eq. intros [= <-]. rewrite lookup_snoc.
        eexists. by repeat split.
      * rewrite lookup_insert_ne by done. intros Hm.
        destruct (I1 _ _ Hm) as (pc & Ho & Hru & Hcs).
        exists pc. rewrite lookup_app_l by (by eapply lookup_lt_Some). done.
    + intros o pc. rewrite construct_objects.
      intros Ho Hcs. unfold tracked, construct. cbn.
      destruct (decide (o < length (objects s))) as [Hlt|Hge].
      * rewrite lookup_app_l in Ho by done.
        destruct (I2 o pc Ho Hcs) as [x Hx]. exists x.
        rewrite lookup_insert_ne; [done|]. intros ->. congruence.
      * exists userId. rewrite lookup_insert_eq. f_equal.
        apply lookup_lt_Some in Ho. rewrite length_app in Ho. cbn in Ho. lia.
    + intros o pc. rewrite construct_objects. intros Ho.
      destruct (decide (o < length (objects s))) as [Hlt|Hge].
      * rewrite lookup_app_l in Ho by done. eauto.
      * rewrite lookup_app_r in Ho by lia.
        destruct (o - length (objects s)); cbn in Ho; [|done].
        injection Ho as <-. done.
  - destruct HI as [I1 I2 I3 I4 I5]. split; cbn; auto.
    + intros userId o' Hm. destruct (I1 _ _ Hm) as (pc' & Ho' & Hru & Hcs).
      destruct (decide (o = o')) as [<-|Hne].
      * rewrite list_lookup_alter_eq, Ho. cbn. eexists. split; [done|].
        assert (pc' = pc) as -> by congruence.
        split; [by rewrite (Update_remoteUser _ _ Hup)|].
        by apply (Update_open _ _ Hup).
      * rewrite list_lookup_alter_ne by done. eauto.
    + intros o' pc'. destruct (decide (o = o')) as [<-|Hne].
      * intros _ _. exact Htr.
      * rewrite list_lookup_alter_ne by done. apply I2.
    + intros o' pc'. destruct (decide (o = o')) as [<-|Hne].
      * rewrite list_lookup_alter_eq, Ho. cbn. intros [= <-].
        apply (Update_candidates _ _ Hup), (I3 o pc Ho).
      * rewrite list_lookup_alter_ne by done. apply I3.
  - destruct HI as [I1 I2 I3 I4 I5].
    assert (Hinj : forall userId' o', peerConnectionsRef s !! userId' = Some o' ->
                     userId' ≠ userId -> o' ≠ o).
    { intros userId' o' Hm' Hne ->.
      destruct (I1 _ _ Hm) as (pc & Ho & <- & _).
      destruct (I1 _ _ Hm') as (pc' & Ho' & <- & _). congruence. }
    split; cbn; auto.
    + intros userId' o'. destruct (decide (userId = userId')) as [<-|Hne].
      * by rewrite lookup_delete_eq.
      * rewrite lookup_delete_ne by done. intros Hm'.
        rewrite list_lookup_alter_ne by (by eapply not_eq_sym, Hinj).
        by apply I1.
    + intros o' pc'. unfold tracked. cbn.
      destruct (decide (o = o')) as [<-|Hne].
      * rewrite list_lookup_alter_eq. destruct (objects s !! o); [|done].
        cbn. by intros [= <-].
      * rewrite list_lookup_alter_ne by done. intros Ho' Hcs.
        destruct (I2 _ _ Ho' Hcs) as [userId' Hm']. exists userId'.
        rewrite lookup_delete_ne; [done|]. intros <-. congruence.
    + intros o' pc'. destruct (decide (o = o')) as [<-|Hne].
      * rewrite list_lookup_alter_eq.
        destruct (objects s !! o) as [pc|] eqn:Ho; [|done].
        cbn. intros [= <-]. cbn. by apply (I3 o).
      * rewrite list_lookup_alter_ne by done. apply I3.
  - destruct HI as [I1 I2 I3 I4 I5]. split; cbn; auto.
    intros t' [Hin | ->%list_elem_of_singleton]%elem_of_app; auto.
  - destruct HI as [I1 I2 I3 I4 I5]. split; cbn; auto.
    intros t Hin. apply I5. by eapply list_elem_of_delete_inv.
Qed.

Lemma rtc_Step_Inv (s s' : Session) : Inv s -> rtc Step s s' -> Inv s'.
Proof. intros HI H. induction H; eauto using Step_Inv. Qed.


(** ** Every handler is a sequence of atomic transitions *)

Lemma Step_construct' (s x : Session) (userId : string) (h : Handlers)
    (localStream : list nat) :
  rtc Step s x ->
  peerConnectionsRef x !! userId = None ->
  rtc Step s (construct userId h localStream x).
Proof. intros H Hn. apply (rtc_r _ x); [exact H|]. by apply step_construct. Qed.

Ltac tracked_tac :=
  unfold tracked; cbn;
  first [ eexists; eassumption
        | eexists; apply lookup_insert_eq
        | eassumption ].

Lemma rtc_trans (s y x : Session) : rtc Step s y -> rtc Step y x -> rtc Step s x.
Proof. intros. by etrans. Qed.

Ltac typed_tac :=
  first [ match goal with H : forall r u, typed _ |- _ => apply H end
        | intros; cbn; done ].

Ltac update_tac :=
  constructor;
  first [ done
        | match goal with
          | H : bool_decide _ = true |- _ =>
              apply bool_decide_eq_true in H; exact H
          end ].

Ltac peel :=
  match goal with
  | |- rtc Step ?s ?s => apply rtc_refl
  | H : rtc Step ?s ?x |- rtc Step ?s ?x => exact H
  | H : rtc Step ?y ?x |- rtc Step ?s ?x => apply (rtc_trans s y x); [peel | exact H]
  | |- rtc Step ?s (with_console _ ?x) =>
      apply (rtc_r _ x); [peel | apply step_other; unfold same_core; by repeat split]
  | |- rtc Step ?s (with_remoteVideosRef _ ?x) =>
      apply (rtc_r _ x); [peel | apply step_other; unfold same_core; by repeat split]
  | |- rtc Step ?s (with_webrtc_signals _ ?x) =>
      apply (rtc_r _ x); [peel | apply step_row; [cbn; eassumption | cbn; eassumption | typed_tac]]
  | |- rtc Step ?s (with_peerConnectionsRef <[?id := _]>
                      (with_objects (alter (with_senders (fun l => l ++ ?ls)) _)
                         (with_objects (fun l' => l' ++ [mkPC ?id ?h _ _ _ _ _ _]) ?x))) =>
      apply (Step_construct' s x id h ls); [peel | cbn; try eassumption]
  | |- rtc Step ?s (with_peerConnectionsRef (delete _)
                      (with_objects (alter pc_close _) ?x)) =>
      apply (rtc_r _ x); [peel | apply step_close; cbn; try eassumption]
  | |- rtc Step ?s (with_objects (alter _ _) ?x) =>
      apply (rtc_r _ x);
        [peel | eapply step_update;
                  [tracked_tac | cbn; eassumption | update_tac]]
  | |- rtc Step ?s (with_timers (delete _) ?x) =>
      apply (rtc_r _ x); [peel | apply step_expire]
  | |- rtc Step ?s (with_timers _ ?x) =>
      apply (rtc_r _ x); [peel | by apply step_timer]
  end.

Lemma sendSignal_steps (B : Browser) (s : Session)
    (toUserId signalType : string) (signalData : SignalData) :
  (forall r u, typed (mkSignal r u toUserId signalType signalData)) ->
  rtc Step s (sendSignal B toUserId signalType signalData s).2.
Proof.
  intros Hty. unfold sendSignal. async_unfold.
  crunch; peel.
Qed.

Lemma closePeerConnection_steps (s : Session) (userId : string) :
  rtc Step s (closePeerConnection userId s).
Proof. unfold closePeerConnection. case_match; peel. Qed.

Lemma handleAnswer_steps (B : Browser) (s : Session) (fromUserId : string)
    (a : SignalData) :
  rtc Step s (run (handleAnswer B fromUserId a) s).
Proof.
  unfold handleAnswer, pc_setRemoteDescription, engine, update.
  async_unfold. cbn.
  crunch; peel.
Qed.


Lemma typed_offer (B : Browser) (pc : PeerConnection) (toUserId : string) :
  forall r u, typed (mkSignal r u toUserId "offer"
                       (SessionDescription offer (sdpText B offer pc))).
Proof. done. Qed.

Lemma typed_answer (B : Browser) (pc : PeerConnection) (toUserId : string) :
  forall r u, typed (mkSignal r u toUserId "answer"
                       (SessionDescription answer (sdpText B answer pc))).
Proof. done. Qed.

Lemma typed_candidate (c toUserId : string) :
  forall r u, typed (mkSignal r u toUserId "ice-candidate" (IceCandidateInit c)).
Proof. done. Qed.

(** Records what a [sendSignal] that was run did. *)
Ltac send_tac B :=
  repeat match goal with
  | H : sendSignal B ?a ?b ?c ?st = (_, ?x) |- _ =>
      assert (rtc Step st x)
        by (replace x with (sendSignal B a b c st).2 by (by rewrite H);
            apply sendSignal_steps;
            first [apply typed_offer | apply typed_answer | apply typed_candidate]);
      clear H
  end.

Lemma handleIceCandidate_steps (B : Browser) (s : Session) (fromUserId : string)
    (c : SignalData) :
  rtc Step s (run (handleIceCandidate B fromUserId c) s).
Proof.
  unfold handleIceCandidate, pc_addIceCandidate, hasRemoteDescription, engine,
    update.
  async_unfold. cbn.
  crunch; peel.
Qed.

Lemma handleOffer_steps (B : Browser) (s : Session) (fromUserId : string)
    (d : SignalData) :
  rtc Step s (run (handleOffer B fromUserId d) s).
Proof.
  unfold handleOffer, pc_setRemoteDescription, pc_setLocalDescription,
    pc_createAnswer, new_RTCPeerConnection, engine, update.
  async_unfold. cbn.
  destruct (localStreamRef s) as [localStream|]; [|apply rtc_refl].
  destruct (user s); [|apply rtc_refl]. cbn.
  destruct (peerConnectionsRef s !! fromUserId) as [o|] eqn:Hm; cbn.
  - crunch; send_tac B; peel.
  - rewrite forEach_addTrack. cbn.
    crunch; send_tac B; peel.
Qed.

Lemma createPeerConnection_steps (B : Browser) (s : Session)
    (participantUserId participantUsername : string) :
  peerConnectionsRef s !! participantUserId = None ->
  rtc Step s (run (createPeerConnection B participantUserId participantUsername) s).
Proof.
  intros Hm.
  unfold createPeerConnection, pc_setLocalDescription, pc_createOffer,
    new_RTCPeerConnection, engine, update.
  async_unfold. cbn.
  destruct (localStreamRef s) as [localStream|]; [|apply rtc_refl].
  destruct (user s); [|apply rtc_refl]. cbn.
  rewrite forEach_addTrack. cbn.
  crunch; send_tac B; peel.
Qed.

Lemma handleSignal_steps (B : Browser) (s : Session) (signal : Signal) :
  rtc Step s (run (handleSignal B signal) s).
Proof.
  unfold handleSignal, run, mbind, Async_bind, bind, emit, modify.
  set (s1 := with_console _ s).
  assert (H1 : rtc Step s s1) by (subst s1; peel).
  clearbody s1. cbn.
  repeat case_bool_decide; (etrans; [exact H1|]).
  - apply handleOffer_steps.
  - apply handleAnswer_steps.
  - apply handleIceCandidate_steps.
  - apply rtc_refl.
Qed.

Lemma onconnectionstatechange_steps (s : Session) (o : nat)
    (st : RTCPeerConnectionState) :
  tracked s o -> is_Some (objects s !! o) -> st ≠ closed ->
  rtc Step s (run (onconnectionstatechange o st) s).
Proof.
  intros Htr [pc Ho] Hst. unfold onconnectionstatechange, update.
  async_unfold. cbn.
  crunch; peel.
Qed.

Lemma ontrack_steps (s : Session) (o : nat) (k : TrackKind)
    (streams : list nat) :
  tracked s o ->
  rtc Step s (run (ontrack o k streams) s).
Proof.
  intros Htr. unfold ontrack, update. async_unfold. cbn.
  crunch; peel.
Qed.

Lemma onicecandidate_steps (B : Browser) (s : Session) (o : nat)
    (candidate : option string) :
  rtc Step s (run (onicecandidate B o candidate) s).
Proof.
  unfold onicecandidate. async_unfold. cbn.
  crunch; try peel.
  apply (rtc_trans s (with_console
    (fun l => l ++ [console_log "Sending ICE candidate to:" (remoteUser p)]) s));
    [peel | apply sendSignal_steps, typed_candidate].
Qed.

Lemma timeout_steps (B : Browser) (s : Session) (i : nat) :
  rtc Step s (run (timeout B i) s).
Proof.
  unfold timeout, reconnect, run, mbind, Async_bind, bind, get, modify, mret,
    Async_ret, ret.
  destruct (timers s !! i) as [t|]; cbn; [|apply rtc_refl].
  case_bool_decide; cbn; [|peel].
  match goal with
  | |- context [createPeerConnection B ?a ?b ?x] =>
      assert (rtc Step x (run (createPeerConnection B a b) x)) as Hc
        by (apply createPeerConnection_steps; rewrite closePeerConnection_lookup;
            done);
      assert (rtc Step s x) as Hx
  end.
  { etrans; [|apply closePeerConnection_steps]. peel. }
  unfold run in Hc.
  destruct (createPeerConnection B _ _ _) as [[r|err] s']; cbn in *; by etrans.
Qed.


Lemma foldl_steps {A} (g : Session -> A -> Session) (l : list A) (s : Session) :
  (forall s' x, rtc Step s' (g s' x)) -> rtc Step s (foldl g s l).
Proof.
  intros Hg. revert s. induction l as [|x l IH]; intros s; cbn; [apply rtc_refl|].
  etrans; [apply Hg|apply IH].
Qed.

Lemma reconcile_guard (B : Browser) (participants : list Participant) (s : Session) :
  user s = None \/ isInitializedRef s = false \/ localStreamRef s = None ->
  run (reconcile B participants) s = s.
Proof.
  intros H. unfold reconcile. async_unfold. cbn.
  destruct (user s); [|done].
  destruct H as [H|[H|H]]; [done| |]; rewrite H; [done|].
  by rewrite andb_false_r.
Qed.

Lemma reconcile_steps (B : Browser) (participants : list Participant) (s : Session) :
  rtc Step s (run (reconcile B participants) s).
Proof.
  destruct (user s) as [u|] eqn:Hu;
    [|rewrite reconcile_guard by auto; apply rtc_refl].
  destruct (isInitializedRef s) eqn:Hi;
    [|rewrite reconcile_guard by auto; apply rtc_refl].
  destruct (localStreamRef s) as [localStream|] eqn:Hs;
    [|rewrite reconcile_guard by auto; apply rtc_refl].
  unfold run. rewrite (reconcile_folds B u) by (by repeat split). cbn.
  etrans; [apply (foldl_steps (ensure B u))|apply (foldl_steps (prune u participants))].
  - intros s' p. unfold ensure. case_decide as Hd; [|apply rtc_refl].
    apply createPeerConnection_steps. tauto.
  - intros s' k. unfold prune. case_decide; [|apply rtc_refl].
    apply closePeerConnection_steps.
Qed.

Lemma isOpen_true (s : Session) (o : nat) :
  isOpen s o = true ->
  exists pc, objects s !! o = Some pc /\ connectionState pc ≠ closed.
Proof.
  unfold isOpen. destruct (objects s !! o) as [pc|]; [|done].
  intros H%bool_decide_eq_true. eauto.
Qed.

Lemma initializeSession_core (B : Browser) (audioOn videoOn : bool)
    (s : Session) :
  same_core s (initializeSession B audioOn videoOn s).
Proof.
  unfold initializeSession, setupSignalingChannel, initializeLocalStream.
  async_unfold. cbn. unfold same_core.
  crunch; by repeat split.
Qed.

Lemma handleToggleAudio_core (s : Session) : same_core s (handleToggleAudio s).
Proof. unfold handleToggleAudio, same_core. by repeat case_match. Qed.

Lemma handleToggleVideo_core (s : Session) : same_core s (handleToggleVideo s).
Proof. unfold handleToggleVideo, same_core. by repeat case_match. Qed.

Lemma cleanup_Inv (s : Session) : Inv s -> Inv (cleanup s).
Proof.
  intros [I1 I2 I3 I4 I5]. rewrite cleanup_eq. split; cbn; auto.
  - intros userId o. by rewrite lookup_empty.
  - intros o pc. rewrite foldl_alter_lookup by done.
    case_decide as Hin.
    + destruct (objects s !! o); [|done]. cbn. by intros [= <-].
    + intros Ho Hcs. destruct (I2 o pc Ho Hcs) as [userId Hm].
      destruct Hin. apply list_elem_of_fmap. exists (userId, o).
      split; [done|]. by apply elem_of_map_to_list.
  - intros o pc. rewrite foldl_alter_lookup by done.
    case_decide as Hin; [|apply I3].
    destruct (objects s !! o) as [pc0|] eqn:Ho; [|done]. cbn.
    intros [= <-]. cbn. by apply (I3 o).
Qed.

Lemma dispatch_Inv (B : Browser) (e : Event) (s : Session) :
  Inv s -> Inv (dispatch B e s).
Proof.
  intros HI.
  destruct e as [signal|participants|i|o st|o k streams|o candidate| | |a v|];
    cbn;
    try (apply cleanup_Inv, HI).
  - eapply rtc_Step_Inv, handleSignal_steps; done.
  - eapply rtc_Step_Inv, reconcile_steps; done.
  - eapply rtc_Step_Inv, timeout_steps; done.
  - destruct (isOpen s o) eqn:Hopen; [|done]. cbn.
    case_bool_decide; [|done].
    apply isOpen_true in Hopen as (pc & Ho & Hcs).
    eapply rtc_Step_Inv, onconnectionstatechange_steps; eauto using inv_tracked.
  - destruct (isOpen s o) eqn:Hopen; [|done].
    apply isOpen_true in Hopen as (pc & Ho & Hcs).
    eapply rtc_Step_Inv, ontrack_steps; eauto using inv_tracked.
  - destruct (isOpen s o) eqn:Hopen; [|done].
    eapply rtc_Step_Inv, onicecandidate_steps; done.
  - eapply Step_Inv; [done|]. apply step_other, handleToggleAudio_core.
  - eapply Step_Inv; [done|]. apply step_other, handleToggleVideo_core.
  - eapply Step_Inv; [done|]. apply step_other, initializeSession_core.
Qed.

Lemma replay_Inv (B : Browser) (events : list Event) (s : Session) :
  Inv s -> Inv (replay B events s).
Proof.
  unfold replay. revert s.
  induction events as [|e events IH]; intros s HI; cbn; [done|].
  by apply IH, dispatch_Inv.
Qed.

(** A session with no connection, no row and no timer yet. *)
Lemma blank_Inv (s : Session) :
  objects s = [] -> peerConnectionsRef s = ∅ ->
  webrtc_signals s = [] -> timers s = [] -> Inv s.
Proof.
  intros Ho Hm Hw Ht. split.
  - intros userId o. by rewrite Hm, lookup_empty.
  - intros o pc. by rewrite Ho.
  - intros o pc. by rewrite Ho.
  - intros row. rewrite Hw. by intros ?%elem_of_nil.
  - intros t. rewrite Ht. by intros ?%elem_of_nil.
Qed.


(** ** What every later state keeps of a connection object *)

Lemma extends_refl (pc : PeerConnection) : extends pc pc.
Proof. by repeat split. Qed.

Lemma extends_trans (pc1 pc2 pc3 : PeerConnection) :
  extends pc1 pc2 -> extends pc2 pc3 -> extends pc1 pc3.
Proof.
  intros (H1 & H2 & H3 & H4 & H5 & H6) (K1 & K2 & K3 & K4 & K5 & K6).
  repeat split; try congruence; auto.
  - by etrans.
  - intros Hc. rewrite K6; [by apply H6|]. by rewrite H6.
Qed.

Lemma Update_extends (pc pc' : PeerConnection) :
  connectionState pc ≠ closed -> Update pc pc' -> extends pc pc'.
Proof.
  intros Hopen [d|d|c Hsome|st Hst|m]; repeat split; cbn; try done; eauto.
  by apply prefix_app_r.
Qed.

Lemma pc_close_extends (pc : PeerConnection) :
  connectionState pc ≠ closed -> extends pc (pc_close pc).
Proof. intros Hopen. by repeat split. Qed.

Lemma extended_refl (s : Session) : extended s s.
Proof. intros o pc Ho. eauto using extends_refl. Qed.

Lemma extended_trans (s1 s2 s3 : Session) :
  extended s1 s2 -> extended s2 s3 -> extended s1 s3.
Proof.
  intros H12 H23 o pc Ho. destruct (H12 o pc Ho) as (pc2 & Ho2 & He2).
  destruct (H23 o pc2 Ho2) as (pc3 & Ho3 & He3).
  eauto using extends_trans.
Qed.

Lemma same_objects_extended (s s' : Session) :
  objects s' = objects s -> extended s s'.
Proof. intros H o pc Ho. rewrite H. eauto using extends_refl. Qed.

Lemma Step_extended (s s' : Session) : Inv s -> Step s s' -> extended s s'.
Proof.
  intros HI Hst. destruct Hst as
    [s' (Hr & Hu & Ho & Hm & Hw & Ht) | row Hr Hu Hty | userId h ls Hnone
    | o pc f Htr Ho Hup | userId o Hm | t Ht | i ];
    try (by apply same_objects_extended).
  - intros o pc Ho. rewrite construct_objects.
    rewrite lookup_app_l by (by eapply lookup_lt_Some).
    eauto using extends_refl.
  - intros o' pc' Ho'. cbn. destruct (decide (o = o')) as [<-|Hne].
    + rewrite list_lookup_alter_eq, Ho. cbn. eexists. split; [done|].
      assert (pc' = pc) as -> by congruence.
      apply Update_extends; [|done].
      destruct Htr as [userId Hm].
      destruct (inv_entry s HI _ _ Hm) as (pc0 & Ho0 & _ & Hopen). congruence.
    + rewrite list_lookup_alter_ne by done. eauto using extends_refl.
  - intros o' pc' Ho'. cbn. destruct (decide (o = o')) as [<-|Hne].
    + rewrite list_lookup_alter_eq, Ho'. cbn. eexists. split; [done|].
      apply pc_close_extends.
      destruct (inv_entry s HI _ _ Hm) as (pc0 & Ho0 & _ & Hopen). congruence.
    + rewrite list_lookup_alter_ne by done. eauto using extends_refl.
Qed.

Lemma rtc_Step_extended (s s' : Session) :
  Inv s -> rtc Step s s' -> extended s s'.
Proof.
  intros HI H. induction H as [|s1 s2 s3 H12 H23 IH]; [apply extended_refl|].
  eapply extended_trans; [by apply Step_extended|].
  apply IH. by eapply Step_Inv.
Qed.

Lemma cleanup_extended (s : Session) : Inv s -> extended s (cleanup s).
Proof.
  intros HI o pc Ho. rewrite cleanup_eq. cbn.
  rewrite foldl_alter_lookup by done. rewrite Ho. cbn.
  case_decide as Hin; [|eauto using extends_refl].
  eexists. split; [done|]. apply pc_close_extends.
  apply list_elem_of_fmap in Hin as ([userId o'] & -> & Hin).
  apply elem_of_map_to_list in Hin.
  destruct (inv_entry s HI _ _ Hin) as (pc0 & Ho0 & _ & Hopen).
  cbn in Ho. congruence.
Qed.

Lemma dispatch_steps (B : Browser) (e : Event) (s : Session) :
  Inv s -> e ≠ unmounted -> rtc Step s (dispatch B e s).
Proof.
  intros HI Hne.
  destruct e as [signal|participants|i|o st|o k streams|o candidate| | |a v|];
    cbn;
    try done.
  - apply handleSignal_steps.
  - apply reconcile_steps.
  - apply timeout_steps.
  - destruct (isOpen s o) eqn:Hopen; [|apply rtc_refl]. cbn.
    case_bool_decide; [|apply rtc_refl].
    apply isOpen_true in Hopen as (pc & Ho & Hcs).
    apply onconnectionstatechange_steps; eauto using inv_tracked.
  - destruct (isOpen s o) eqn:Hopen; [|apply rtc_refl].
    apply isOpen_true in Hopen as (pc & Ho & Hcs).
    apply ontrack_steps; eauto using inv_tracked.
  - destruct (isOpen s o) eqn:Hopen; [|apply rtc_refl].
    apply onicecandidate_steps.
  - apply rtc_once, step_other, handleToggleAudio_core.
  - apply rtc_once, step_other, handleToggleVideo_core.
  - apply rtc_once, step_other, initializeSession_core.
Qed.

Lemma dispatch_extended (B : Browser) (e : Event) (s : Session) :
  Inv s -> extended s (dispatch B e s).
Proof.
  intros HI.
  destruct e; try (by apply rtc_Step_extended, dispatch_steps).
  by apply cleanup_extended.
Qed.

Lemma replay_extended (B : Browser) (events : list Event) (s : Session) :
  Inv s -> extended s (replay B events s).
Proof.
  unfold replay. revert s.
  induction events as [|e events IH]; intros s HI; cbn; [apply extended_refl|].
  eapply extended_trans; [by apply dispatch_extended|].
  by apply IH, dispatch_Inv.
Qed.


(** ** Invariants of the refs *)

Lemma blank_mounted (r u : string) : blank (mounted r u).
Proof. by repeat split. Qed.

Lemma blank_is_Inv (s : Session) : blank s -> Inv s.
Proof. intros (Ho & Hm & Hw & Ht). by apply blank_Inv. Qed.

Lemma Step_ids (s s' : Session) :
  Step s s' -> roomId s' = roomId s /\ user s' = user s.
Proof. intros [s2 (Hr & Hu & _)| | | | | |]; by cbn. Qed.

Lemma rtc_Step_ids (s s' : Session) :
  rtc Step s s' -> roomId s' = roomId s /\ user s' = user s.
Proof.
  intros H. induction H as [|s1 s2 s3 H12 H23 [IHr IHu]]; [done|].
  destruct (Step_ids _ _ H12) as [Hr Hu]. by rewrite IHr, IHu.
Qed.

Lemma replay_ids (B : Browser) (events : list Event) (s : Session) :
  Inv s ->
  roomId (replay B events s) = roomId s /\ user (replay B events s) = user s.
Proof.
  unfold replay. revert s.
  induction events as [|e events IH]; intros s HI; cbn; [done|].
  destruct (IH (dispatch B e s) (dispatch_Inv B e s HI)) as [Hr Hu].
  rewrite Hr, Hu. clear IH Hr Hu.
  destruct e; try (by apply rtc_Step_ids, dispatch_steps).
  unfold dispatch. by rewrite cleanup_eq.
Qed.

(** X1. In every state the events lead to, the connection stored for a
    participant is an object that was constructed for that participant and
    that is not closed; so no two participants share a connection object. *)
Theorem connections_are_keyed (B : Browser) (events : list Event) (s : Session) :
  blank s ->
  let s' := replay B events s in
  (forall userId o,
     peerConnectionsRef s' !! userId = Some o ->
     exists pc, objects s' !! o = Some pc
                /\ remoteUser pc = userId /\ connectionState pc ≠ closed)
  /\ (forall userId userId' o,
        peerConnectionsRef s' !! userId = Some o ->
        peerConnectionsRef s' !! userId' = Some o ->
        userId = userId').
Proof.
  intros Hb s'. assert (HI : Inv s') by by apply replay_Inv, blank_is_Inv.
  split; [apply (inv_entry s' HI)|].
  intros userId userId' o. by apply Inv_entry_inj.
Qed.

Lemma connections_are_keyed_witness :
  exists pc, objects (replay permissive busy (mounted "room" "a")) !! 1 = Some pc
             /\ remoteUser pc = "c" /\ connectionState pc ≠ closed.
Proof.
  apply (proj1 (connections_are_keyed permissive busy (mounted "room" "a")
                  (blank_mounted "room" "a")) "c" 1).
  vm_compute. reflexivity.
Defined.

(** X2. No connection object is leaked: in every state the events lead to,
    an object that is not in [peerConnectionsRef] has been closed. *)
Theorem no_connection_leaks (B : Browser) (events : list Event) (s : Session) :
  blank s ->
  forall o pc,
    objects (replay B events s) !! o = Some pc ->
    (forall userId, peerConnectionsRef (replay B events s) !! userId ≠ Some o) ->
    connectionState pc = closed.
Proof.
  intros Hb o pc Ho Hun.
  assert (HI : Inv (replay B events s)) by by apply replay_Inv, blank_is_Inv.
  destruct (decide (connectionState pc = closed)) as [|Hopen]; [done|].
  destruct (inv_tracked _ HI o pc Ho Hopen) as [userId Hm].
  by destruct (Hun userId).
Qed.

Lemma no_connection_leaks_witness :
  connectionState
    (mkPC "b" ofHandleOffer [0; 1] (Some (SessionDescription answer "v=0"))
       (Some (SessionDescription offer "v=0")) ["c1"] closed None) = closed.
Proof.
  apply (no_connection_leaks permissive busy (mounted "room" "a")
           (blank_mounted "room" "a") 0).
  - vm_compute. reflexivity.
  - intros userId H.
    assert (Hk : userId ∈ (map_to_list
      (peerConnectionsRef (replay permissive busy (mounted "room" "a")))).*1).
    { apply list_elem_of_fmap. exists (userId, 0). split; [done|].
      by apply elem_of_map_to_list. }
    vm_compute in Hk. apply elem_of_cons in Hk as [->|Hk].
    + vm_compute in H. discriminate H.
    + by apply elem_of_nil in Hk.
Defined.

(** X3. In every state the events lead to, a connection to which a
    candidate was applied has a remote description: no candidate is ever
    applied early. *)
Theorem candidates_need_remote_description (B : Browser) (events : list Event)
    (s : Session) :
  blank s ->
  forall o pc,
    objects (replay B events s) !! o = Some pc ->
    iceCandidates pc ≠ [] ->
    is_Some (remoteDescription pc).
Proof.
  intros Hb. apply inv_candidates. by apply replay_Inv, blank_is_Inv.
Qed.

Lemma candidates_need_remote_description_witness :
  is_Some (remoteDescription
    (mkPC "b" ofHandleOffer [0; 1] (Some (SessionDescription answer "v=0"))
       (Some (SessionDescription offer "v=0")) ["c1"] closed None)).
Proof.
  apply (candidates_need_remote_description permissive busy (mounted "room" "a")
           (blank_mounted "room" "a") 0).
  - vm_compute. reflexivity.
  - discriminate.
Defined.

(** X4. Every row the session has inserted into [webrtc_signals] carries
    the session's own user as sender and its own room, and its
    [signal_type] names its payload: an offer description under "offer",
    an answer description under "answer", a candidate under
    "ice-candidate". *)
Theorem rows_are_own_and_typed (B : Browser) (events : list Event) (s : Session) :
  blank s ->
  forall row,
    row ∈ webrtc_signals (replay B events s) ->
    roomId s = Some (room_id row)
    /\ user s = Some (from_user_id row)
    /\ typed row.
Proof.
  intros Hb row Hin.
  assert (HI : Inv s) by by apply blank_is_Inv.
  destruct (replay_ids B events s HI) as [<- <-].
  by apply inv_rows; [apply replay_Inv|].
Qed.

Lemma rows_are_own_and_typed_witness :
  roomId (mounted "room" "a") = Some "room"
  /\ user (mounted "room" "a") = Some "a"
  /\ typed (mkSignal "room" "a" "c" "ice-candidate" (IceCandidateInit "c2")).
Proof.
  apply (rows_are_own_and_typed permissive busy (mounted "room" "a")
           (blank_mounted "room" "a")
           (mkSignal "room" "a" "c" "ice-candidate" (IceCandidateInit "c2"))).
  vm_compute. repeat constructor.
Defined.

(** X5. A closed connection object is final: whatever events follow, the
    object stays exactly as it was when it was closed. *)
Theorem closed_connection_is_frozen (B : Browser) (before after : list Event)
    (s : Session) :
  blank s ->
  forall o pc,
    objects (replay B before s) !! o = Some pc ->
    connectionState pc = closed ->
    objects (replay B after (replay B before s)) !! o = Some pc.
Proof.
  intros Hb o pc Ho Hc.
  assert (HI : Inv (replay B before s)) by by apply replay_Inv, blank_is_Inv.
  destruct (replay_extended B after _ HI o pc Ho)
    as (pc' & Ho' & _ & _ & _ & _ & _ & Hfrozen).
  by rewrite Ho', (Hfrozen Hc).
Qed.

Lemma closed_connection_is_frozen_witness :
  objects (replay permissive
             [signalInserted (mkSignal "room" "b" "a" "ice-candidate"
                                (IceCandidateInit "c3"));
              signalInserted (mkSignal "room" "b" "a" "answer"
                                (SessionDescription answer "v=1"));
              connectionStateChanged 0 connected]
             (replay permissive busy (mounted "room" "a"))) !! 0
  = Some (mkPC "b" ofHandleOffer [0; 1] (Some (SessionDescription answer "v=0"))
            (Some (SessionDescription offer "v=0")) ["c1"] closed None).
Proof.
  apply (closed_connection_is_frozen permissive busy _ (mounted "room" "a")
           (blank_mounted "room" "a")).
  - vm_compute. reflexivity.
  - reflexivity.
Defined.

(** X6. Whatever events follow, a connection object keeps the participant
    it was constructed for, its handlers and the local tracks it was given
    at construction; the candidates applied to it are only ever added at
    the end; and a remote description, once set, stays set. *)
Theorem connection_history (B : Browser) (before after : list Event)
    (s : Session) :
  blank s ->
  forall o pc,
    objects (replay B before s) !! o = Some pc ->
    exists pc',
      objects (replay B after (replay B before s)) !! o = Some pc'
      /\ remoteUser pc' = remoteUser pc
      /\ handlers pc' = handlers pc
      /\ senders pc' = senders pc
      /\ iceCandidates pc `prefix_of` iceCandidates pc'
      /\ (is_Some (remoteDescription pc) -> is_Some (remoteDescription pc')).
Proof.
  intros Hb o pc Ho.
  assert (HI : Inv (replay B before s)) by by apply replay_Inv, blank_is_Inv.
  destruct (replay_extended B after _ HI o pc Ho)
    as (pc' & Ho' & H1 & H2 & H3 & H4 & H5 & _).
  by exists pc'.
Qed.

Lemma connection_history_witness :
  exists pc',
    objects (replay permissive (drop 3 busy)
               (replay permissive (take 3 busy) (mounted "room" "a"))) !! 0
    = Some pc'
    /\ remoteUser pc' = "b"
    /\ handlers pc' = ofHandleOffer
    /\ senders pc' = [0; 1]
    /\ [] `prefix_of` iceCandidates pc'
    /\ (is_Some (Some (SessionDescription offer "v=0"))
        -> is_Some (remoteDescription pc')).
Proof.
  apply (connection_history permissive (take 3 busy) (drop 3 busy)
           (mounted "room" "a") (blank_mounted "room" "a") 0
           (mkPC "b" ofHandleOffer [0; 1]
              (Some (SessionDescription answer "v=0"))
              (Some (SessionDescription offer "v=0")) [] new None)).
  vm_compute. reflexivity.
Defined.


(** ** More on the handlers, one at a time *)

(** X7. [sendSignal] never throws to its caller, and all it can change is
    the table and the console: at most one row is added, the row it was
    asked to send, from the session's user in the session's room; without
    a room id or a user it changes nothing. *)
Theorem sendSignal_effect (B : Browser) (s : Session)
    (toUserId signalType : string) (signalData : SignalData) :
  let s' := (sendSignal B toUserId signalType signalData s).2 in
  (sendSignal B toUserId signalType signalData s).1 = Resolved tt
  /\ objects s' = objects s
  /\ peerConnectionsRef s' = peerConnectionsRef s
  /\ timers s' = timers s
  /\ tracks s' = tracks s
  /\ localStreamRef s' = localStreamRef s
  /\ (webrtc_signals s' = webrtc_signals s
      \/ exists r u,
           roomId s = Some r /\ user s = Some u
           /\ webrtc_signals s'
              = webrtc_signals s ++ [mkSignal r u toUserId signalType signalData])
  /\ (roomId s = None \/ user s = None -> s' = s).
Proof.
  cbv zeta. unfold sendSignal. async_unfold.
  destruct (roomId s) as [r|] eqn:Hr; [|by repeat split; auto].
  destruct (user s) as [u|] eqn:Hu; [|by repeat split; auto].
  destruct (insert B s _) eqn:Hi; cbn; repeat split; auto;
    try (by intros [|]).
  right. by exists r, u.
Qed.

Lemma sendSignal_effect_witness :
  (sendSignal permissive "b" "offer" (SessionDescription offer "v=0")
     (with_isInitializedRef true
        (mkSession None (Some "a") true true [] None [] ∅ ∅ false false [] [] []))).2
  = with_isInitializedRef true
      (mkSession None (Some "a") true true [] None [] ∅ ∅ false false [] [] []).
Proof.
  apply (proj2 (proj2 (proj2 (proj2 (proj2 (proj2 (proj2
    (sendSignal_effect permissive _ "b" "offer" (SessionDescription offer "v=0"))))))))).
  left. reflexivity.
Defined.

(** X8. A row whose [signal_type] is none of "offer", "answer" and
    "ice-candidate" is logged by [handleSignal] and otherwise ignored. *)
Theorem handleSignal_unknown_type (B : Browser) (s : Session) (signal : Signal) :
  signal_type signal ≠ "offer" ->
  signal_type signal ≠ "answer" ->
  signal_type signal ≠ "ice-candidate" ->
  handleSignal B signal s
  = (Resolved tt,
     with_console
       (fun l => l ++ [console_log "Received signal:" (signal_type signal)]) s).
Proof.
  intros H1 H2 H3. unfold handleSignal. async_unfold.
  by rewrite !bool_decide_eq_false_2 by done.
Qed.

Lemma handleSignal_unknown_type_witness :
  handleSignal permissive
    (mkSignal "room" "b" "a" "bye" (IceCandidateInit "")) alice
  = (Resolved tt,
     with_console (fun l => l ++ [console_log "Received signal:" "bye"]) alice).
Proof.
  apply (handleSignal_unknown_type permissive alice
           (mkSignal "room" "b" "a" "bye" (IceCandidateInit ""))); discriminate.
Defined.

(** X9. [handleAnswer] on its three paths. With no connection for the
    sender the answer is logged and dropped. With one, and the engine
    accepting, the answer becomes the remote description of that
    connection and nothing else changes. When the engine rejects it, the
    error is logged and no connection changes. *)
Theorem handleAnswer_effect (B : Browser) (s : Session) (fromUserId : string)
    (sdp : string) :
  let a := SessionDescription answer sdp in
  let logged := with_console
    (fun l => l ++ [console_log "Handling answer from:" fromUserId]) s in
  (peerConnectionsRef s !! fromUserId = None ->
   handleAnswer B fromUserId a s = (Resolved tt, logged))
  /\ (forall o pc,
        peerConnectionsRef s !! fromUserId = Some o ->
        objects s !! o = Some pc ->
        rejects B (setRemoteDescription a) pc = None ->
        handleAnswer B fromUserId a s
        = (Resolved tt, with_objects (alter (with_remoteDescription a) o) logged))
  /\ (forall o pc err,
        peerConnectionsRef s !! fromUserId = Some o ->
        objects s !! o = Some pc ->
        rejects B (setRemoteDescription a) pc = Some err ->
        handleAnswer B fromUserId a s
        = (Resolved tt,
           with_console
             (fun l => l ++ [console_error "Error handling answer:" err]) logged)).
Proof.
  cbv zeta. unfold handleAnswer, pc_setRemoteDescription, engine, update.
  async_unfold. cbn. split; [|split].
  - by intros ->.
  - intros o pc -> Ho Hacc. cbn. by rewrite Ho, Hacc.
  - intros o pc err -> Ho Hrej. cbn. by rewrite Ho, Hrej.
Qed.

Lemma handleAnswer_effect_witness :
  handleAnswer permissive "c" (SessionDescription answer "v=0") alice
  = (Resolved tt,
     with_console (fun l => l ++ [console_log "Handling answer from:" "c"]) alice)
  /\ handleAnswer permissive "b" (SessionDescription answer "v=0") alice
     = (Resolved tt,
        with_objects
          (alter (with_remoteDescription (SessionDescription answer "v=0")) 0)
          (with_console
             (fun l => l ++ [console_log "Handling answer from:" "b"]) alice))
  /\ handleAnswer
       (mkBrowser (fun _ _ => Some "InvalidStateError") (fun _ _ => "v=0")
          (fun _ _ => inserted) (fun _ => inr [audio; video]))
       "b" (SessionDescription answer "v=0") alice
     = (Resolved tt,
        with_console
          (fun l => l ++ [console_error "Error handling answer:" "InvalidStateError"])
          (with_console
             (fun l => l ++ [console_log "Handling answer from:" "b"]) alice)).
Proof.
  split; [|split].
  - apply (proj1 (handleAnswer_effect permissive alice "c" "v=0")).
    vm_compute. reflexivity.
  - apply (proj1 (proj2 (handleAnswer_effect permissive alice "b" "v=0")) 0
             (mkPC "b" (ofCreatePeerConnection "b") [0; 1]
                (Some (SessionDescription offer "v=0")) None [] new None));
      vm_compute; reflexivity.
  - apply (proj2 (proj2 (handleAnswer_effect _ alice "b" "v=0")) 0
             (mkPC "b" (ofCreatePeerConnection "b") [0; 1]
                (Some (SessionDescription offer "v=0")) None [] new None));
      vm_compute; reflexivity.
Defined.

(** X10. [cleanup] is idempotent: a second call changes nothing. *)
Theorem cleanup_idempotent (s : Session) : cleanup (cleanup s) = cleanup s.
Proof.
  rewrite (cleanup_eq (cleanup s)). rewrite !cleanup_eq. cbn.
  by rewrite map_to_list_empty.
Qed.

(** X11. Only a connection that [createPeerConnection] constructed, and
    only the states [failed] and [disconnected], schedule a reconnection:
    a state change of a connection that [handleOffer] constructed, and a
    change to any other state, leave the timers as they are. *)
Theorem onconnectionstatechange_no_retry (s : Session) (o : nat)
    (pc : PeerConnection) (st : RTCPeerConnectionState) :
  objects s !! o = Some pc ->
  handlers pc = ofHandleOffer \/ (st ≠ failed /\ st ≠ disconnected) ->
  timers (run (onconnectionstatechange o st) s) = timers s.
Proof.
  intros Ho H. unfold onconnectionstatechange, update. async_unfold. cbn.
  rewrite list_lookup_alter_eq, Ho. cbn.
  destruct H as [-> | [H1 H2]]; [done|].
  destruct (handlers pc); [|done]. by destruct st.
Qed.

Lemma onconnectionstatechange_no_retry_witness :
  timers (run (onconnectionstatechange 0 failed) answering) = timers answering
  /\ timers (run (onconnectionstatechange 0 connecting) alice) = timers alice.
Proof.
  split.
  - apply (onconnectionstatechange_no_retry answering 0
             (mkPC "b" ofHandleOffer [0; 1]
                (Some (SessionDescription answer "v=0"))
                (Some (SessionDescription offer "v=0")) [] new None) failed).
    + vm_compute. reflexivity.
    + left. reflexivity.
  - apply (onconnectionstatechange_no_retry alice 0
             (mkPC "b" (ofCreatePeerConnection "b") [0; 1]
                (Some (SessionDescription offer "v=0")) None [] new None)
             connecting).
    + vm_compute. reflexivity.
    + right. split; discriminate.
Defined.


(** X12. The branch of [handleOffer] for a sender without connection: with
    the calls accepted by the engine, a connection is constructed for the
    sender with the [handleOffer] handlers and the local tracks, the offer
    becomes its remote description, an answer its local description, and
    [sendSignal] is called with that answer. *)
Theorem handleOffer_unknown_sender (B : Browser) (s : Session)
    (fromUserId sdp : string) (localStream : list nat) (u : string) :
  let d := SessionDescription offer sdp in
  let pc := length (objects s) in
  let fresh := mkPC fromUserId ofHandleOffer localStream None None [] new None in
  let applied := with_remoteDescription d fresh in
  let a := SessionDescription answer (sdpText B answer applied) in
  localStreamRef s = Some localStream ->
  user s = Some u ->
  peerConnectionsRef s !! fromUserId = None ->
  rejects B (setRemoteDescription d) fresh = None ->
  rejects B createAnswer applied = None ->
  rejects B (setLocalDescription a) applied = None ->
  handleOffer B fromUserId d s
  = (Resolved tt,
     run (sendSignal B fromUserId "answer" a)
       (with_console
          (fun l => l ++ [console_log "Sending answer to:" fromUserId])
          (with_objects (fun l => l ++ [with_localDescription a applied])
             (with_peerConnectionsRef <[fromUserId := pc]>
                (with_console
                   (fun l => l ++ [console_log "Handling offer from:" fromUserId])
                   s))))).
Proof.
  cbv zeta. intros Hs Hu Hm Hsr Hca Hsl.
  unfold handleOffer, pc_setRemoteDescription, pc_setLocalDescription,
    pc_createAnswer, new_RTCPeerConnection, engine, update.
  async_unfold. cbn. rewrite Hs, Hu. cbn. rewrite Hm. cbn.
  rewrite forEach_addTrack. cbn.
  rewrite alter_last. unfold with_senders. cbn.
  repeat (progress (cbn; rewrite ?alter_last, ?lookup_snoc, ?Hsr, ?Hca, ?Hsl)).
  match goal with
  | |- _ = (_, (sendSignal B _ _ _ ?st2).2) =>
      match goal with
      | |- context [sendSignal B ?x ?y ?z ?st1] =>
          replace st2 with st1;
            [ pose proof (sendSignal_resolves B st1 x y z) as Hres;
              destruct (sendSignal B x y z st1) as [res st'];
              cbn in Hres; by subst res
            | ]
      end
  end.
  destruct s. session_simpl. f_equal. by rewrite !alter_last.
Qed.

Lemma handleOffer_unknown_sender_witness :
  handleOffer permissive "b" (SessionDescription offer "v=0") (started "room" "a")
  = (Resolved tt,
     run (sendSignal permissive "b" "answer" (SessionDescription answer "v=0"))
       (with_console (fun l => l ++ [console_log "Sending answer to:" "b"])
          (with_objects
             (fun l => l ++ [with_localDescription (SessionDescription answer "v=0")
                               (with_remoteDescription (SessionDescription offer "v=0")
                                  (mkPC "b" ofHandleOffer [0; 1] None None [] new None))])
             (with_peerConnectionsRef <["b" := 0]>
                (with_console
                   (fun l => l ++ [console_log "Handling offer from:" "b"])
                   (started "room" "a")))))).
Proof.
  apply (handleOffer_unknown_sender permissive (started "room" "a") "b" "v=0"
           [0; 1] "a"); reflexivity.
Defined.

(** X13. When the engine rejects [createOffer], [createPeerConnection]
    logs the error, shows a toast and returns null without sending any
    row; the connection it had already constructed and stored stays in
    [peerConnectionsRef], without local description. *)
Theorem createPeerConnection_offer_rejected (B : Browser) (s : Session)
    (participantUserId participantUsername : string)
    (localStream : list nat) (u err : string) :
  let fresh := mkPC participantUserId (ofCreatePeerConnection participantUsername)
                 localStream None None [] new None in
  localStreamRef s = Some localStream ->
  user s = Some u ->
  rejects B createOffer fresh = Some err ->
  createPeerConnection B participantUserId participantUsername s
  = (Resolved None,
     with_console
       (fun l => l ++ [console_log "Creating peer connection with:" participantUserId;
                       console_error "Error creating peer connection:" err;
                       toast "Connection Error" participantUsername])
       (with_objects (fun l => l ++ [fresh])
          (with_peerConnectionsRef <[participantUserId := length (objects s)]> s))).
Proof.
  cbv zeta. intros Hs Hu Hrej.
  unfold createPeerConnection, pc_createOffer, new_RTCPeerConnection, engine.
  async_unfold. cbn. rewrite Hs, Hu. cbn.
  rewrite forEach_addTrack. cbn.
  rewrite alter_last. unfold with_senders. cbn.
  rewrite lookup_snoc, Hrej. cbn. f_equal.
  destruct s. session_simpl. f_equal.
  - by rewrite alter_last.
  - by rewrite <- !app_assoc.
Qed.

Lemma createPeerConnection_offer_rejected_witness :
  let strict := mkBrowser (fun c _ => match c with
                                      | createOffer => Some "OperationError"
                                      | _ => None
                                      end)
                  (fun _ _ => "v=0") (fun _ _ => inserted)
                  (fun _ => inr [audio; video]) in
  let s' := run (createPeerConnection strict "b" "b") (started "room" "a") in
  peerConnectionsRef s' !! "b" = Some 0
  /\ webrtc_signals s' = []
  /\ localDescription <$> objects s' !! 0 = Some None.
Proof.
  cbv zeta. unfold run.
  rewrite (createPeerConnection_offer_rejected _ (started "room" "a") "b" "b"
             [0; 1] "a" "OperationError"); [|reflexivity..].
  repeat split.
Defined.


(** X14. A session whose [getUserMedia] was refused ends its
    initialization marked as initialized but without local stream, and then
    takes no part in the mesh: it answers no offer, constructs no
    connection and its participants effect does nothing. *)
Theorem media_refused_session_is_passive (B : Browser) (audioOn videoOn : bool)
    (s : Session) (err : string) :
  localStreamRef s = None ->
  getUserMedia B s = inl err ->
  let s' := initializeSession B audioOn videoOn s in
  isInitializedRef s' = true
  /\ localStreamRef s' = None
  /\ (forall fromUserId d, handleOffer B fromUserId d s' = (Resolved tt, s'))
  /\ (forall userId name, createPeerConnection B userId name s' = (Resolved None, s'))
  /\ (forall participants, reconcile B participants s' = (Resolved tt, s')).
Proof.
  intros Hs Hg. cbv zeta.
  assert (Hs' : localStreamRef (initializeSession B audioOn videoOn s) = None).
  { unfold initializeSession, setupSignalingChannel, initializeLocalStream.
    async_unfold. cbn. rewrite Hg. cbn. by repeat case_match. }
  split; [done|]. split; [done|].
  generalize dependent (initializeSession B audioOn videoOn s). intros s' Hs'.
  split; [|split].
  - intros fromUserId d. unfold handleOffer. async_unfold. by rewrite Hs'.
  - intros userId name. apply createPeerConnection_guard. by left.
  - intros participants. unfold reconcile. async_unfold. cbn.
    destruct (user s'); [|done]. rewrite Hs'. by rewrite andb_false_r.
Qed.

Lemma media_refused_session_is_passive_witness :
  handleOffer denied "b" (SessionDescription offer "v=0")
    (initializeSession denied true true (mounted "room" "a"))
  = (Resolved tt, initializeSession denied true true (mounted "room" "a")).
Proof.
  apply (proj1 (proj2 (proj2 (media_refused_session_is_passive denied true true
           (mounted "room" "a") "NotAllowedError" eq_refl eq_refl)))).
Defined.

Lemma createPeerConnection_old_objects (B : Browser) (s : Session)
    (participantUserId participantUsername : string) (o : nat) :
  o < length (objects s) ->
  objects (run (createPeerConnection B participantUserId participantUsername) s) !! o
  = objects s !! o.
Proof.
  intros Hlt.
  unfold createPeerConnection, sendSignal, pc_setLocalDescription,
    pc_createOffer, new_RTCPeerConnection, engine, update.
  async_unfold. cbn.
  destruct (localStreamRef s) as [localStream|]; [|done].
  destruct (user s); [|done]. cbn.
  rewrite forEach_addTrack. cbn.
  crunch; rewrite ?list_lookup_alter_ne by lia; by rewrite lookup_app_l by lia.
Qed.

(** X15. The reconnection callback. When the participant is no longer in
    [peerConnectionsRef], the expired timer is dropped and nothing else
    happens. When it still is, the old connection object is closed and a
    new object is constructed and stored for the participant. *)
Theorem timeout_effect (B : Browser) (s : Session) (i : nat) (t : Timer) :
  timers s !! i = Some t ->
  (peerConnectionsRef s !! participantUserId t = None ->
   timeout B i s = (Resolved tt, with_timers (delete i) s))
  /\ (forall o pc,
        peerConnectionsRef s !! participantUserId t = Some o ->
        objects s !! o = Some pc ->
        is_Some (localStreamRef s) ->
        is_Some (user s) ->
        let s' := run (timeout B i) s in
        objects s' !! o = Some (pc_close pc)
        /\ peerConnectionsRef s' !! participantUserId t = Some (length (objects s))
        /\ length (objects s') = S (length (objects s))
        /\ timers s' = delete i (timers s)).
Proof.
  intros Ht. split.
  - intros Hm. unfold timeout, reconnect. async_unfold. rewrite Ht. cbn.
    rewrite Hm. by rewrite bool_decide_eq_false_2 by by intros [? [=]].
  - intros o pc Hm Ho Hs Hu. cbv zeta.
    unfold timeout, reconnect, run, mbind, Async_bind, bind, get, modify, mret,
      Async_ret, ret.
    rewrite Ht. cbn. rewrite Hm. rewrite bool_decide_eq_true_2 by done. cbn.
    set (s1 := closePeerConnection _ _).
    assert (Ho1 : objects s1 !! o = Some (pc_close pc)).
    { subst s1. unfold closePeerConnection. cbn. rewrite Hm. cbn.
      by rewrite list_lookup_alter_eq, Ho. }
    assert (Hl1 : length (objects s1) = length (objects s)).
    { subst s1. by rewrite closePeerConnection_length. }
    assert (Ht1 : timers s1 = delete i (timers s)).
    { subst s1. unfold closePeerConnection. cbn. by rewrite Hm. }
    assert (Hs1 : is_Some (localStreamRef s1)).
    { subst s1. by rewrite closePeerConnection_localStreamRef. }
    assert (Hu1 : is_Some (user s1)).
    { subst s1. by rewrite closePeerConnection_user. }
    clearbody s1.
    pose proof (createPeerConnection_refs B s1 (participantUserId t)
                  (participantName t) Hs1 Hu1) as (Hm' & Hl' & _).
    pose proof (createPeerConnection_old_objects B s1 (participantUserId t)
                  (participantName t) o) as Ho'.
    assert (Htm : timers (run (createPeerConnection B (participantUserId t)
                                 (participantName t)) s1) = timers s1).
    { unfold createPeerConnection, sendSignal, pc_setLocalDescription,
        pc_createOffer, new_RTCPeerConnection, engine, update.
      async_unfold. cbn.
      destruct (localStreamRef s1) as [localStream|]; [|done].
      destruct (user s1); [|done]. cbn.
      rewrite forEach_addTrack. cbn. by crunch. }
    unfold run in *.
    destruct (createPeerConnection B _ _ s1) as [[r|e] s2]; cbn in *.
    + rewrite Ho' by (rewrite Hl1; by eapply lookup_lt_Some).
      rewrite Hm', lookup_insert_eq, Hl', Hl1, Htm, Ht1. done.
    + rewrite Ho' by (rewrite Hl1; by eapply lookup_lt_Some).
      rewrite Hm', lookup_insert_eq, Hl', Hl1, Htm, Ht1. done.
Qed.

Lemma timeout_effect_witness :
  let waiting := run (onconnectionstatechange 0 failed) alice in
  timeout permissive 0 (closePeerConnection "b" waiting)
  = (Resolved tt, with_timers (delete 0) (closePeerConnection "b" waiting))
  /\ peerConnectionsRef (run (timeout permissive 0) waiting) !! "b" = Some 1.
Proof.
  cbv zeta. split.
  - apply (proj1 (timeout_effect permissive
                    (closePeerConnection "b"
                       (run (onconnectionstatechange 0 failed) alice)) 0
                    (mkTimer 2000 "b" "b") ltac:(vm_compute; reflexivity))).
    vm_compute. reflexivity.
  - apply (proj2 (timeout_effect permissive
                    (run (onconnectionstatechange 0 failed) alice) 0
                    (mkTimer 2000 "b" "b") ltac:(vm_compute; reflexivity)) 0
             (mkPC "b" (ofCreatePeerConnection "b") [0; 1]
                (Some (SessionDescription offer "v=0")) None [] failed None)).
    + vm_compute. reflexivity.
    + vm_compute. reflexivity.
    + eexists. vm_compute. reflexivity.
    + eexists. vm_compute. reflexivity.
Defined.


(** ** After cleanup *)

Lemma cleanup_halted (s : Session) : Inv s -> halted (cleanup s).
Proof.
  intros HI. rewrite cleanup_eq. repeat split. cbn.
  intros o pc. rewrite foldl_alter_lookup by done.
  case_decide as Hin.
  - destruct (objects s !! o); [|done]. cbn. by intros [= <-].
  - intros Ho. destruct (decide (connectionState pc = closed)) as [|Hopen]; [done|].
    destruct (inv_tracked s HI o pc Ho Hopen) as [userId Hm].
    destruct Hin. apply list_elem_of_fmap. exists (userId, o).
    split; [done|]. by apply elem_of_map_to_list.
Qed.

Lemma halted_isOpen (s : Session) (o : nat) : halted s -> isOpen s o = false.
Proof.
  intros (_ & _ & Hc). unfold isOpen.
  destruct (objects s !! o) as [pc|] eqn:Ho; [|done].
  rewrite bool_decide_eq_false_2; [done|]. intros Hn. by apply Hn, (Hc o).
Qed.

Lemma dispatch_halted (B : Browser) (e : Event) (s : Session) :
  halted s -> (forall audioOn videoOn, e ≠ roomInitialized audioOn videoOn) ->
  let s' := dispatch B e s in
  halted s'
  /\ objects s' = objects s
  /\ webrtc_signals s' = webrtc_signals s
  /\ tracks s' = tracks s.
Proof.
  intros Hh Hne. pose proof Hh as (Hm & Hs & Hc). cbv zeta.
  destruct e as [signal|participants|i|o st|o k streams|o candidate| | |a v|];
    try (by destruct (Hne a v));
    unfold dispatch; rewrite ?halted_isOpen by done; try done.
  - unfold handleSignal, handleOffer, handleAnswer, handleIceCandidate.
    async_unfold. cbn.
    repeat case_bool_decide; cbn; rewrite ?Hs, ?Hm, ?lookup_empty; cbn;
      by split; [exact Hh|].
  - rewrite reconcile_guard by auto. done.
  - unfold timeout, reconnect. async_unfold. cbn.
    destruct (timers s !! i); cbn; [|done]. rewrite Hm, lookup_empty.
    rewrite bool_decide_eq_false_2 by by intros [? [=]]. cbn.
    by split; [exact Hh|].
  - unfold handleToggleAudio. by rewrite Hs.
  - unfold handleToggleVideo. by rewrite Hs.
  - rewrite !cleanup_eq. cbn. rewrite Hs, Hm, map_to_list_empty. cbn.
    by split; [repeat split|].
Qed.

(** X16. Once [cleanup] has run, and until the room is initialized
    again, nothing recreates what it released: whatever signals arrive,
    participant lists change, timers expire or toggles are clicked, no
    connection object is constructed or changed, the map stays empty, no
    row is sent and no track changes. *)
Theorem after_cleanup_nothing_restarts (B : Browser) (before after : list Event)
    (s : Session) :
  blank s ->
  (forall audioOn videoOn, roomInitialized audioOn videoOn ∉ after) ->
  let stopped := cleanup (replay B before s) in
  let s' := replay B after stopped in
  objects s' = objects stopped
  /\ peerConnectionsRef s' = ∅
  /\ webrtc_signals s' = webrtc_signals stopped
  /\ tracks s' = tracks stopped
  /\ localStreamRef s' = None.
Proof.
  intros Hb Hnin. cbv zeta.
  assert (Hh : halted (cleanup (replay B before s)))
    by by apply cleanup_halted, replay_Inv, blank_is_Inv.
  revert Hh Hnin. generalize (cleanup (replay B before s)). clear.
  unfold replay. induction after as [|e after IH]; intros s Hh Hnin; cbn.
  - by destruct Hh as (? & ? & _).
  - assert (Hne : forall audioOn videoOn, e ≠ roomInitialized audioOn videoOn).
    { intros a v ->. apply (Hnin a v), list_elem_of_here. }
    assert (Hnin' : forall audioOn videoOn,
               roomInitialized audioOn videoOn ∉ after).
    { intros a v Hin. by apply (Hnin a v), list_elem_of_further. }
    destruct (dispatch_halted B e s Hh Hne) as (Hh' & Ho & Hw & Ht).
    destruct (IH _ Hh' Hnin') as (-> & -> & -> & -> & ->). by rewrite Ho, Hw, Ht.
Qed.

Lemma after_cleanup_nothing_restarts_witness :
  peerConnectionsRef
    (replay permissive
       [timerExpired 0;
        signalInserted (mkSignal "room" "c" "a" "offer"
                          (SessionDescription offer "v=0"));
        participantsChanged [member "a"; member "c"]]
       (cleanup (replay permissive busy (mounted "room" "a")))) = ∅.
Proof.
  apply (proj1 (proj2 (after_cleanup_nothing_restarts permissive busy
           [timerExpired 0;
            signalInserted (mkSignal "room" "c" "a" "offer"
                              (SessionDescription offer "v=0"));
            participantsChanged [member "a"; member "c"]]
           (mounted "room" "a") (blank_mounted "room" "a")
           ltac:(intros a v H;
                 repeat (apply elem_of_cons in H as [H|H]; [discriminate H|]);
                 by apply elem_of_nil in H)))).
Defined.


(** ** The toggles, composed *)

Lemma list_alter_fixed {A} (f : A -> A) (l : list A) (i : nat) :
  (forall x, l !! i = Some x -> f x = x) -> alter f i l = l.
Proof.
  intros H. rewrite <- (list_alter_id (fun x => x) l i) at 2 by done.
  by apply list_alter_ext.
Qed.

Lemma with_enabled_twice (v : bool) (tr : MediaStreamTrack) :
  enabled tr = v -> with_enabled (negb (negb v)) (with_enabled (negb v) tr) = tr.
Proof. intros <-. destruct tr as [k e st]. cbn. by rewrite negb_involutive. Qed.

Lemma handleToggleAudio_eq (s : Session) (localStream : list nat) (t : nat) :
  localStreamRef s = Some localStream ->
  head (tracksOfKind audio s localStream) = Some t ->
  handleToggleAudio s
  = with_isAudioOn (negb (isAudioOn s))
      (with_tracks (alter (with_enabled (negb (isAudioOn s))) t) s).
Proof. intros Hs Hh. unfold handleToggleAudio. by rewrite Hs, Hh. Qed.

Lemma handleToggleVideo_eq (s : Session) (localStream : list nat) (t : nat) :
  localStreamRef s = Some localStream ->
  head (tracksOfKind video s localStream) = Some t ->
  handleToggleVideo s
  = with_isVideoOn (negb (isVideoOn s))
      (with_tracks (alter (with_enabled (negb (isVideoOn s))) t) s).
Proof. intros Hs Hh. unfold handleToggleVideo. by rewrite Hs, Hh. Qed.

Lemma handleToggleAudio_none (s : Session) (localStream : list nat) :
  localStreamRef s = Some localStream ->
  head (tracksOfKind audio s localStream) = None ->
  handleToggleAudio s = s.
Proof. intros Hs Hh. unfold handleToggleAudio. by rewrite Hs, Hh. Qed.

Lemma handleToggleVideo_none (s : Session) (localStream : list nat) :
  localStreamRef s = Some localStream ->
  head (tracksOfKind video s localStream) = None ->
  handleToggleVideo s = s.
Proof. intros Hs Hh. unfold handleToggleVideo. by rewrite Hs, Hh. Qed.

(** X17. Under the agreement of flags and states that
    [initializeLocalStream] sets up, each toggle is an involution: two
    clicks on the same button leave the whole session as it was. And the
    two toggles commute. *)
Theorem toggles_compose (s : Session) :
  (in_sync s -> handleToggleAudio (handleToggleAudio s) = s)
  /\ (in_sync s -> handleToggleVideo (handleToggleVideo s) = s)
  /\ handleToggleAudio (handleToggleVideo s)
     = handleToggleVideo (handleToggleAudio s).
Proof.
  split; [|split].
  - intros Hsync. unfold handleToggleAudio at 2.
    destruct (localStreamRef s) as [localStream|] eqn:Hs;
      [|unfold handleToggleAudio; by rewrite Hs].
    destruct (head (tracksOfKind audio s localStream)) as [t|] eqn:Hh;
      [|unfold handleToggleAudio; by rewrite Hs, Hh].
    unfold handleToggleAudio. cbn. rewrite Hs.
    rewrite (tracksOfKind_enabled _ s _ (negb (isAudioOn s)) t) by done.
    rewrite Hh. destruct (Hsync localStream Hs) as [Ha _].
    specialize (Ha t). destruct s. session_simpl. cbn in *.
    f_equal; [apply negb_involutive|].
    rewrite list_alter_alter_eq. apply list_alter_fixed.
    intros tr Htr. cbn. apply with_enabled_twice. by apply Ha.
  - intros Hsync. unfold handleToggleVideo at 2.
    destruct (localStreamRef s) as [localStream|] eqn:Hs;
      [|unfold handleToggleVideo; by rewrite Hs].
    destruct (head (tracksOfKind video s localStream)) as [t|] eqn:Hh;
      [|unfold handleToggleVideo; by rewrite Hs, Hh].
    unfold handleToggleVideo. cbn. rewrite Hs.
    rewrite (tracksOfKind_enabled _ s _ (negb (isVideoOn s)) t) by done.
    rewrite Hh. destruct (Hsync localStream Hs) as [_ Hv].
    specialize (Hv t). destruct s. session_simpl. cbn in *.
    f_equal; [apply negb_involutive|].
    rewrite list_alter_alter_eq. apply list_alter_fixed.
    intros tr Htr. cbn. apply with_enabled_twice. by apply Hv.
  - destruct (localStreamRef s) as [localStream|] eqn:Hs;
      [|unfold handleToggleAudio, handleToggleVideo; rewrite Hs; cbn;
        by rewrite Hs].
    destruct (head (tracksOfKind audio s localStream)) as [ta|] eqn:Hha;
      destruct (head (tracksOfKind video s localStream)) as [tv|] eqn:Hhv.
    + assert (ta ≠ tv) as Hne.
      { intros ->. apply tracksOfKind_head in Hha as [_ Hk], Hhv as [_ Hk'].
        rewrite Hk in Hk'. discriminate Hk'. }
      rewrite (handleToggleVideo_eq s localStream tv Hs Hhv).
      rewrite (handleToggleAudio_eq s localStream ta Hs Hha).
      set (sv := with_isVideoOn _ _). set (sa := with_isAudioOn _ _).
      rewrite (handleToggleAudio_eq sv localStream ta Hs);
        [|by rewrite (tracksOfKind_enabled _ s sv _ _ _ eq_refl)].
      rewrite (handleToggleVideo_eq sa localStream tv Hs);
        [|by rewrite (tracksOfKind_enabled _ s sa _ _ _ eq_refl)].
      subst sv sa. destruct s. session_simpl. f_equal.
      by apply list_alter_alter_ne.
    + rewrite (handleToggleVideo_none s localStream Hs Hhv).
      rewrite (handleToggleAudio_eq s localStream ta Hs Hha).
      set (sa := with_isAudioOn _ _).
      rewrite (handleToggleVideo_none sa localStream Hs); [done|].
      by rewrite (tracksOfKind_enabled _ s sa _ _ _ eq_refl).
    + rewrite (handleToggleAudio_none s localStream Hs Hha).
      rewrite (handleToggleVideo_eq s localStream tv Hs Hhv).
      set (sv := with_isVideoOn _ _).
      rewrite (handleToggleAudio_none sv localStream Hs); [done|].
      by rewrite (tracksOfKind_enabled _ s sv _ _ _ eq_refl).
    + rewrite (handleToggleAudio_none s localStream Hs Hha).
      rewrite (handleToggleVideo_none s localStream Hs Hhv).
      by rewrite (handleToggleAudio_none s localStream Hs Hha).
Qed.

Lemma toggles_compose_witness :
  handleToggleAudio (handleToggleAudio alice) = alice
  /\ handleToggleVideo (handleToggleVideo alice) = alice.
Proof.
  assert (Hsync : in_sync alice).
  { apply (initializeLocalStream_in_sync permissive (mounted "room" "a")).
    intros localStream H. discriminate H. }
  split.
  - apply (proj1 (toggles_compose alice)), Hsync.
  - apply (proj1 (proj2 (toggles_compose alice))), Hsync.
Defined.


(** ** What the signalling leaves alone *)

Section Frames.

Context {X : Type} (f : Session -> X).

Lemma preserves_ret {A} (a : A) : preserves f (mret a).
Proof. by intros s. Qed.

Lemma preserves_ret' {A} (a : A) : preserves f (ret a).
Proof. by intros s. Qed.

Lemma preserves_throw {A} (err : string) : preserves f (@throw A err).
Proof. by intros s. Qed.

Lemma preserves_get : preserves f get.
Proof. by intros s. Qed.

Lemma preserves_bind {A C} (m : Async A) (k : A -> Async C) :
  preserves f m -> (forall a, preserves f (k a)) -> preserves f (m ≫= k).
Proof.
  intros Hm Hk s. unfold mbind, Async_bind, bind.
  specialize (Hm s). destruct (m s) as [[a|e] s']; cbn in *; [|done].
  by rewrite Hk.
Qed.

Lemma preserves_try_catch {A} (m : Async A) (h : string -> Async A) :
  preserves f m -> (forall e, preserves f (h e)) -> preserves f (try_catch m h).
Proof.
  intros Hm Hh s. unfold try_catch.
  specialize (Hm s). destruct (m s) as [[a|e] s']; cbn in *; [done|].
  by rewrite Hh.
Qed.

Lemma preserves_modify (g : Session -> Session) :
  (forall s, f (g s) = f s) -> preserves f (modify g).
Proof. intros H s. apply H. Qed.

Lemma preserves_forEach {A} (l : list A) (k : A -> Async unit) :
  (forall a, preserves f (k a)) -> preserves f (forEach l k).
Proof.
  intros H. induction l as [|x l IH]; cbn.
  - apply preserves_ret'.
  - apply preserves_bind; auto.
Qed.

End Frames.

Lemma closePeerConnection_media (userId : string) (s : Session) :
  media (closePeerConnection userId s) = media s.
Proof. unfold closePeerConnection. by case_match. Qed.

Ltac frame_step :=
  first
    [ apply preserves_ret | apply preserves_ret' | apply preserves_throw
    | apply preserves_get
    | apply preserves_bind | apply preserves_try_catch
    | apply preserves_forEach
    | apply preserves_modify; intros;
      first [reflexivity | apply closePeerConnection_media]
    | progress intros
    | progress cbv zeta
    | case_match ].

Ltac frame := repeat frame_step.

Lemma sendSignal_media (B : Browser) (toUserId signalType : string)
    (signalData : SignalData) :
  preserves media (sendSignal B toUserId signalType signalData).
Proof. unfold sendSignal, emit. frame. Qed.

Lemma createPeerConnection_media (B : Browser) (userId name : string) :
  preserves media (createPeerConnection B userId name).
Proof.
  unfold createPeerConnection, pc_setLocalDescription, pc_createOffer,
    new_RTCPeerConnection, pc_addTrack, engine, update, emit.
  frame.
Qed.











(** Without that proviso the agreement can fail. Two initializations
    overlap, both started by renders in which the microphone was on; the
    first ends, the user mutes, the second ends: it writes the flag of
    its closure, and the audio track of the stream now in
    [localStreamRef] is enabled while [isAudioOn] is false. *)
Lemma stale_closure_breaks_agreement :
  let s := replay permissive
             [roomInitialized true true; audioToggled; roomInitialized true true]
             (mounted "room" "a") in
  isAudioOn s = false
  /\ localStreamRef s = Some [2; 3]
  /\ tracks s !! 2 = Some (mkTrack audio true false)
  /\ ~ in_sync s.
Proof.
  cbv zeta. split; [vm_compute; reflexivity|].
  split; [vm_compute; reflexivity|]. split; [vm_compute; reflexivity|].
  intros Hsync.
  destruct (Hsync [2; 3] ltac:(vm_compute; reflexivity)) as [Ha _].
  specialize (Ha 2 (mkTrack audio true false)
                ltac:(vm_compute; reflexivity) ltac:(vm_compute; reflexivity)).
  vm_compute in Ha. discriminate Ha.
Qed.


(** ** A participant who stays *)

Lemma foldl_invariant {A} (J : Session -> Prop) (g : Session -> A -> Session)
    (l : list A) (s : Session) :
  (forall s' x, J s' -> J (g s' x)) -> J s -> J (foldl g s l).
Proof.
  intros Hg. revert s. induction l as [|x l IH]; intros s HJ; cbn; [done|].
  by apply IH, Hg.
Qed.

(** X19. The participants effect does not touch the connection of a
    participant who is still listed: whoever else joins or leaves in the
    same run, that participant keeps the same connection object, in
    exactly the state it had. *)
Theorem reconcile_keeps_present_connection (B : Browser) (before : list Event)
    (s0 : Session) (participants : list Participant) (userId : string)
    (o : nat) (pc : PeerConnection) :
  blank s0 ->
  let s := replay B before s0 in
  peerConnectionsRef s !! userId = Some o ->
  objects s !! o = Some pc ->
  userId ∈ user_id <$> participants ->
  let s' := run (reconcile B participants) s in
  peerConnectionsRef s' !! userId = Some o /\ objects s' !! o = Some pc.
Proof.
  intros Hb s Hm Ho Hin s'.
  assert (HI : Inv s) by by apply replay_Inv, blank_is_Inv.
  subst s'. clearbody s. clear Hb before s0.
  destruct (user s) as [u|] eqn:Hu;
    [|by rewrite reconcile_guard by auto].
  destruct (isInitializedRef s) eqn:Hi;
    [|by rewrite reconcile_guard by auto].
  destruct (localStreamRef s) as [localStream|] eqn:Hs;
    [|by rewrite reconcile_guard by auto].
  assert (Hr : ready u s) by by repeat split.
  unfold run. rewrite (reconcile_folds B u) by done. cbn.
  set (J := fun s1 => Inv s1 /\ ready u s1
                      /\ peerConnectionsRef s1 !! userId = Some o
                      /\ objects s1 !! o = Some pc).
  assert (HJ : J s) by done.
  clear HI Hm Ho Hr Hu Hi Hs.
  assert (HJ1 : J (foldl (ensure B u) s participants)).
  { apply foldl_invariant; [|done]. clear s HJ.
    intros s p (HI & Hr & Hm & Ho). unfold J.
    split; [|split; [by apply ensure_ready|split]].
    - unfold ensure. case_decide as Hd; [|done].
      eapply rtc_Step_Inv; [done|]. apply createPeerConnection_steps. tauto.
    - by rewrite ensure_lookup, Hm by done.
    - unfold ensure. case_decide as Hd; [|done].
      rewrite createPeerConnection_old_objects; [done|].
      by eapply lookup_lt_Some. }
  clear HJ.
  assert (HJ2 : J (foldl (prune u participants)
                     (foldl (ensure B u) s participants)
                     (map_to_list (peerConnectionsRef
                        (foldl (ensure B u) s participants))).*1)).
  { apply foldl_invariant; [|done]. clear s HJ1.
    intros s k (HI & Hr & Hm & Ho). unfold J.
    split; [|split; [by apply prune_ready|]].
    - unfold prune. case_decide; [|done].
      eapply rtc_Step_Inv; [done|]. apply closePeerConnection_steps.
    - unfold prune. case_decide as Hd; [|done].
      destruct Hd as [Hku Hnin].
      assert (k ≠ userId) by (intros ->; done).
      split.
      + by rewrite closePeerConnection_map, lookup_delete_ne.
      + unfold closePeerConnection.
        destruct (peerConnectionsRef s !! k) as [ok|] eqn:Hk; [|done]. cbn.
        rewrite list_lookup_alter_ne; [done|]. intros ->.
        by apply H, (Inv_entry_inj s k userId o). }
  by destruct HJ2 as (_ & _ & ? & ?).
Qed.

Lemma reconcile_keeps_present_connection_witness :
  let s := replay permissive (take 3 busy) (mounted "room" "a") in
  let s' := run (reconcile permissive [member "a"; member "c"]) s in
  peerConnectionsRef s' !! "c" = Some 1
  /\ objects s' !! 1
     = Some (mkPC "c" (ofCreatePeerConnection "c") [0; 1]
               (Some (SessionDescription offer "v=0")) None [] new None).
Proof.
  apply (reconcile_keeps_present_connection permissive (take 3 busy)
           (mounted "room" "a") [member "a"; member "c"] "c" 1
           _ (blank_mounted "room" "a")).
  - vm_compute. reflexivity.
  - vm_compute. reflexivity.
  - apply list_elem_of_further, list_elem_of_here.
Defined.


(** ** Offer and answer, end to end *)

(** X20. The handshake between two sessions, when only one side offers.
    "a" constructs a connection to "b" and its offer row is delivered to
    "b", who has no connection to "a" yet; the answer row of "b" is
    delivered back to "a". With an engine that accepts the calls and
    inserts that store the rows, each side then holds one connection to
    the other, and the two connections hold the same two descriptions in
    mirrored roles: the offer is local at "a" and remote at "b", the answer
    is local at "b" and remote at "a". *)
Theorem offer_answer_handshake (B : Browser) (sa sb : Session)
    (a b room name : string) (streamA streamB : list nat) :
  let freshA := mkPC b (ofCreatePeerConnection name) streamA None None [] new None in
  let freshB := mkPC a ofHandleOffer streamB None None [] new None in
  let o := SessionDescription offer (sdpText B offer freshA) in
  let ans := SessionDescription answer
               (sdpText B answer (with_remoteDescription o freshB)) in
  let offerRow := mkSignal room a b "offer" o in
  let answerRow := mkSignal room b a "answer" ans in
  (forall c pc, rejects B c pc = None) ->
  (forall s row, insert B s row = inserted) ->
  roomId sa = Some room -> user sa = Some a -> localStreamRef sa = Some streamA ->
  roomId sb = Some room -> user sb = Some b -> localStreamRef sb = Some streamB ->
  peerConnectionsRef sa !! b = None ->
  peerConnectionsRef sb !! a = None ->
  let sa1 := run (createPeerConnection B b name) sa in
  let sb1 := run (handleSignal B offerRow) sb in
  let sa2 := run (handleSignal B answerRow) sa1 in
  webrtc_signals sa1 = webrtc_signals sa ++ [offerRow]
  /\ webrtc_signals sb1 = webrtc_signals sb ++ [answerRow]
  /\ peerConnectionsRef sa2 !! b = Some (length (objects sa))
  /\ peerConnectionsRef sb1 !! a = Some (length (objects sb))
  /\ objects sa2 !! length (objects sa)
     = Some (with_remoteDescription ans (with_localDescription o freshA))
  /\ objects sb1 !! length (objects sb)
     = Some (with_localDescription ans (with_remoteDescription o freshB)).
Proof.
  cbv zeta. intros Hacc Hins Hra Hua Hsa Hrb Hub Hsb Hma Hmb.
  assert (Ea : run (createPeerConnection B b name) sa
    = with_webrtc_signals
        (fun l => l ++ [mkSignal room a b "offer"
          (SessionDescription offer (sdpText B offer
             (mkPC b (ofCreatePeerConnection name) streamA None None [] new None)))])
        (with_console (fun l => l ++ [console_log "Sending offer to:" b])
           (with_objects
              (fun l => l ++ [with_localDescription
                 (SessionDescription offer (sdpText B offer
                    (mkPC b (ofCreatePeerConnection name) streamA None None [] new None)))
                 (mkPC b (ofCreatePeerConnection name) streamA None None [] new None)])
              (with_peerConnectionsRef <[b := length (objects sa)]>
                 (with_console
                    (fun l => l ++ [console_log "Creating peer connection with:" b])
                    sa))))).
  { unfold createPeerConnection, sendSignal, pc_setLocalDescription,
      pc_createOffer, new_RTCPeerConnection, engine, update.
    async_unfold. cbn. rewrite Hsa, Hua. cbn.
    rewrite forEach_addTrack. cbn.
    rewrite alter_last. unfold with_senders. cbn.
    repeat (progress (cbn; rewrite ?alter_last, ?lookup_snoc, ?Hacc, ?Hins, ?Hra, ?Hua)).
    destruct sa. session_simpl. f_equal. by rewrite !alter_last. }
  rewrite Ea. clear Ea.
  assert (Eb : run (handleSignal B (mkSignal room a b "offer"
        (SessionDescription offer (sdpText B offer
           (mkPC b (ofCreatePeerConnection name) streamA None None [] new None))))) sb
    = with_webrtc_signals
        (fun l => l ++ [mkSignal room b a "answer"
          (SessionDescription answer (sdpText B answer
             (with_remoteDescription
                (SessionDescription offer (sdpText B offer
                   (mkPC b (ofCreatePeerConnection name) streamA None None [] new None)))
                (mkPC a ofHandleOffer streamB None None [] new None))))])
        (with_console (fun l => l ++ [console_log "Sending answer to:" a])
           (with_objects
              (fun l => l ++ [with_localDescription
                 (SessionDescription answer (sdpText B answer
                    (with_remoteDescription
                       (SessionDescription offer (sdpText B offer
                          (mkPC b (ofCreatePeerConnection name) streamA None None [] new None)))
                       (mkPC a ofHandleOffer streamB None None [] new None))))
                 (with_remoteDescription
                    (SessionDescription offer (sdpText B offer
                       (mkPC b (ofCreatePeerConnection name) streamA None None [] new None)))
                    (mkPC a ofHandleOffer streamB None None [] new None))])
              (with_peerConnectionsRef <[a := length (objects sb)]>
                 (with_console
                    (fun l => l ++ [console_log "Received signal:" "offer";
                                    console_log "Handling offer from:" a])
                    sb))))).
  { unfold handleSignal, handleOffer, sendSignal, pc_setRemoteDescription,
      pc_setLocalDescription, pc_createAnswer, new_RTCPeerConnection, engine,
      update.
    cbn [signal_type from_user_id signal_data].
    rewrite bool_decide_eq_true_2 by done.
    async_unfold. cbn. rewrite Hsb, Hub. cbn. rewrite Hmb. cbn.
    rewrite forEach_addTrack. cbn.
    rewrite alter_last. unfold with_senders. cbn.
    repeat (progress (cbn; rewrite ?alter_last, ?lookup_snoc, ?Hacc, ?Hins, ?Hrb, ?Hub)).
    destruct sb. session_simpl. f_equal.
    - by rewrite !alter_last.
    - f_equal. by rewrite <- app_assoc. }
  rewrite Eb. clear Eb.
  unfold handleSignal, handleAnswer, pc_setRemoteDescription, engine, update.
  cbn [signal_type from_user_id signal_data].
  rewrite bool_decide_eq_false_2 by done.
  rewrite bool_decide_eq_true_2 by done.
  async_unfold. cbn.
  rewrite lookup_insert_eq. cbn. rewrite lookup_snoc, Hacc. cbn.
  rewrite alter_last, !lookup_snoc, !lookup_insert_eq. done.
Qed.

Lemma offer_answer_handshake_witness :
  webrtc_signals (run (createPeerConnection permissive "b" "b") (started "room" "a"))
  = webrtc_signals (started "room" "a")
    ++ [mkSignal "room" "a" "b" "offer"
          (SessionDescription offer
             (sdpText permissive offer
                (mkPC "b" (ofCreatePeerConnection "b") [0; 1] None None [] new
                   None)))].
Proof.
  apply (proj1 (offer_answer_handshake permissive (started "room" "a")
                  (started "room" "b") "a" "b" "room" "b" [0; 1] [0; 1]
                  (fun _ _ => eq_refl) (fun _ _ => eq_refl)
                  eq_refl eq_refl eq_refl eq_refl eq_refl eq_refl
                  ltac:(vm_compute; reflexivity) ltac:(vm_compute; reflexivity))).
Defined.


(** ** Reconnection *)

Lemma backoff_capped (attempt : nat) : backoff 2000 2000 attempt = 2000.
Proof.
  unfold backoff. apply Nat.min_l.
  pose proof (Nat.pow_nonzero 2 attempt ltac:(done)) as Hp.
  generalize dependent (2 ^ attempt). intros n Hn.
  destruct n as [|n]; [done|]. rewrite Nat.mul_succ_r. apply Nat.le_add_l.
Qed.

(** C3, as the code has it. When a connection that [createPeerConnection]
    constructed goes to [failed] (or to [disconnected]), from [connected]
    or from any other state, its handler schedules one reconnection, at
    the delay of the specification's schedule with [base] and
    [maxBackoff] both 2000 ms: whatever the attempt counter says, the
    delay is the maximum.  So in every state the events lead to, every
    pending reconnection has that delay. *)
Theorem retry_delay_backoff (s : Session) (o : nat) (pc : PeerConnection)
    (participantUsername : string) (st : RTCPeerConnectionState)
    (attempt : nat) :
  objects s !! o = Some pc ->
  handlers pc = ofCreatePeerConnection participantUsername ->
  st = failed \/ st = disconnected ->
  timers (run (onconnectionstatechange o st) s)
  = timers s ++ [mkTimer (backoff 2000 2000 attempt) (remoteUser pc)
                   participantUsername]
  /\ backoff 2000 2000 attempt = 2000
  /\ (forall B events s0 t,
        blank s0 ->
        t ∈ timers (replay B events s0) ->
        delay t = backoff 2000 2000 attempt).
Proof.
  intros Ho Hh Hst. rewrite backoff_capped. split; [|split; [done|]].
  - unfold onconnectionstatechange, update. async_unfold. cbn.
    rewrite list_lookup_alter_eq, Ho. cbn. rewrite Hh.
    by destruct Hst as [-> | ->].
  - intros B events s0 t Hb Hin.
    by apply (inv_timers (replay B events s0)); [apply replay_Inv, blank_is_Inv|].
Qed.

Lemma retry_delay_backoff_witness :
  timers (run (onconnectionstatechange 0 failed)
            (run (onconnectionstatechange 0 connected) alice))
  = timers (run (onconnectionstatechange 0 connected) alice)
    ++ [mkTimer (backoff 2000 2000 1)
          (remoteUser (mkPC "b" (ofCreatePeerConnection "b") [0; 1]
                         (Some (SessionDescription offer "v=0")) None []
                         connected None))
          "b"].
Proof.
  apply (proj1 (retry_delay_backoff
                  (run (onconnectionstatechange 0 connected) alice) 0
                  (mkPC "b" (ofCreatePeerConnection "b") [0; 1]
                     (Some (SessionDescription offer "v=0")) None [] connected
                     None)
                  "b" failed 1
                  ltac:(vm_compute; reflexivity) eq_refl
                  ltac:(left; reflexivity))).
Defined.

(** C3 fails as stated. The connection of "a" to "b" was constructed by
    [handleOffer]. It reaches [connected] and then fails: no retry is
    scheduled, at any delay. *)
Lemma answerer_failure_schedules_no_retry :
  let up := run (onconnectionstatechange 0 connected) answering in
  let down := run (onconnectionstatechange 0 failed) up in
  connectionState <$> objects up !! 0 = Some connected
  /\ connectionState <$> objects down !! 0 = Some failed
  /\ timers down = []
  /\ ~ (exists maxBackoff base attempt t,
          t ∈ timers down /\ delay t = backoff maxBackoff base attempt).
Proof.
  cbv zeta.
  assert (Ht : timers (run (onconnectionstatechange 0 failed)
                         (run (onconnectionstatechange 0 connected) answering))
               = []) by (vm_compute; reflexivity).
  split; [vm_compute; reflexivity|]. split; [vm_compute; reflexivity|].
  split; [exact Ht|]. rewrite Ht. intros (? & ? & ? & t & Hin & _).
  by apply elem_of_nil in Hin.
Qed.


(** ** Signals after a close *)

Lemma handleSignal_answer_unknown (B : Browser) (s : Session)
    (userId r to : string) (d : SignalData) :
  peerConnectionsRef s !! userId = None ->
  run (handleSignal B (mkSignal r userId to "answer" d)) s
  = with_console (fun l => l ++ [console_log "Received signal:" "answer";
                                console_log "Handling answer from:" userId]) s.
Proof.
  intros Hl. unfold handleSignal, handleAnswer.
  cbn [signal_type from_user_id signal_data].
  repeat (case_bool_decide; try done).
  async_unfold. cbn. rewrite Hl. cbn.
  apply with_console_app.
Qed.

Lemma handleSignal_candidate_unknown (B : Browser) (s : Session)
    (userId r to : string) (d : SignalData) :
  peerConnectionsRef s !! userId = None ->
  run (handleSignal B (mkSignal r userId to "ice-candidate" d)) s
  = with_console (fun l => l ++ [console_log "Received signal:" "ice-candidate";
                                console_log "Handling ICE candidate from:" userId]) s.
Proof.
  intros Hl. unfold handleSignal, handleIceCandidate.
  cbn [signal_type from_user_id signal_data].
  repeat (case_bool_decide; try done).
  async_unfold. cbn. rewrite Hl. cbn.
  apply with_console_app.
Qed.

Lemma handleSignal_offer_unknown (B : Browser) (s : Session)
    (userId r to : string) (d : SignalData) :
  peerConnectionsRef s !! userId = None ->
  is_Some (localStreamRef s) -> is_Some (user s) ->
  peerConnectionsRef (run (handleSignal B (mkSignal r userId to "offer" d)) s)
    !! userId = Some (length (objects s))
  /\ length (objects (run (handleSignal B (mkSignal r userId to "offer" d)) s))
     = S (length (objects s)).
Proof.
  intros Hl [localStream Hs] [u Hu].
  unfold handleSignal, handleOffer, sendSignal, pc_setRemoteDescription,
    pc_setLocalDescription, pc_createAnswer, new_RTCPeerConnection, engine,
    update.
  cbn [signal_type from_user_id signal_data].
  repeat (case_bool_decide; try done).
  async_unfold. cbn. rewrite Hs, Hu. cbn. rewrite Hl. cbn.
  rewrite forEach_addTrack. cbn.
  crunch; rewrite ?lookup_insert_eq, ?length_alter, ?length_app; cbn;
    (split; [done|lia]).
Qed.

(** C5, as the code has it. [closePeerConnection] has closed the
    connection of a participant, in any state the events lead to. The
    closed object is terminal: whatever events follow, it stays closed
    and unchanged, and the map never holds it again. The map holds no
    connection for the participant right after the close, and in every
    later state in which it holds none, an answer or an ice-candidate
    from the participant changes nothing but the console, where
    [handleSignal] and the handler each log a line. An offer from the
    participant is not dropped: when the local stream and the user are
    there, it constructs a new connection object for the participant and
    puts it in the map, the closed object staying as it is. *)
Theorem closed_connection_signals (B : Browser) (before after : list Event)
    (s0 : Session) (userId : string) (o : nat) (pc : PeerConnection) :
  blank s0 ->
  peerConnectionsRef (replay B before s0) !! userId = Some o ->
  objects (replay B before s0) !! o = Some pc ->
  let gone := closePeerConnection userId (replay B before s0) in
  let s := replay B after gone in
  peerConnectionsRef gone !! userId = None
  /\ objects s !! o = Some (with_connectionState closed pc)
  /\ (forall userId', peerConnectionsRef s !! userId' ≠ Some o)
  /\ (peerConnectionsRef s !! userId = None ->
      forall r to d,
        run (handleSignal B (mkSignal r userId to "answer" d)) s
        = with_console
            (fun l => l ++ [console_log "Received signal:" "answer";
                            console_log "Handling answer from:" userId]) s
        /\ run (handleSignal B (mkSignal r userId to "ice-candidate" d)) s
           = with_console
               (fun l => l ++ [console_log "Received signal:" "ice-candidate";
                               console_log "Handling ICE candidate from:" userId])
               s)
  /\ (peerConnectionsRef s !! userId = None ->
      is_Some (localStreamRef s) -> is_Some (user s) ->
      forall r to d,
        let s' := run (handleSignal B (mkSignal r userId to "offer" d)) s in
        peerConnectionsRef s' !! userId = Some (length (objects s))
        /\ length (objects s') = S (length (objects s))
        /\ objects s' !! o = Some (with_connectionState closed pc)).
Proof.
  intros Hb Hm Ho. cbv zeta.
  assert (HI : Inv (replay B before s0)) by by apply replay_Inv, blank_is_Inv.
  set (s1 := replay B before s0) in *.
  assert (HIg : Inv (closePeerConnection userId s1))
    by (eapply rtc_Step_Inv; [exact HI|apply closePeerConnection_steps]).
  assert (Hog : objects (closePeerConnection userId s1) !! o
                = Some (with_connectionState closed pc)).
  { unfold closePeerConnection. rewrite Hm. cbn.
    by rewrite list_lookup_alter_eq, Ho. }
  set (gone := closePeerConnection userId s1) in *.
  assert (HIs : Inv (replay B after gone)) by by apply replay_Inv.
  assert (Hos : objects (replay B after gone) !! o
                = Some (with_connectionState closed pc)).
  { destruct (replay_extended B after gone HIg o _ Hog)
      as (pc' & Ho' & _ & _ & _ & _ & _ & Hfrozen).
    by rewrite Ho', (Hfrozen eq_refl). }
  set (s := replay B after gone) in *.
  split; [apply closePeerConnection_lookup|]. split; [done|]. split.
  { intros userId' Hm'.
    destruct (inv_entry s HIs userId' o Hm') as (pc' & Ho' & _ & Hopen).
    rewrite Hos in Ho'. injection Ho' as <-. by apply Hopen. }
  split.
  { intros Hnone r to d.
    by rewrite handleSignal_answer_unknown, handleSignal_candidate_unknown. }
  intros Hnone Hst Hu r to d.
  destruct (handleSignal_offer_unknown B s userId r to d Hnone Hst Hu)
    as [H1 H2].
  split; [done|]. split; [done|].
  destruct (rtc_Step_extended s _ HIs
              (handleSignal_steps B s (mkSignal r userId to "offer" d)) o _ Hos)
    as (pc' & Ho' & _ & _ & _ & _ & _ & Hfrozen).
  by rewrite Ho', (Hfrozen eq_refl).
Qed.

Lemma closed_connection_signals_witness :
  objects
    (replay permissive
       [signalInserted (mkSignal "room" "b" "a" "answer"
                          (SessionDescription answer "v=1"));
        signalInserted (mkSignal "room" "b" "a" "offer"
                          (SessionDescription offer "v=2"));
        signalInserted (mkSignal "room" "b" "a" "ice-candidate"
                          (IceCandidateInit "c1"))]
       (closePeerConnection "b"
          (replay permissive
             [roomInitialized true true;
              participantsChanged [member "a"; member "b"]]
             (mounted "room" "a")))) !! 0
  = Some (with_connectionState closed
            (mkPC "b" (ofCreatePeerConnection "b") [0; 1]
               (Some (SessionDescription offer "v=0")) None [] new None)).
Proof.
  apply (proj1 (proj2 (closed_connection_signals permissive
           [roomInitialized true true;
            participantsChanged [member "a"; member "b"]]
           [signalInserted (mkSignal "room" "b" "a" "answer"
                              (SessionDescription answer "v=1"));
            signalInserted (mkSignal "room" "b" "a" "offer"
                              (SessionDescription offer "v=2"));
            signalInserted (mkSignal "room" "b" "a" "ice-candidate"
                              (IceCandidateInit "c1"))]
           (mounted "room" "a") "b" 0
           (mkPC "b" (ofCreatePeerConnection "b") [0; 1]
              (Some (SessionDescription offer "v=0")) None [] new None)
           (blank_mounted "room" "a")
           ltac:(vm_compute; reflexivity) ltac:(vm_compute; reflexivity)))).
Defined.


(** ** cleanup, over every run *)

(** C9, at the failing input. The effect that calls [initializeRoom] runs
    twice before the first [initializeRoom] has its stream: [cleanup]
    runs in between and finds nothing, both initializations end, and the
    second stream replaces the first in [localStreamRef]. The [cleanup]
    of the unmount then stops the two tracks of the second stream; the
    two tracks of the first stream stay live. *)
Theorem cleanup_misses_replaced_stream :
  let s := replay permissive
             [unmounted; roomInitialized true true; roomInitialized true true]
             (mounted "room" "a") in
  localStreamRef s = Some [2; 3]
  /\ localStreamRef (cleanup s) = None
  /\ peerConnectionsRef (cleanup s) = ∅
  /\ tracks (cleanup s)
     = [mkTrack audio true false; mkTrack video true false;
        mkTrack audio true true; mkTrack video true true]
  /\ stopped <$> tracks (cleanup s) !! 0 = Some false.
Proof. cbv zeta. repeat split; vm_compute; reflexivity. Qed.

(** X29. What [cleanup] does release, in every state the events lead to:
    [peerConnectionsRef] is empty and every connection object that was
    ever constructed is closed, none is lost; the reference to the local
    stream is dropped and every track of the stream it held is stopped,
    the other tracks being left as they are; the channel is released and
    the session is marked as not initialized. *)
Theorem cleanup_releases (B : Browser) (events : list Event) (s0 : Session) :
  blank s0 ->
  let s := replay B events s0 in
  peerConnectionsRef (cleanup s) = ∅
  /\ (forall o pc, objects (cleanup s) !! o = Some pc -> connectionState pc = closed)
  /\ (forall userId o pc,
        peerConnectionsRef s !! userId = Some o ->
        objects s !! o = Some pc ->
        objects (cleanup s) !! o = Some (with_connectionState closed pc))
  /\ length (objects (cleanup s)) = length (objects s)
  /\ localStreamRef (cleanup s) = None
  /\ (forall localStream t tr,
        localStreamRef s = Some localStream ->
        t ∈ localStream ->
        tracks s !! t = Some tr ->
        tracks (cleanup s) !! t = Some (mkTrack (kind tr) (enabled tr) true))
  /\ (forall t,
        (forall localStream, localStreamRef s = Some localStream -> t ∉ localStream) ->
        tracks (cleanup s) !! t = tracks s !! t)
  /\ signalingChannelRef (cleanup s) = false
  /\ isInitializedRef (cleanup s) = false.
Proof.
  intros Hb. cbv zeta.
  assert (HI : Inv (replay B events s0)) by by apply replay_Inv, blank_is_Inv.
  generalize dependent (replay B events s0). intros s HI.
  destruct (cleanup_halted s HI) as (_ & _ & Hclosed).
  split; [by rewrite cleanup_eq|]. split; [exact Hclosed|].
  rewrite cleanup_eq. cbn. repeat split.
  - intros userId o pc Hm Ho.
    rewrite foldl_alter_lookup by done. rewrite Ho.
    rewrite decide_True; [done|].
    apply list_elem_of_fmap. exists (userId, o). split; [done|].
    by apply elem_of_map_to_list.
  - generalize (map_to_list (peerConnectionsRef s)).*2. intros l.
    generalize (objects s). induction l as [|x l IH]; intros os; cbn; [done|].
    by rewrite IH, length_alter.
  - intros localStream t tr Hs Ht Htr. rewrite Hs.
    rewrite foldl_alter_lookup by done.
    by rewrite decide_True, Htr.
  - intros t Hnin. destruct (localStreamRef s) as [stream|]; [|done].
    rewrite foldl_alter_lookup by done. by rewrite decide_False by by apply Hnin.
Qed.

Lemma cleanup_releases_witness :
  tracks (cleanup (replay permissive busy (mounted "room" "a"))) !! 1
  = Some (mkTrack (kind (mkTrack video true false))
            (enabled (mkTrack video true false)) true).
Proof.
  apply (proj1 (proj2 (proj2 (proj2 (proj2 (proj2
           (cleanup_releases permissive busy (mounted "room" "a")
              (blank_mounted "room" "a")))))))
           [0; 1] 1 (mkTrack video true false)).
  - vm_compute. reflexivity.
  - apply list_elem_of_further, list_elem_of_here.
  - vm_compute. reflexivity.
Defined.


(** ** Who offers *)

Lemma Step_rows (s s' : Session) :
  Step s s' -> webrtc_signals s `prefix_of` webrtc_signals s'.
Proof.
  intros [s2 (_ & _ & _ & _ & -> & _)| | | | | |]; cbn; try done.
  by apply prefix_app_r.
Qed.

Lemma rtc_Step_rows (s s' : Session) :
  rtc Step s s' -> webrtc_signals s `prefix_of` webrtc_signals s'.
Proof.
  intros H. induction H as [|s1 s2 s3 H12 H23 IH]; [done|].
  etrans; [by apply Step_rows|done].
Qed.

Lemma createPeerConnection_accepted (B : Browser) (s : Session)
    (participantUserId participantUsername : string)
    (localStream : list nat) (u r : string) :
  (forall c pc, rejects B c pc = None) ->
  (forall s' row, insert B s' row = inserted) ->
  localStreamRef s = Some localStream -> user s = Some u -> roomId s = Some r ->
  webrtc_signals (run (createPeerConnection B participantUserId participantUsername) s)
  = webrtc_signals s
    ++ [mkSignal r u participantUserId "offer"
          (SessionDescription offer
             (sdpText B offer
                (mkPC participantUserId (ofCreatePeerConnection participantUsername)
                   localStream None None [] new None)))].
Proof.
  intros Hacc Hins Hs Hu Hr.
  unfold createPeerConnection, sendSignal, pc_setLocalDescription,
    pc_createOffer, new_RTCPeerConnection, engine, update.
  async_unfold. cbn. rewrite Hs, Hu. cbn.
  rewrite forEach_addTrack. cbn.
  rewrite alter_last. unfold with_senders. cbn.
  by repeat (progress (cbn; rewrite ?alter_last, ?lookup_snoc, ?Hacc, ?Hins, ?Hr, ?Hu)).
Qed.

Lemma ensure_steps (B : Browser) (u : string) (s : Session) (p : Participant) :
  rtc Step s (ensure B u s p).
Proof.
  unfold ensure. case_decide as Hd; [|apply rtc_refl].
  apply createPeerConnection_steps. tauto.
Qed.

Lemma prune_steps (u : string) (participants : list Participant) (s : Session)
    (userId : string) :
  rtc Step s (prune u participants s userId).
Proof.
  unfold prune. case_decide; [apply closePeerConnection_steps|apply rtc_refl].
Qed.

Lemma foldl_ensure_offers (B : Browser) (u r : string) (localStream : list nat)
    (l : list Participant) (s : Session) (userId : string) :
  (forall c pc, rejects B c pc = None) ->
  (forall s' row, insert B s' row = inserted) ->
  ready u s -> roomId s = Some r -> localStreamRef s = Some localStream ->
  userId ∈ user_id <$> l -> userId ≠ u ->
  peerConnectionsRef s !! userId = None ->
  exists name,
    mkSignal r u userId "offer"
      (SessionDescription offer
         (sdpText B offer
            (mkPC userId (ofCreatePeerConnection name) localStream None None []
               new None)))
    ∈ webrtc_signals (foldl (ensure B u) s l).
Proof.
  intros Hacc Hins. revert s.
  induction l as [|x l IH]; intros s Hready Hr Hs Hin Hne Hnone; cbn.
  { by apply elem_of_nil in Hin. }
  destruct (decide (user_id x = userId)) as [<-|Hx].
  - exists (username x).
    eapply elem_of_prefix;
      [|apply rtc_Step_rows, (foldl_steps (ensure B u)), ensure_steps].
    unfold ensure. rewrite decide_True by done.
    destruct Hready as (Hu & _ & _).
    rewrite (createPeerConnection_accepted B s (user_id x) (username x)
               localStream u r) by done.
    apply elem_of_app. right. apply list_elem_of_here.
  - cbn in Hin. apply elem_of_cons in Hin as [->|Hin]; [done|].
    apply IH; try done.
    + by apply ensure_ready.
    + destruct (rtc_Step_ids _ _ (ensure_steps B u s x)) as [-> _]. done.
    + unfold ensure. case_decide; [|done].
      destruct Hready as (Hu & _ & _).
      destruct (createPeerConnection_refs B s (user_id x) (username x))
        as (_ & _ & _ & _ & ->); [by eexists|by eexists|done].
    + rewrite ensure_lookup by done. rewrite Hnone.
      rewrite decide_False; [done|]. intros [-> _]. done.
Qed.

Lemma reconcile_offers (B : Browser) (u r : string) (localStream : list nat)
    (participants : list Participant) (s : Session) (userId : string) :
  (forall c pc, rejects B c pc = None) ->
  (forall s' row, insert B s' row = inserted) ->
  roomId s = Some r -> user s = Some u -> isInitializedRef s = true ->
  localStreamRef s = Some localStream ->
  userId ∈ user_id <$> participants -> userId ≠ u ->
  peerConnectionsRef s !! userId = None ->
  exists name,
    mkSignal r u userId "offer"
      (SessionDescription offer
         (sdpText B offer
            (mkPC userId (ofCreatePeerConnection name) localStream None None []
               new None)))
    ∈ webrtc_signals (run (reconcile B participants) s).
Proof.
  intros Hacc Hins Hr Hu Hi Hs Hin Hne Hnone.
  assert (Hready : ready u s) by (repeat split; [done|done|by eexists]).
  destruct (foldl_ensure_offers B u r localStream participants s userId)
    as [name Hrow]; try done.
  exists name. unfold run. rewrite (reconcile_folds B u) by done. cbn.
  eapply elem_of_prefix; [exact Hrow|].
  apply rtc_Step_rows, (foldl_steps (prune u participants)), prune_steps.
Qed.

Lemma sendSignal_rows (B : Browser) (s : Session) (toUserId signalType : string)
    (signalData : SignalData) (row : Signal) :
  row ∈ webrtc_signals (sendSignal B toUserId signalType signalData s).2 ->
  row ∈ webrtc_signals s \/ signal_type row = signalType.
Proof.
  unfold sendSignal. async_unfold. crunch; cbn; auto.
  rewrite elem_of_app, list_elem_of_singleton. intros [?| ->]; auto.
Qed.

Lemma handleOffer_rows (B : Browser) (s : Session) (fromUserId : string)
    (d : SignalData) (row : Signal) :
  row ∈ webrtc_signals (run (handleOffer B fromUserId d) s) ->
  row ∈ webrtc_signals s \/ signal_type row = "answer".
Proof.
  unfold handleOffer, pc_setRemoteDescription, pc_setLocalDescription,
    pc_createAnswer, new_RTCPeerConnection, engine, update.
  async_unfold. cbn.
  destruct (localStreamRef s) as [localStream|]; [|by left].
  destruct (user s); [|by left]. cbn.
  destruct (peerConnectionsRef s !! fromUserId) as [o|] eqn:Hm; cbn;
    rewrite ?forEach_addTrack; cbn;
    crunch; cbn; auto;
    match goal with
    | H : sendSignal B ?a ?b ?c ?st = (_, ?x) |- _ =>
        intros Hin;
        pose proof (sendSignal_rows B st a b c row) as Hrow;
        rewrite H in Hrow; by apply Hrow in Hin
    end.
Qed.

(** C10, as the code has it. A call of [createPeerConnection] that the
    engine does not reject constructs the connection with the local
    tracks, sets an offer as its local description and calls [sendSignal]
    with that offer for the remote participant; nothing in it depends on
    how the two ids compare.  So when each of two participants finds the
    other in its list while it holds no connection to it, both send an
    offer.  A connection that [handleOffer] constructs sends no offer:
    whatever [handleOffer] inserts is an answer. *)
Theorem createPeerConnection_offers (B : Browser) :
  (forall (s : Session) (participantUserId participantUsername : string)
          (localStream : list nat) (u : string),
     let pc := length (objects s) in
     let fresh := mkPC participantUserId (ofCreatePeerConnection participantUsername)
                    localStream None None [] new None in
     let o := SessionDescription offer (sdpText B offer fresh) in
     localStreamRef s = Some localStream ->
     user s = Some u ->
     rejects B createOffer fresh = None ->
     rejects B (setLocalDescription o) fresh = None ->
     createPeerConnection B participantUserId participantUsername s
     = (Resolved (Some pc),
        run (sendSignal B participantUserId "offer" o)
          (with_console
             (fun l => l ++ [console_log "Sending offer to:" participantUserId])
             (with_objects (fun l => l ++ [with_localDescription o fresh])
                (with_peerConnectionsRef <[participantUserId := pc]>
                   (with_console
                      (fun l => l ++ [console_log "Creating peer connection with:"
                                        participantUserId]) s))))))
  /\ (forall (sa sb : Session) (a b r : string) (la lb : list Participant)
             (streamA streamB : list nat),
        (forall c pc, rejects B c pc = None) ->
        (forall s row, insert B s row = inserted) ->
        roomId sa = Some r -> user sa = Some a -> isInitializedRef sa = true ->
        localStreamRef sa = Some streamA ->
        roomId sb = Some r -> user sb = Some b -> isInitializedRef sb = true ->
        localStreamRef sb = Some streamB ->
        a ≠ b ->
        b ∈ user_id <$> la -> a ∈ user_id <$> lb ->
        peerConnectionsRef sa !! b = None -> peerConnectionsRef sb !! a = None ->
        (exists name,
           mkSignal r a b "offer"
             (SessionDescription offer
                (sdpText B offer
                   (mkPC b (ofCreatePeerConnection name) streamA None None []
                      new None)))
           ∈ webrtc_signals (run (reconcile B la) sa))
        /\ (exists name,
              mkSignal r b a "offer"
                (SessionDescription offer
                   (sdpText B offer
                      (mkPC a (ofCreatePeerConnection name) streamB None None []
                         new None)))
              ∈ webrtc_signals (run (reconcile B lb) sb)))
  /\ (forall (s : Session) (fromUserId : string) (d : SignalData) (row : Signal),
        row ∈ webrtc_signals (run (handleOffer B fromUserId d) s) ->
        row ∈ webrtc_signals s \/ signal_type row = "answer").
Proof.
  split; [|split].
  - intros s participantUserId participantUsername localStream u.
    cbv zeta. intros Hs Hu Hco Hsl.
    unfold createPeerConnection, pc_setLocalDescription, pc_createOffer,
      new_RTCPeerConnection, engine, update.
    async_unfold. cbn. rewrite Hs, Hu. cbn.
    rewrite forEach_addTrack. cbn.
    rewrite alter_last. unfold with_senders. cbn.
    rewrite lookup_snoc, Hco. cbn.
    rewrite alter_last. cbn. rewrite lookup_snoc, Hsl. cbn.
    match goal with
    | |- _ = (_, (sendSignal B _ _ _ ?st2).2) =>
        match goal with
        | |- context [sendSignal B ?a ?b ?c ?st1] =>
            replace st2 with st1;
              [ pose proof (sendSignal_resolves B st1 a b c) as Hres;
                destruct (sendSignal B a b c st1) as [res st'];
                cbn in Hres; by subst res
              | ]
        end
    end.
    destruct s. session_simpl.
    f_equal. by rewrite list_alter_alter_eq, alter_last.
  - intros sa sb a b r la lb streamA streamB Hacc Hins
      Hra Hua Hia Hsa Hrb Hub Hib Hsb Hab Hinb Hina Hma Hmb.
    split.
    + by apply (reconcile_offers B a r streamA la sa b).
    + by apply (reconcile_offers B b r streamB lb sb a).
  - apply handleOffer_rows.
Qed.

Lemma createPeerConnection_offers_witness :
  (exists name,
     mkSignal "room" "a" "b" "offer"
       (SessionDescription offer
          (sdpText permissive offer
             (mkPC "b" (ofCreatePeerConnection name) [0; 1] None None [] new None)))
     ∈ webrtc_signals
         (run (reconcile permissive [member "a"; member "b"]) (started "room" "a")))
  /\ (exists name,
        mkSignal "room" "b" "a" "offer"
          (SessionDescription offer
             (sdpText permissive offer
                (mkPC "a" (ofCreatePeerConnection name) [0; 1] None None [] new
                   None)))
        ∈ webrtc_signals
            (run (reconcile permissive [member "b"; member "a"])
               (started "room" "b"))).
Proof.
  apply (proj1 (proj2 (createPeerConnection_offers permissive))
           (started "room" "a") (started "room" "b") "a" "b" "room"
           [member "a"; member "b"] [member "b"; member "a"] [0; 1] [0; 1]
           (fun _ _ => eq_refl) (fun _ _ => eq_refl)
           eq_refl eq_refl eq_refl eq_refl eq_refl eq_refl eq_refl eq_refl).
  - discriminate.
  - apply list_elem_of_further, list_elem_of_here.
  - apply list_elem_of_further, list_elem_of_here.
  - reflexivity.
  - reflexivity.
Defined.

(** C10 fails as stated. "a" finds "b" in its list and sends its offer.
    The offer reaches "b" before "b" has seen "a" in its own list:
    [handleOffer] constructs the connection of "b" to "a" and answers,
    and the participants effect of "b", run afterwards, finds that
    connection. The two have discovered each other, "b" has created a
    connection, and "b" has sent no offer. *)
Lemma answering_side_sends_no_offer :
  webrtc_signals alice
  = [mkSignal "room" "a" "b" "offer" (SessionDescription offer "v=0")]
  /\ peerConnectionsRef bob_late !! "a" = Some 0
  /\ objects bob_late
     = [mkPC "a" ofHandleOffer [0; 1]
          (Some (SessionDescription answer "v=0"))
          (Some (SessionDescription offer "v=0")) [] new None]
  /\ webrtc_signals bob_late
     = [mkSignal "room" "b" "a" "answer" (SessionDescription answer "v=0")]
  /\ ~ (exists row, row ∈ webrtc_signals bob_late /\ signal_type row = "offer").
Proof.
  assert (Hrows : webrtc_signals bob_late
                  = [mkSignal "room" "b" "a" "answer"
                       (SessionDescription answer "v=0")])
    by (vm_compute; reflexivity).
  split; [vm_compute; reflexivity|]. split; [vm_compute; reflexivity|].
  split; [vm_compute; reflexivity|]. split; [exact Hrows|].
  rewrite Hrows. intros (row & Hin & Hty).
  apply list_elem_of_singleton in Hin as ->. discriminate Hty.
Qed.


(** ** The page *)

Lemma trimStart_head (text : Text) (c : N) :
  head (trimStart text) = Some c -> isWhiteSpace c = false.
Proof.
  induction text as [|d rest IH]; cbn; [done|].
  destruct (isWhiteSpace d) eqn:Hd; [done|].
  cbn. by intros [= <-].
Qed.

Lemma trimStart_fixed (text : Text) (c : N) :
  isWhiteSpace c = false -> trimStart (c :: text) = c :: text.
Proof. intros Hc. cbn. by rewrite Hc. Qed.

Lemma trimStart_snoc (text : Text) (c : N) :
  isWhiteSpace c = false -> trimStart (text ++ [c]) = trimStart text ++ [c].
Proof.
  intros Hc. induction text as [|d rest IH]; cbn.
  - by rewrite Hc.
  - by destruct (isWhiteSpace d).
Qed.

Lemma trimEnd_cons (text : Text) (c : N) :
  isWhiteSpace c = false -> trimEnd (c :: text) = c :: trimEnd text.
Proof.
  intros Hc. unfold trimEnd.
  by rewrite reverse_cons, trimStart_snoc, reverse_app.
Qed.

Lemma trimEnd_last (text : Text) (c : N) :
  last (trimEnd text) = Some c -> isWhiteSpace c = false.
Proof.
  unfold trimEnd. rewrite last_reverse. apply trimStart_head.
Qed.

Lemma trimEnd_involutive (text : Text) : trimEnd (trimEnd text) = trimEnd text.
Proof.
  unfold trimEnd. rewrite reverse_involutive. f_equal.
  destruct (trimStart (reverse text)) as [|c rest] eqn:Ht; [done|].
  apply trimStart_fixed. apply (trimStart_head (reverse text)). by rewrite Ht.
Qed.

Lemma trim_head (text : Text) (c : N) :
  head (trim text) = Some c -> isWhiteSpace c = false.
Proof.
  unfold trim. destruct (trimStart text) as [|d rest] eqn:Ht; [done|].
  assert (isWhiteSpace d = false) as Hd
    by (apply (trimStart_head text); by rewrite Ht).
  rewrite trimEnd_cons by done. cbn. by intros [= <-].
Qed.

Lemma trim_last (text : Text) (c : N) :
  last (trim text) = Some c -> isWhiteSpace c = false.
Proof. apply trimEnd_last. Qed.

Lemma trim_involutive (text : Text) : trim (trim text) = trim text.
Proof.
  unfold trim. destruct (trimStart text) as [|d rest] eqn:Ht; [done|].
  assert (isWhiteSpace d = false) as Hd
    by (apply (trimStart_head text); by rewrite Ht).
  rewrite trimEnd_cons by done.
  rewrite trimStart_fixed by done.
  rewrite <- trimEnd_cons by done. apply trimEnd_involutive.
Qed.

Lemma usernameOr_nonempty (profiles : option Profiles) :
  usernameOr profiles <> "".
Proof.
  destruct profiles as [[[name|]]|]; cbn; try done.
  by case_bool_decide.
Qed.

(** X21. [fetchRoom] leaves [loading] false whatever the query does.
    When the query finds the room, the room is stored and nothing else
    happens.  When it resolves with an error or without a row, nothing is
    stored, the toast "Room not found" is shown and the page asks for the
    list of rooms.  When it throws, the error is logged and nothing else
    happens.  No path touches the participants, the messages or the
    connections. *)
Theorem fetchRoom_clears_loading (Q : Supabase) (p : Page) :
  loading (fetchRoom Q p) = false
  /\ (forall data,
        selectRoom Q p = fulfilled (Some data) None ->
        room (fetchRoom Q p) = Some data
        /\ navigations (fetchRoom Q p) = navigations p
        /\ console (session (fetchRoom Q p)) = console (session p))
  /\ (forall data error,
        selectRoom Q p = fulfilled data error ->
        data = None \/ is_Some error ->
        room (fetchRoom Q p) = room p
        /\ navigations (fetchRoom Q p) = navigations p ++ ["/study-rooms"]
        /\ console (session (fetchRoom Q p))
           = console (session p) ++ [toast "Error" "Room not found"])
  /\ (forall err,
        selectRoom Q p = failedWith err ->
        room (fetchRoom Q p) = room p
        /\ navigations (fetchRoom Q p) = navigations p
        /\ console (session (fetchRoom Q p))
           = console (session p) ++ [console_error "Error fetching room:" err])
  /\ participants (fetchRoom Q p) = participants p
  /\ messages (fetchRoom Q p) = messages p
  /\ peerConnectionsRef (session (fetchRoom Q p)) = peerConnectionsRef (session p)
  /\ isInitializedRef (session (fetchRoom Q p)) = isInitializedRef (session p).
Proof.
  unfold fetchRoom.
  split; [by destruct (selectRoom Q p) as [[?|] [?|]|?]|].
  split; [by intros data ->|].
  split.
  { intros data error -> [->|[err ->]]; [by destruct error|by destruct data]. }
  split; [by intros err ->|].
  by destruct (selectRoom Q p) as [[?|] [?|]|?].
Qed.

Lemma fetchRoom_clears_loading_witness :
  room (fetchRoom missing (firstRender "room" "a")) = None
  /\ navigations (fetchRoom missing (firstRender "room" "a")) = [] ++ ["/study-rooms"]
  /\ console (session (fetchRoom missing (firstRender "room" "a")))
     = [] ++ [toast "Error" "Room not found"].
Proof.
  apply (proj1 (proj2 (proj2 (fetchRoom_clears_loading missing
           (firstRender "room" "a")))) None (Some "PGRST116") eq_refl).
  by left.
Defined.

(** X22. When the query resolves with rows and no error,
    [fetchParticipants] replaces the list by one entry for each row, in
    the order of the rows, with the row's [id], [user_id] and
    [is_active]; the entry's name is the username of the row's profile,
    and it is "Unknown" when the row has no profile or the username is
    null or empty.  When the query resolves with an error or without
    rows the page is left as it is; when it throws, the error is logged
    and the list is left as it is. *)
Theorem fetchParticipants_names (Q : Supabase) (p : Page) :
  (forall data,
     selectParticipants Q p = fulfilled (Some data) None ->
     Forall2
       (fun r x =>
          id x = participant_id r
          /\ user_id x = participant_user_id r
          /\ is_active x = participant_is_active r
          /\ (forall name,
                participant_profiles r = Some (mkProfiles (Some name)) ->
                name <> "" -> username x = name)
          /\ (participant_profiles r = None
              \/ participant_profiles r = Some (mkProfiles None)
              \/ participant_profiles r = Some (mkProfiles (Some "")) ->
              username x = "Unknown"))
       data (participants (fetchParticipants Q p))
     /\ session (fetchParticipants Q p) = session p)
  /\ (forall data error,
        selectParticipants Q p = fulfilled data error ->
        data = None \/ is_Some error ->
        fetchParticipants Q p = p)
  /\ (forall err,
        selectParticipants Q p = failedWith err ->
        participants (fetchParticipants Q p) = participants p
        /\ console (session (fetchParticipants Q p))
           = console (session p)
             ++ [console_error "Error fetching participants:" err]).
Proof.
  unfold fetchParticipants. split; [|split].
  - intros data ->. split; [|done]. cbn.
    apply Forall2_fmap_r, Forall_Forall2_diag, Forall_forall. intros r _. cbn.
    repeat split.
    + intros name -> Hne. cbn. by rewrite bool_decide_eq_false_2.
    + by intros [->|[->| ->]].
  - intros data error -> [->|[err ->]]; [done|]. by destruct data.
  - by intros err ->.
Qed.

Lemma fetchParticipants_names_witness :
  fetchParticipants locked (firstRender "room" "a") = firstRender "room" "a".
Proof.
  apply (proj1 (proj2 (fetchParticipants_names locked (firstRender "room" "a")))
           None (Some "denied") eq_refl).
  by left.
Defined.

(** X23. After [fetchMessages] the list is the old one, or it has one
    entry for each row of the answer, in the order of the rows and with
    their texts unchanged, and no entry has an empty author name. *)
Theorem fetchMessages_names (Q : Supabase) (p : Page) :
  messages (fetchMessages Q p) = messages p
  \/ exists data,
       selectMessages Q p = fulfilled (Some data) None
       /\ content <$> messages (fetchMessages Q p) = message_content <$> data
       /\ Forall (fun m => chat_username m <> "")
            (messages (fetchMessages Q p)).
Proof.
  unfold fetchMessages.
  destruct (selectMessages Q p) as [[data|] [err|]|err]; cbn; auto.
  right. exists data. split; [done|]. split.
  - rewrite <- list_fmap_compose. by apply list_fmap_ext.
  - apply Forall_fmap, Forall_forall. intros r _. cbn.
    apply usernameOr_nonempty.
Qed.

Lemma stopLocalTracks_frame (s : Session) :
  localStreamRef (stopLocalTracks s) = localStreamRef s
  /\ objects (stopLocalTracks s) = objects s
  /\ peerConnectionsRef (stopLocalTracks s) = peerConnectionsRef s
  /\ signalingChannelRef (stopLocalTracks s) = signalingChannelRef s
  /\ isInitializedRef (stopLocalTracks s) = isInitializedRef s
  /\ console (stopLocalTracks s) = console s
  /\ tracks (stopLocalTracks s)
     = match localStreamRef s with
       | Some stream => foldl (fun ts t => alter track_stop t ts) (tracks s) stream
       | None => tracks s
       end.
Proof.
  unfold stopLocalTracks. destruct (localStreamRef s) as [stream|] eqn:Hs.
  - rewrite foldl_with_tracks. cbn. by rewrite Hs.
  - by rewrite Hs.
Qed.

(** X24. [handleLeaveRoom] first stops every track of the local stream,
    and only those.  Then, when the delete resolves without error, it
    navigates to the list of rooms at once and reports nothing; when the
    delete resolves with an error or throws, it logs the error, shows the
    toast "Failed to leave room" and schedules the same navigation in
    500 ms.  The stream reference, the peer connections, the channel and
    [isInitializedRef] are left as they are. *)
Theorem handleLeaveRoom_always_leaves (Q : Supabase) (p : Page) :
  let stopped := with_session stopLocalTracks p in
  (forall data,
     deleteParticipant Q stopped = fulfilled data None ->
     navigations (handleLeaveRoom Q p) = navigations p ++ ["/study-rooms"]
     /\ timeouts (handleLeaveRoom Q p) = timeouts p
     /\ console (session (handleLeaveRoom Q p)) = console (session p))
  /\ (forall err,
        (exists data, deleteParticipant Q stopped = fulfilled data (Some err))
        \/ deleteParticipant Q stopped = failedWith err ->
        navigations (handleLeaveRoom Q p) = navigations p
        /\ timeouts (handleLeaveRoom Q p) = timeouts p ++ [(500, "/study-rooms")]
        /\ console (session (handleLeaveRoom Q p))
           = console (session p)
             ++ [console_error "Error leaving room:" err;
                 toast "Error" "Failed to leave room"])
  /\ (forall localStream t tr,
        localStreamRef (session p) = Some localStream ->
        t ∈ localStream ->
        tracks (session p) !! t = Some tr ->
        tracks (session (handleLeaveRoom Q p)) !! t
        = Some (mkTrack (kind tr) (enabled tr) true))
  /\ (forall t,
        (forall localStream, localStreamRef (session p) = Some localStream ->
                             t ∉ localStream) ->
        tracks (session (handleLeaveRoom Q p)) !! t = tracks (session p) !! t)
  /\ localStreamRef (session (handleLeaveRoom Q p)) = localStreamRef (session p)
  /\ objects (session (handleLeaveRoom Q p)) = objects (session p)
  /\ peerConnectionsRef (session (handleLeaveRoom Q p))
     = peerConnectionsRef (session p)
  /\ signalingChannelRef (session (handleLeaveRoom Q p))
     = signalingChannelRef (session p)
  /\ isInitializedRef (session (handleLeaveRoom Q p))
     = isInitializedRef (session p).
Proof.
  cbv zeta. unfold handleLeaveRoom.
  destruct (stopLocalTracks_frame (session p))
    as (Hl & Ho & Hm & Hc & Hi & Hcon & Ht).
  set (p1 := with_session stopLocalTracks p).
  assert (Hs1 : session p1 = stopLocalTracks (session p)) by done.
  assert (Hn1 : navigations p1 = navigations p) by done.
  assert (Ht1 : timeouts p1 = timeouts p) by done.
  assert (Htracks : forall q, tracks (session q) = tracks (session p1) ->
            (forall localStream t tr,
               localStreamRef (session p) = Some localStream ->
               t ∈ localStream ->
               tracks (session p) !! t = Some tr ->
               tracks (session q) !! t = Some (mkTrack (kind tr) (enabled tr) true))
            /\ (forall t,
                  (forall localStream,
                     localStreamRef (session p) = Some localStream ->
                     t ∉ localStream) ->
                  tracks (session q) !! t = tracks (session p) !! t)).
  { intros q ->. rewrite Hs1, Ht. split.
    - intros localStream t tr Hst Hin Htr. rewrite Hst.
      rewrite foldl_alter_lookup by done. by rewrite decide_True, Htr.
    - intros t Hnin. destruct (localStreamRef (session p)) as [stream|]; [|done].
      rewrite foldl_alter_lookup by done. by rewrite decide_False by by apply Hnin. }
  clearbody p1.
  destruct (deleteParticipant Q p1) as [data [err|]|err] eqn:Hd; cbn;
    rewrite ?Hs1, ?Hn1, ?Ht1, ?Hl, ?Ho, ?Hm, ?Hc, ?Hi, ?Hcon.
  - split; [by intros ? [=]|]. split.
    { intros e [[d [= _ <-]]|[=]]. by rewrite <- app_assoc. }
    destruct (Htracks (setTimeout 500 "/study-rooms"
                (report (toast "Error" "Failed to leave room")
                   (report (console_error "Error leaving room:" err) p1))))
      as [H1 H2]; [done|]. cbn in H1, H2. rewrite Hs1 in H1, H2.
    by repeat split.
  - split; [done|]. split; [by intros e [[d [=]]|[=]]|].
    destruct (Htracks (navigate "/study-rooms" p1)) as [H1 H2]; [done|].
    cbn in H1, H2. rewrite Hs1 in H1, H2. by repeat split.
  - split; [by intros ? [=]|]. split.
    { intros e [[d [=]]|[= <-]]. by rewrite <- app_assoc. }
    destruct (Htracks (setTimeout 500 "/study-rooms"
                (report (toast "Error" "Failed to leave room")
                   (report (console_error "Error leaving room:" err) p1))))
      as [H1 H2]; [done|]. cbn in H1, H2. rewrite Hs1 in H1, H2.
    by repeat split.
Qed.

Lemma handleLeaveRoom_always_leaves_witness :
  tracks (session (handleLeaveRoom locked
                     (mkPage (started "room" "a") None [] [] [] false [] [] [])))
    !! 0
  = Some (mkTrack (kind (mkTrack audio true false))
            (enabled (mkTrack audio true false)) true).
Proof.
  apply (proj1 (proj2 (proj2 (handleLeaveRoom_always_leaves locked
           (mkPage (started "room" "a") None [] [] [] false [] [] []))))
           [0; 1] 0 (mkTrack audio true false)).
  - reflexivity.
  - apply list_elem_of_here.
  - reflexivity.
Defined.

(** X25. A row that [handleSendMessage] inserts carries the user's id and
    the trimmed text: the text is not empty, neither its first nor its
    last code unit is white space, and trimming it again changes nothing.
    A message of white space only, or one typed while no user is signed
    in, inserts nothing and leaves the input as it is. *)
Theorem handleSendMessage_rows (Q : Supabase) (p : Page) :
  room_chat_messages (handleSendMessage Q p) = room_chat_messages p
  /\ (trim (newMessage p) = [] \/ user (session p) = None ->
      handleSendMessage Q p = p)
  \/ exists row,
       room_chat_messages (handleSendMessage Q p)
       = room_chat_messages p ++ [row]
       /\ user (session p) = Some (insert_user_id row)
       /\ insert_room_id row = roomId (session p)
       /\ insert_content row = trim (newMessage p)
       /\ insert_content row <> []
       /\ trim (insert_content row) = insert_content row
       /\ (forall c, head (insert_content row) = Some c \/
                     last (insert_content row) = Some c ->
                     isWhiteSpace c = false)
       /\ newMessage (handleSendMessage Q p) = [].
Proof.
  unfold handleSendMessage.
  pose proof (trim_involutive (newMessage p)) as Hinv.
  pose proof (trim_head (newMessage p)) as Hh.
  pose proof (trim_last (newMessage p)) as Hl.
  revert Hinv Hh Hl.
  destruct (trim (newMessage p)) as [|c rest] eqn:Ht; intros Hinv Hh Hl.
  { left. split; [done|]. by destruct (user (session p)). }
  destruct (user (session p)) as [u|] eqn:Hu; [|left; by split].
  destruct (insertMessage Q p _) eqn:Hins.
  - right. eexists. split; [done|]. cbn -[trim].
    repeat split; try done.
    intros d [Hd|Hd]; [by apply Hh|by apply Hl].
  - left. split; [done|]. by intros [|].
  - left. split; [done|]. by intros [|].
Qed.

(** X26. When the insert of a chat message resolves with an error in its
    result, [handleSendMessage] clears the input as after a success: the
    row is not stored, the text is gone and nothing is reported. *)
Theorem handleSendMessage_ignores_returned_error (Q : Supabase) (p : Page)
    (u err : string) :
  trim (newMessage p) <> [] ->
  user (session p) = Some u ->
  insertMessage Q p (mkChatInsert (roomId (session p)) u (trim (newMessage p)))
  = resolvedWithError err ->
  newMessage (handleSendMessage Q p) = []
  /\ room_chat_messages (handleSendMessage Q p) = room_chat_messages p
  /\ console (session (handleSendMessage Q p)) = console (session p).
Proof.
  intros Ht Hu Hins. unfold handleSendMessage.
  destruct (trim (newMessage p)) as [|c rest] eqn:Htr; [done|].
  by rewrite Hu, Hins.
Qed.

Lemma handleSendMessage_ignores_returned_error_witness :
  newMessage (handleSendMessage locked
                (mkPage (started "room" "a") None [] [] [32; 104; 105; 10]%N
                   false [] [] []))
  = [].
Proof.
  apply (handleSendMessage_ignores_returned_error locked
           (mkPage (started "room" "a") None [] [] [32; 104; 105; 10]%N
              false [] [] []) "a" "denied").
  - vm_compute. discriminate.
  - reflexivity.
  - reflexivity.
Defined.

Lemma fetchRoom_session (Q : Supabase) (p : Page) :
  exists l, session (fetchRoom Q p) = with_console (fun c => c ++ l) (session p).
Proof.
  unfold fetchRoom.
  destruct (selectRoom Q p) as [[data|] [err|]|err];
    try (by eexists);
    exists []; cbn; destruct (session p); unfold with_console; cbn;
    by rewrite app_nil_r.
Qed.

Lemma fetchParticipants_session (Q : Supabase) (p : Page) :
  exists l,
    session (fetchParticipants Q p) = with_console (fun c => c ++ l) (session p).
Proof.
  unfold fetchParticipants.
  destruct (selectParticipants Q p) as [[data|] [err|]|err];
    try (by eexists);
    exists []; cbn; destruct (session p); unfold with_console; cbn;
    by rewrite app_nil_r.
Qed.

Lemma fetchMessages_session (Q : Supabase) (p : Page) :
  exists l,
    session (fetchMessages Q p) = with_console (fun c => c ++ l) (session p).
Proof.
  unfold fetchMessages.
  destruct (selectMessages Q p) as [[data|] [err|]|err];
    try (by eexists);
    exists []; cbn; destruct (session p); unfold with_console; cbn;
    by rewrite app_nil_r.
Qed.

Lemma fetchParticipants_loading (Q : Supabase) (p : Page) :
  loading (fetchParticipants Q p) = loading p
  /\ navigations (fetchParticipants Q p) = navigations p.
Proof.
  unfold fetchParticipants.
  by destruct (selectParticipants Q p) as [[data|] [err|]|err].
Qed.

Lemma fetchMessages_loading (Q : Supabase) (p : Page) :
  loading (fetchMessages Q p) = loading p
  /\ navigations (fetchMessages Q p) = navigations p.
Proof.
  unfold fetchMessages.
  by destruct (selectMessages Q p) as [[data|] [err|]|err].
Qed.

Lemma initializeSession_refs (B : Browser) (audioOn videoOn : bool)
    (s : Session) :
  isInitializedRef (initializeSession B audioOn videoOn s) = true
  /\ (is_Some (roomId s) -> is_Some (user s) ->
      signalingChannelRef (initializeSession B audioOn videoOn s) = true).
Proof.
  unfold initializeSession, setupSignalingChannel, initializeLocalStream.
  async_unfold. cbn. split.
  - by crunch.
  - intros [r Hr] [u Hu]. crunch; cbn in *; congruence.
Qed.

(** X27. [initializeRoom] runs to its end on every path: whatever the
    three fetches and [getUserMedia] answer, the channel is subscribed,
    [isInitializedRef] is set and [loading] is false, and no connection
    has been constructed yet.  A room that is not found does not stop it:
    the page has asked to go back to the list of rooms and is initialized
    all the same. *)
Theorem initializeRoom_always_initializes (Q : Supabase) (B : Browser)
    (p : Page) (r u : string) :
  roomId (session p) = Some r ->
  user (session p) = Some u ->
  isInitializedRef (session (initializeRoom Q B p)) = true
  /\ signalingChannelRef (session (initializeRoom Q B p)) = true
  /\ loading (initializeRoom Q B p) = false
  /\ objects (session (initializeRoom Q B p)) = objects (session p)
  /\ peerConnectionsRef (session (initializeRoom Q B p))
     = peerConnectionsRef (session p)
  /\ (forall data err,
        selectRoom Q p = fulfilled data (Some err) ->
        room (initializeRoom Q B p) = room p
        /\ navigations (initializeRoom Q B p)
           = navigations p ++ ["/study-rooms"]).
Proof.
  intros Hr Hu. unfold initializeRoom. rewrite Hr, Hu.
  set (p3 := fetchMessages Q (fetchParticipants Q (fetchRoom Q p))).
  assert (exists l, session p3 = with_console (fun c => c ++ l) (session p))
    as [l Hs].
  { subst p3.
    destruct (fetchMessages_session Q (fetchParticipants Q (fetchRoom Q p)))
      as [l3 ->].
    destruct (fetchParticipants_session Q (fetchRoom Q p)) as [l2 ->].
    destruct (fetchRoom_session Q p) as [l1 ->].
    exists (l1 ++ l2 ++ l3). destruct (session p). unfold with_console. cbn.
    by rewrite <- !app_assoc. }
  assert (loading p3 = false /\ navigations p3 = navigations (fetchRoom Q p)
          /\ room p3 = room (fetchRoom Q p)) as (Hl & Hn & Hrm).
  { subst p3.
    destruct (fetchMessages_loading Q (fetchParticipants Q (fetchRoom Q p)))
      as [-> ->].
    destruct (fetchParticipants_loading Q (fetchRoom Q p)) as [-> ->].
    split; [|split; [done|]].
    - unfold fetchRoom. by destruct (selectRoom Q p) as [[?|] [?|]|?].
    - unfold fetchMessages, fetchParticipants.
      by repeat case_match. }
  set (init := initializeSession B (isAudioOn (session p))
                 (isVideoOn (session p))).
  destruct (initializeSession_refs B (isAudioOn (session p))
              (isVideoOn (session p)) (session p3)) as [Hi Hc].
  destruct (initializeSession_core B (isAudioOn (session p))
              (isVideoOn (session p)) (session p3))
    as (_ & _ & Ho & Hm & _ & _).
  fold init in Hi, Hc, Ho, Hm.
  change (session (with_session init p3)) with (init (session p3)).
  change (loading (with_session init p3)) with (loading p3).
  change (room (with_session init p3)) with (room p3).
  change (navigations (with_session init p3)) with (navigations p3).
  split; [done|]. split.
  { apply Hc; rewrite Hs; destruct (session p); cbn in *; eauto. }
  split; [done|]. split; [by rewrite Ho, Hs; destruct (session p)|].
  split; [by rewrite Hm, Hs; destruct (session p)|].
  intros data err Hq. rewrite Hrm, Hn. unfold fetchRoom. rewrite Hq.
  by destruct data.
Qed.

Lemma initializeRoom_always_initializes_witness :
  isInitializedRef (session (initializeRoom missing denied (firstRender "room" "a")))
  = true
  /\ navigations (initializeRoom missing denied (firstRender "room" "a"))
     = ["/study-rooms"].
Proof.
  pose proof (initializeRoom_always_initializes missing denied
                (firstRender "room" "a") "room" "a" eq_refl eq_refl)
    as (Hi & _ & _ & _ & _ & Hn).
  split; [exact Hi|].
  exact (proj2 (Hn None "PGRST116" eq_refl)).
Defined.

Lemma existsb_user_id (u : string) (data : list ParticipantRow) :
  existsb (fun x => bool_decide (user_id x = u))
    ((fun r => mkParticipant (participant_id r)
                 (usernameOr (participant_profiles r))
                 (participant_user_id r) (participant_is_active r)) <$> data)
  = bool_decide (u ∈ participant_user_id <$> data).
Proof.
  induction data as [|r data IH]; cbn.
  - symmetry. apply bool_decide_eq_false_2, not_elem_of_nil.
  - rewrite IH. destruct (decide (participant_user_id r = u)) as [<-|Hne].
    + rewrite bool_decide_eq_true_2 by done. cbn. symmetry.
      apply bool_decide_eq_true_2, list_elem_of_here.
    + rewrite bool_decide_eq_false_2 by done. cbn.
      apply bool_decide_ext. rewrite elem_of_cons.
      split; [by right|intros [?|?]; [congruence|done]].
Qed.

(** X28. The redirect after a refetch of the participants.  On an
    initialized page that is not loading, the effect that follows a
    successful [fetchParticipants] sends the user back to the list of
    rooms exactly when the answer has at least one row and none of the
    rows is the user's; an empty answer redirects nobody. *)
Theorem redirect_after_refetch (Q : Supabase) (p : Page) (u : string)
    (data : list ParticipantRow) :
  user (session p) = Some u ->
  loading p = false ->
  isInitializedRef (session p) = true ->
  selectParticipants Q p = fulfilled (Some data) None ->
  (data <> [] /\ u ∉ participant_user_id <$> data ->
   navigations (redirect (fetchParticipants Q p))
   = navigations p ++ ["/study-rooms"])
  /\ (data = [] \/ u ∈ participant_user_id <$> data ->
      redirect (fetchParticipants Q p) = fetchParticipants Q p).
Proof.
  intros Hu Hl Hi Hq. unfold redirect, fetchParticipants. rewrite Hq. cbn.
  rewrite Hu, Hl, Hi. cbn. rewrite existsb_user_id, length_fmap. split.
  - intros [Hd Hn]. rewrite bool_decide_eq_true_2
      by (destruct data; [done|cbn; lia]).
    by rewrite bool_decide_eq_false_2.
  - intros [->|Hin]; [done|].
    rewrite (bool_decide_eq_true_2 (u ∈ _)) by done.
    by rewrite andb_false_r.
Qed.

Lemma redirect_after_refetch_witness :
  redirect (fetchParticipants serving
              (setLoading false
                 (with_session (with_isInitializedRef true) (firstRender "room" "a"))))
  = fetchParticipants serving
      (setLoading false
         (with_session (with_isInitializedRef true) (firstRender "room" "a"))).
Proof.
  apply (proj2 (redirect_after_refetch serving
           (setLoading false
              (with_session (with_isInitializedRef true) (firstRender "room" "a")))
           "a"
           [mkParticipantRow "1" (Some (mkProfiles (Some "ann"))) "a" true;
            mkParticipantRow "2" None "b" true]
           eq_refl eq_refl eq_refl eq_refl)).
  right. apply list_elem_of_here.
Defined.

End StudyRoom.
